(** * TCD1304 black-pill firmware: frame codec, ring buffer, USB transport
      and ASCII command layer.

    A shallow embedding of [ccd_data_layer.c], [ring_buffer.c],
    [usb_transport.c] and [command_layer.c].  Fixed-width C integers are
    integers of [Z] whose wrap-around is written out ([uint8], [uint16],
    [uint32]); bytes and C characters are values of [Z] in [0, 256); the
    file-scope [static] variables of each translation unit become the fields
    of an explicit state record that every operation takes and returns; a
    pointer argument that may be [NULL] is an [option].

    The definitions come first, one module per translation unit; the
    properties follow, then the numbered claims C1 to C10, and further
    properties of the same code, X1 to X24, close the file. *)

From Stdlib Require Import ZArith List Lia String Ascii Bool.
From stdpp Require Import list.

Local Open Scope Z_scope.

(** ** Fixed-width integers *)

Definition uint8 (x : Z) : Z := x mod 2 ^ 8.
Definition uint16 (x : Z) : Z := x mod 2 ^ 16.
Definition uint32 (x : Z) : Z := x mod 2 ^ 32.

Definition is_uint8 (x : Z) : Prop := 0 <= x < 2 ^ 8.
Definition is_uint16 (x : Z) : Prop := 0 <= x < 2 ^ 16.

(** A C string literal as the bytes it holds (without the final NUL). *)
Definition cstr (s : string) : list Z :=
  map (fun a => Z.of_nat (nat_of_ascii a)) (list_ascii_of_string s).

(** ** ccd_data_layer.c *)

Module DataLayer.

(** [CCD_PIXEL_COUNT] and the frame sizes of [ccd_data_layer.h]. *)
Definition CCD_PIXEL_COUNT : Z := 3694.
Definition FRAME_HEADER_SIZE : Z := 8.
Definition FRAME_PIXEL_SIZE : Z := CCD_PIXEL_COUNT * 2.
Definition FRAME_FOOTER_SIZE : Z := 6.
Definition FRAME_TOTAL_SIZE : Z :=
  FRAME_HEADER_SIZE + FRAME_PIXEL_SIZE + FRAME_FOOTER_SIZE.

Inductive CCD_Frame_Status_t : Set :=
| CCD_FRAME_OK
| CCD_FRAME_ERROR_INVALID_DATA
| CCD_FRAME_ERROR_SIZE
| CCD_FRAME_ERROR_CHECKSUM.

(** [CCD_Frame_t], a packed struct. *)
Record CCD_Frame_t : Set := {
  start_marker : list Z;     (* uint8_t  [4]    *)
  frame_counter : Z;         (* uint16_t        *)
  pixel_count : Z;           (* uint16_t        *)
  pixel_data : list Z;       (* uint16_t [3694] *)
  end_marker : list Z;       (* uint8_t  [4]    *)
  checksum : Z               (* uint16_t        *)
}.

Definition set_checksum (f : CCD_Frame_t) (c : Z) : CCD_Frame_t :=
  {| start_marker := start_marker f; frame_counter := frame_counter f;
     pixel_count := pixel_count f; pixel_data := pixel_data f;
     end_marker := end_marker f; checksum := c |}.

(** The two file-scope variables [frame_counter] and [initialized]. *)
Record data_layer_t : Set := {
  st_frame_counter : Z;      (* static uint16_t frame_counter *)
  st_initialized : bool      (* static bool initialized       *)
}.

Definition FRAME_START_MARKER : list Z := cstr "FRME".
Definition FRAME_END_MARKER : list Z := cstr "ENDF".

Definition crc16_table : list Z := [
    0x0000; 0x1021; 0x2042; 0x3063; 0x4084; 0x50A5; 0x60C6; 0x70E7;
    0x8108; 0x9129; 0xA14A; 0xB16B; 0xC18C; 0xD1AD; 0xE1CE; 0xF1EF;
    0x1231; 0x0210; 0x3273; 0x2252; 0x52B5; 0x4294; 0x72F7; 0x62D6;
    0x9339; 0x8318; 0xB37B; 0xA35A; 0xD3BD; 0xC39C; 0xF3FF; 0xE3DE;
    0x2462; 0x3443; 0x0420; 0x1401; 0x64E6; 0x74C7; 0x44A4; 0x5485;
    0xA56A; 0xB54B; 0x8528; 0x9509; 0xE5EE; 0xF5CF; 0xC5AC; 0xD58D;
    0x3653; 0x2672; 0x1611; 0x0630; 0x76D7; 0x66F6; 0x5695; 0x46B4;
    0xB75B; 0xA77A; 0x9719; 0x8738; 0xF7DF; 0xE7FE; 0xD79D; 0xC7BC;
    0x48C4; 0x58E5; 0x6886; 0x78A7; 0x0840; 0x1861; 0x2802; 0x3823;
    0xC9CC; 0xD9ED; 0xE98E; 0xF9AF; 0x8948; 0x9969; 0xA90A; 0xB92B;
    0x5AF5; 0x4AD4; 0x7AB7; 0x6A96; 0x1A71; 0x0A50; 0x3A33; 0x2A12;
    0xDBFD; 0xCBDC; 0xFBBF; 0xEB9E; 0x9B79; 0x8B58; 0xBB3B; 0xAB1A;
    0x6CA6; 0x7C87; 0x4CE4; 0x5CC5; 0x2C22; 0x3C03; 0x0C60; 0x1C41;
    0xEDAE; 0xFD8F; 0xCDEC; 0xDDCD; 0xAD2A; 0xBD0B; 0x8D68; 0x9D49;
    0x7E97; 0x6EB6; 0x5ED5; 0x4EF4; 0x3E13; 0x2E32; 0x1E51; 0x0E70;
    0xFF9F; 0xEFBE; 0xDFDD; 0xCFFC; 0xBF1B; 0xAF3A; 0x9F59; 0x8F78;
    0x9188; 0x81A9; 0xB1CA; 0xA1EB; 0xD10C; 0xC12D; 0xF14E; 0xE16F;
    0x1080; 0x00A1; 0x30C2; 0x20E3; 0x5004; 0x4025; 0x7046; 0x6067;
    0x83B9; 0x9398; 0xA3FB; 0xB3DA; 0xC33D; 0xD31C; 0xE37F; 0xF35E;
    0x02B1; 0x1290; 0x22F3; 0x32D2; 0x4235; 0x5214; 0x6277; 0x7256;
    0xB5EA; 0xA5CB; 0x95A8; 0x8589; 0xF56E; 0xE54F; 0xD52C; 0xC50D;
    0x34E2; 0x24C3; 0x14A0; 0x0481; 0x7466; 0x6447; 0x5424; 0x4405;
    0xA7DB; 0xB7FA; 0x8799; 0x97B8; 0xE75F; 0xF77E; 0xC71D; 0xD73C;
    0x26D3; 0x36F2; 0x0691; 0x16B0; 0x6657; 0x7676; 0x4615; 0x5634;
    0xD94C; 0xC96D; 0xF90E; 0xE92F; 0x99C8; 0x89E9; 0xB98A; 0xA9AB;
    0x5844; 0x4865; 0x7806; 0x6827; 0x18C0; 0x08E1; 0x3882; 0x28A3;
    0xCB7D; 0xDB5C; 0xEB3F; 0xFB1E; 0x8BF9; 0x9BD8; 0xABBB; 0xBB9A;
    0x4A75; 0x5A54; 0x6A37; 0x7A16; 0x0AF1; 0x1AD0; 0x2AB3; 0x3A92;
    0xFD2E; 0xED0F; 0xDD6C; 0xCD4D; 0xBDAA; 0xAD8B; 0x9DE8; 0x8DC9;
    0x7C26; 0x6C07; 0x5C64; 0x4C45; 0x3CA2; 0x2C83; 0x1CE0; 0x0CC1;
    0xEF1F; 0xFF3E; 0xCF5D; 0xDF7C; 0xAF9B; 0xBFBA; 0x8FD9; 0x9FF8;
    0x6E17; 0x7E36; 0x4E55; 0x5E74; 0x2E93; 0x3EB2; 0x0ED1; 0x1EF0
].

(** One turn of the loop of [ccd_data_layer_calculate_crc16]:
    [index = (crc >> 8) ^ data[i]; crc = (crc << 8) ^ crc16_table[index]],
    [index] a [uint8_t] and [crc] a [uint16_t]. *)
Definition crc16_step (crc byte : Z) : Z :=
  let index := uint8 (Z.lxor (Z.shiftr crc 8) byte) in
  uint16 (Z.lxor (Z.shiftl crc 8) (nth (Z.to_nat index) crc16_table 0)).

(** [data] stands for the [length] bytes at the pointer [data]. *)
Definition ccd_data_layer_calculate_crc16 (data : list Z) : Z :=
  fold_left crc16_step data 0xFFFF.

(** A 16-bit field as it lies in memory (the target is little-endian). *)
Definition le16 (x : Z) : list Z := [x mod 256; (x / 256) mod 256].

(** The bytes of a frame in memory: what [(const uint8_t * )frame] reads. *)
Definition frame_bytes (f : CCD_Frame_t) : list Z :=
  start_marker f ++ le16 (frame_counter f) ++ le16 (pixel_count f)
    ++ flat_map le16 (pixel_data f) ++ end_marker f ++ le16 (checksum f).

(** Reading 16-bit fields back from memory. *)
Fixpoint rd16s (l : list Z) : list Z :=
  match l with
  | lo :: hi :: r => (lo + 256 * hi) :: rd16s r
  | _ => []
  end.

Definition rd16 (l : list Z) : Z := hd 0 (rd16s l).

(** A buffer of [FRAME_TOTAL_SIZE] received bytes seen as a frame: what
    [(const CCD_Frame_t * )bytes] reads. *)
Definition frame_of_bytes (m : list Z) : CCD_Frame_t :=
  {| start_marker := take 4 m;
     frame_counter := rd16 (take 2 (drop 4 m));
     pixel_count := rd16 (take 2 (drop 6 m));
     pixel_data := rd16s (take (Z.to_nat FRAME_PIXEL_SIZE) (drop 8 m));
     end_marker := take 4 (drop (Z.to_nat (FRAME_HEADER_SIZE + FRAME_PIXEL_SIZE)) m);
     checksum := rd16 (drop (Z.to_nat (FRAME_TOTAL_SIZE - 2)) m) |}.

Definition ccd_data_layer_init (st : data_layer_t)
  : CCD_Frame_Status_t * data_layer_t :=
  (CCD_FRAME_OK, {| st_frame_counter := 0; st_initialized := true |}).

(** [adc_buffer] and [frame_out] are pointers: [None] is [NULL].  The result
    carries the status, the new file-scope state and the frame at
    [frame_out]. *)
Definition ccd_data_layer_process_readout
    (st : data_layer_t) (adc_buffer : option (list Z))
    (frame_out : option CCD_Frame_t)
  : CCD_Frame_Status_t * data_layer_t * option CCD_Frame_t :=
  if negb (st_initialized st) then (CCD_FRAME_ERROR_INVALID_DATA, st, frame_out)
  else
    match adc_buffer, frame_out with
    | Some adc, Some old =>
        let filled :=
          {| start_marker := FRAME_START_MARKER;
             frame_counter := st_frame_counter st;
             pixel_count := CCD_PIXEL_COUNT;
             pixel_data := take (Z.to_nat CCD_PIXEL_COUNT) adc;
             end_marker := FRAME_END_MARKER;
             checksum := checksum old |} in
        let checksum_length := FRAME_TOTAL_SIZE - 2 in
        let crc :=
          ccd_data_layer_calculate_crc16
            (take (Z.to_nat checksum_length) (frame_bytes filled)) in
        (CCD_FRAME_OK,
         {| st_frame_counter := uint16 (st_frame_counter st + 1);
            st_initialized := st_initialized st |},
         Some (set_checksum filled crc))
    | _, _ => (CCD_FRAME_ERROR_INVALID_DATA, st, frame_out)
    end.

Definition ccd_data_layer_get_frame_count (st : data_layer_t) : Z :=
  st_frame_counter st.

Definition ccd_data_layer_validate_frame (frame : option CCD_Frame_t)
  : CCD_Frame_Status_t :=
  match frame with
  | None => CCD_FRAME_ERROR_INVALID_DATA
  | Some f =>
      if negb (bool_decide (start_marker f = FRAME_START_MARKER))
      then CCD_FRAME_ERROR_INVALID_DATA
      else if negb (bool_decide (end_marker f = FRAME_END_MARKER))
      then CCD_FRAME_ERROR_INVALID_DATA
      else if negb (pixel_count f =? CCD_PIXEL_COUNT)
      then CCD_FRAME_ERROR_SIZE
      else
        let checksum_length := FRAME_TOTAL_SIZE - 2 in
        let calculated_crc :=
          ccd_data_layer_calculate_crc16
            (take (Z.to_nat checksum_length) (frame_bytes f)) in
        if negb (calculated_crc =? checksum f)
        then CCD_FRAME_ERROR_CHECKSUM
        else CCD_FRAME_OK
  end.

Definition ccd_data_layer_reset_counter (st : data_layer_t) : data_layer_t :=
  {| st_frame_counter := 0; st_initialized := st_initialized st |}.

(** *** The reference definition of CRC-16-CCITT

    Stated from the specification, to be compared with the table-driven
    code: polynomial 0x1021, initial value 0xFFFF, most significant bit
    first, one bit at a time. *)
Definition crc16_shift (crc : Z) : Z :=
  if negb (Z.land crc 0x8000 =? 0)
  then uint16 (Z.lxor (Z.shiftl crc 1) 0x1021)
  else uint16 (Z.shiftl crc 1).

Definition crc16_bitwise_step (crc byte : Z) : Z :=
  Nat.iter 8 crc16_shift (Z.lxor crc (Z.shiftl byte 8)).

Definition crc16_ccitt_bitwise (data : list Z) : Z :=
  fold_left crc16_bitwise_step data 0xFFFF.

(** *** Definitions used to state and prove the properties *)

(** The polynomial, or nothing: what one shift adds for the bit it drops. *)
Definition poly_if (b : bool) : Z := if b then 0x1021 else 0.

(** Everything before the checksum field. *)
Definition frame_prefix (f : CCD_Frame_t) : list Z :=
  start_marker f ++ le16 (frame_counter f) ++ le16 (pixel_count f)
    ++ flat_map le16 (pixel_data f) ++ end_marker f.

(** The shape of a frame in memory: four bytes in each marker array and
    [CCD_PIXEL_COUNT] pixels. *)
Definition frame_shape (f : CCD_Frame_t) : Prop :=
  length (start_marker f) = 4%nat /\ length (end_marker f) = 4%nat
  /\ length (pixel_data f) = Z.to_nat CCD_PIXEL_COUNT.

(** A frame whose fields fit their C types. *)
Definition frame_typed (f : CCD_Frame_t) : Prop :=
  frame_shape f /\ is_uint16 (frame_counter f) /\ is_uint16 (pixel_count f)
  /\ Forall is_uint16 (pixel_data f) /\ is_uint16 (checksum f).

(** [ccd_data_layer_validate_frame] read off the received bytes. *)
Definition validate_bytes (m : list Z) : CCD_Frame_Status_t :=
  if negb (bool_decide (take 4 m = FRAME_START_MARKER))
  then CCD_FRAME_ERROR_INVALID_DATA
  else if negb (bool_decide
                  (take 4 (drop (Z.to_nat (FRAME_TOTAL_SIZE - 6)) m) = FRAME_END_MARKER))
  then CCD_FRAME_ERROR_INVALID_DATA
  else if negb (rd16 (take 2 (drop 6 m)) =? CCD_PIXEL_COUNT)
  then CCD_FRAME_ERROR_SIZE
  else if negb (ccd_data_layer_calculate_crc16 (take (Z.to_nat (FRAME_TOTAL_SIZE - 2)) m)
                =? rd16 (drop (Z.to_nat (FRAME_TOTAL_SIZE - 2)) m))
  then CCD_FRAME_ERROR_CHECKSUM
  else CCD_FRAME_OK.

(** The frame [ccd_data_layer_process_readout] writes before it computes
    the checksum. *)
Definition stamped (st : data_layer_t) (adc : list Z) (old : CCD_Frame_t)
  : CCD_Frame_t :=
  {| start_marker := FRAME_START_MARKER;
     frame_counter := st_frame_counter st;
     pixel_count := CCD_PIXEL_COUNT;
     pixel_data := take (Z.to_nat CCD_PIXEL_COUNT) adc;
     end_marker := FRAME_END_MARKER;
     checksum := checksum old |}.

(** Byte positions of the two markers and of the pixel-count field. *)
Definition in_marker (i : Z) : bool :=
  (i <? 4) || ((FRAME_TOTAL_SIZE - 6 <=? i) && (i <? FRAME_TOTAL_SIZE - 2)).

Definition in_pixel_count (i : Z) : bool := (6 <=? i) && (i <? 8).

(** Concrete inputs: the layer just initialised, a dark readout (every
    sample 0), an output frame still zeroed, and the frame built from them. *)
Definition st_fresh : data_layer_t := snd (ccd_data_layer_init
  {| st_frame_counter := 0; st_initialized := false |}).

Definition dark_samples : list Z := repeat 0 (Z.to_nat CCD_PIXEL_COUNT).

Definition blank_frame : CCD_Frame_t :=
  {| start_marker := repeat 0 4; frame_counter := 0; pixel_count := 0;
     pixel_data := repeat 0 (Z.to_nat CCD_PIXEL_COUNT);
     end_marker := repeat 0 4; checksum := 0 |}.

Definition dark_frame : CCD_Frame_t :=
  match
    ccd_data_layer_process_readout st_fresh (Some dark_samples) (Some blank_frame)
  with
  | (_, _, Some frame) => frame
  | _ => blank_frame
  end.

End DataLayer.

(** ** ring_buffer.c *)

Module RingBuffer.

Record ring_buffer_t : Set := {
  buffer : list Z;   (* volatile uint8_t *buffer : the storage array *)
  head : Z;          (* volatile uint16_t head *)
  tail : Z;          (* volatile uint16_t tail *)
  size : Z           (* uint16_t size *)
}.

Definition set_head (rb : ring_buffer_t) (h : Z) (b : list Z) : ring_buffer_t :=
  {| buffer := b; head := h; tail := tail rb; size := size rb |}.

Definition set_tail (rb : ring_buffer_t) (t : Z) : ring_buffer_t :=
  {| buffer := buffer rb; head := head rb; tail := t; size := size rb |}.

Definition ring_buffer_init (storage : list Z) (sz : Z) : ring_buffer_t :=
  {| buffer := storage; head := 0; tail := 0; size := sz |}.

(** [% rb->size] is undefined in C when [size] is 0; [Z.modulo] then
    returns its first argument. *)
Definition ring_buffer_write (rb : ring_buffer_t) (data : Z)
  : bool * ring_buffer_t :=
  let next_head := uint16 ((head rb + 1) mod size rb) in
  if next_head =? tail rb then (false, rb)
  else (true, set_head rb next_head (<[Z.to_nat (head rb) := data]> (buffer rb))).

(** The byte stored through [data] is the [Some] of the result; [None] is
    the [false] return, which leaves [*data] alone. *)
Definition ring_buffer_read (rb : ring_buffer_t) : option Z * ring_buffer_t :=
  if head rb =? tail rb then (None, rb)
  else (Some (nth (Z.to_nat (tail rb)) (buffer rb) 0),
        set_tail rb (uint16 ((tail rb + 1) mod size rb))).

(** The loop of [ring_buffer_write_multiple]; [data] holds the [length]
    bytes to write, [written] is the running count. *)
Fixpoint write_loop (rb : ring_buffer_t) (data : list Z) (written : Z)
  : Z * ring_buffer_t :=
  match data with
  | [] => (written, rb)
  | d :: rest =>
      let '(ok, rb') := ring_buffer_write rb d in
      if ok then write_loop rb' rest (uint16 (written + 1))
      else (written, rb')
  end.

Definition ring_buffer_write_multiple (rb : ring_buffer_t) (data : list Z)
  : Z * ring_buffer_t :=
  write_loop rb data 0.

(** The loop of [ring_buffer_read_multiple]; [out] collects [data[0..]]. *)
Fixpoint read_loop (n : nat) (rb : ring_buffer_t) (out : list Z) (read_count : Z)
  : Z * list Z * ring_buffer_t :=
  match n with
  | O => (read_count, out, rb)
  | S n' =>
      match ring_buffer_read rb with
      | (Some b, rb') => read_loop n' rb' (out ++ [b]) (uint16 (read_count + 1))
      | (None, rb') => (read_count, out, rb')
      end
  end.

Definition ring_buffer_read_multiple (rb : ring_buffer_t) (length : Z)
  : Z * list Z * ring_buffer_t :=
  read_loop (Z.to_nat length) rb [] 0.

Definition ring_buffer_available (rb : ring_buffer_t) : Z :=
  if head rb >=? tail rb then uint16 (head rb - tail rb)
  else uint16 (size rb - tail rb + head rb).

Definition ring_buffer_free_space (rb : ring_buffer_t) : Z :=
  uint16 (size rb - ring_buffer_available rb - 1).

Definition ring_buffer_is_empty (rb : ring_buffer_t) : bool :=
  head rb =? tail rb.

Definition ring_buffer_is_full (rb : ring_buffer_t) : bool :=
  uint16 ((head rb + 1) mod size rb) =? tail rb.

Definition ring_buffer_clear (rb : ring_buffer_t) : ring_buffer_t :=
  {| buffer := buffer rb; head := 0; tail := 0; size := size rb |}.

Definition ring_buffer_peek (rb : ring_buffer_t) : option Z :=
  if head rb =? tail rb then None
  else Some (nth (Z.to_nat (tail rb)) (buffer rb) 0).

(** *** Sequences of operations *)

Inductive rb_op : Set :=
| OpWrite (data : Z)
| OpRead
| OpPeek
| OpWriteMultiple (data : list Z)
| OpReadMultiple (length : Z)
| OpClear.

Definition rb_apply (rb : ring_buffer_t) (op : rb_op) : ring_buffer_t :=
  match op with
  | OpWrite d => snd (ring_buffer_write rb d)
  | OpRead => snd (ring_buffer_read rb)
  | OpPeek => rb
  | OpWriteMultiple d => snd (ring_buffer_write_multiple rb d)
  | OpReadMultiple n => snd (ring_buffer_read_multiple rb n)
  | OpClear => ring_buffer_clear rb
  end.

Definition rb_run (rb : ring_buffer_t) (ops : list rb_op) : ring_buffer_t :=
  fold_left rb_apply ops rb.

(** [K] calls of [ring_buffer_write], one per byte, with their results. *)
Fixpoint write_each (rb : ring_buffer_t) (data : list Z)
  : list bool * ring_buffer_t :=
  match data with
  | [] => ([], rb)
  | d :: rest =>
      let '(ok, rb') := ring_buffer_write rb d in
      let '(oks, rb'') := write_each rb' rest in
      (ok :: oks, rb'')
  end.

(** [k] calls of [ring_buffer_read], with their results. *)
Fixpoint read_each (k : nat) (rb : ring_buffer_t)
  : list (option Z) * ring_buffer_t :=
  match k with
  | O => ([], rb)
  | S k' =>
      let '(r, rb') := ring_buffer_read rb in
      let '(rs, rb'') := read_each k' rb' in
      (r :: rs, rb'')
  end.

(** The bytes waiting in the buffer, oldest first (used to state
    properties; the code keeps no such list). *)
Definition ring_contents (rb : ring_buffer_t) : list Z :=
  map (fun k => nth (Z.to_nat ((tail rb + Z.of_nat k) mod size rb)) (buffer rb) 0)
      (seq 0 (Z.to_nat (ring_buffer_available rb))).

(** What the code relies on: a storage array of [size] bytes, [size] at
    least 1 and a [uint16_t], both indices inside the array. *)
Definition rb_wf (rb : ring_buffer_t) : Prop :=
  0 < size rb < 2 ^ 16 /\ 0 <= head rb < size rb /\ 0 <= tail rb < size rb
  /\ Z.of_nat (length (buffer rb)) = size rb.

(** The indices stay inside the array. *)
Definition rb_inv (rb : ring_buffer_t) : Prop :=
  0 < size rb < 2 ^ 16 /\ 0 <= head rb < size rb /\ 0 <= tail rb < size rb.

(** The slot [k] places after [tail]. *)
Definition slot (rb : ring_buffer_t) (k : nat) : Z :=
  nth (Z.to_nat ((tail rb + Z.of_nat k) mod size rb)) (buffer rb) 0.

End RingBuffer.

(** ** usb_transport.c *)

Module Transport.
Import RingBuffer.

Definition USB_RX_BUFFER_SIZE : Z := 256.
Definition USB_TX_BUFFER_SIZE : Z := 512.

Record usb_transport_stats_t : Set := {
  rx_bytes_total : Z;      (* uint32_t *)
  tx_bytes_total : Z;      (* uint32_t *)
  rx_overflow_count : Z;   (* uint32_t *)
  tx_overflow_count : Z    (* uint32_t *)
}.

(** The file-scope variables of usb_transport.c; the two storage arrays
    live inside the ring buffers. *)
Record usb_transport_t : Set := {
  rx_ring_buffer : ring_buffer_t;
  tx_ring_buffer : ring_buffer_t;
  tx_in_progress : bool;
  stats : usb_transport_stats_t
}.

Definition usb_transport_reset_stats (u : usb_transport_t) : usb_transport_t :=
  {| rx_ring_buffer := rx_ring_buffer u; tx_ring_buffer := tx_ring_buffer u;
     tx_in_progress := tx_in_progress u;
     stats := {| rx_bytes_total := 0; tx_bytes_total := 0;
                 rx_overflow_count := 0; tx_overflow_count := 0 |} |}.

(** [rx_storage] and [tx_storage] are the arrays as they are found. *)
Definition usb_transport_init (rx_storage tx_storage : list Z) : usb_transport_t :=
  usb_transport_reset_stats
    {| rx_ring_buffer := ring_buffer_init rx_storage USB_RX_BUFFER_SIZE;
       tx_ring_buffer := ring_buffer_init tx_storage USB_TX_BUFFER_SIZE;
       tx_in_progress := false;
       stats := {| rx_bytes_total := 0; tx_bytes_total := 0;
                   rx_overflow_count := 0; tx_overflow_count := 0 |} |}.

Definition usb_transport_available (u : usb_transport_t) : Z :=
  ring_buffer_available (rx_ring_buffer u).

Definition usb_transport_read_byte (u : usb_transport_t)
  : option Z * usb_transport_t :=
  let '(r, rx) := ring_buffer_read (rx_ring_buffer u) in
  (r, {| rx_ring_buffer := rx; tx_ring_buffer := tx_ring_buffer u;
         tx_in_progress := tx_in_progress u; stats := stats u |}).

Definition usb_transport_write (u : usb_transport_t) (data : list Z)
  : Z * usb_transport_t :=
  let '(written, tx) := ring_buffer_write_multiple (tx_ring_buffer u) data in
  let total := uint32 (tx_bytes_total (stats u) + written) in
  let overflow :=
    if written <? Z.of_nat (length data)
    then uint32 (tx_overflow_count (stats u) + 1)
    else tx_overflow_count (stats u) in
  (written,
   {| rx_ring_buffer := rx_ring_buffer u; tx_ring_buffer := tx;
      tx_in_progress := tx_in_progress u;
      stats := {| rx_bytes_total := rx_bytes_total (stats u);
                  tx_bytes_total := total;
                  rx_overflow_count := rx_overflow_count (stats u);
                  tx_overflow_count := overflow |} |}).

(** [str] holds the characters before the terminating NUL; [strlen] is
    narrowed to the [uint16_t] parameter of [usb_transport_write]. *)
Definition usb_transport_write_string (u : usb_transport_t) (str : list Z)
  : Z * usb_transport_t :=
  usb_transport_write u (take (Z.to_nat (uint16 (Z.of_nat (length str)))) str).

(** [data] holds the [length] received bytes; the count is narrowed to
    [uint16_t] for [ring_buffer_write_multiple]. *)
Definition usb_transport_rx_callback (u : usb_transport_t) (data : list Z)
  : usb_transport_t :=
  let len := uint32 (Z.of_nat (length data)) in
  let '(written, rx) :=
    ring_buffer_write_multiple (rx_ring_buffer u)
      (take (Z.to_nat (uint16 len)) data) in
  {| rx_ring_buffer := rx; tx_ring_buffer := tx_ring_buffer u;
     tx_in_progress := tx_in_progress u;
     stats := {| rx_bytes_total := uint32 (rx_bytes_total (stats u) + written);
                 tx_bytes_total := tx_bytes_total (stats u);
                 rx_overflow_count :=
                   (if written <? len
                    then uint32 (rx_overflow_count (stats u) + 1)
                    else rx_overflow_count (stats u));
                 tx_overflow_count := tx_overflow_count (stats u) |} |}.

Definition usb_transport_tx_complete_callback (u : usb_transport_t)
  : usb_transport_t :=
  {| rx_ring_buffer := rx_ring_buffer u; tx_ring_buffer := tx_ring_buffer u;
     tx_in_progress := false; stats := stats u |}.

End Transport.

(** ** command_layer.c

    The revision with variable integration time (the one whose handler
    checks the acquisition state and reprograms TIM5). *)

Module CommandLayer.
Import RingBuffer Transport.

Definition CMD_BUFFER_SIZE : Z := 64.

Inductive Command_Status_t : Set :=
| CMD_OK
| CMD_ERROR_UNKNOWN
| CMD_ERROR_INVALID_PARAM
| CMD_ERROR_NOT_IMPLEMENTED
| CMD_ERROR_BUSY.

Inductive Acquisition_State_t : Set :=
| ACQ_STATE_IDLE
| ACQ_STATE_RUNNING.

(** The part of the HAL timer handle [htim5] that the layer drives:
    channel 3 PWM on or off, the auto-reload, compare and counter
    registers. *)
Record TIM_HandleTypeDef : Set := {
  pwm_running : bool;
  autoreload : Z;
  compare3 : Z;
  counter : Z
}.

Definition HAL_TIM_PWM_Stop (t : TIM_HandleTypeDef) : TIM_HandleTypeDef :=
  {| pwm_running := false; autoreload := autoreload t;
     compare3 := compare3 t; counter := counter t |}.

Definition HAL_TIM_PWM_Start (t : TIM_HandleTypeDef) : TIM_HandleTypeDef :=
  {| pwm_running := true; autoreload := autoreload t;
     compare3 := compare3 t; counter := counter t |}.

Definition HAL_TIM_SET_AUTORELOAD (t : TIM_HandleTypeDef) (v : Z)
  : TIM_HandleTypeDef :=
  {| pwm_running := pwm_running t; autoreload := v;
     compare3 := compare3 t; counter := counter t |}.

Definition HAL_TIM_SET_COMPARE (t : TIM_HandleTypeDef) (v : Z)
  : TIM_HandleTypeDef :=
  {| pwm_running := pwm_running t; autoreload := autoreload t;
     compare3 := v; counter := counter t |}.

Definition HAL_TIM_SET_COUNTER (t : TIM_HandleTypeDef) (v : Z)
  : TIM_HandleTypeDef :=
  {| pwm_running := pwm_running t; autoreload := autoreload t;
     compare3 := compare3 t; counter := v |}.

(** The file-scope variables of command_layer.c, with the two objects of
    other units the layer acts on: the USB transport and [htim5]. *)
Record command_layer_t : Set := {
  acquisition_state : Acquisition_State_t;
  integration_time_us : Z;        (* uint32_t *)
  command_buffer : list Z;        (* char [CMD_BUFFER_SIZE] *)
  command_index : Z;              (* uint8_t *)
  usb : usb_transport_t;
  htim5 : TIM_HandleTypeDef
}.

Definition with_usb (s : command_layer_t) (u : usb_transport_t) : command_layer_t :=
  {| acquisition_state := acquisition_state s;
     integration_time_us := integration_time_us s;
     command_buffer := command_buffer s; command_index := command_index s;
     usb := u; htim5 := htim5 s |}.

Definition with_state (s : command_layer_t) (a : Acquisition_State_t)
  : command_layer_t :=
  {| acquisition_state := a;
     integration_time_us := integration_time_us s;
     command_buffer := command_buffer s; command_index := command_index s;
     usb := usb s; htim5 := htim5 s |}.

Definition with_time (s : command_layer_t) (us : Z) (t : TIM_HandleTypeDef)
  : command_layer_t :=
  {| acquisition_state := acquisition_state s;
     integration_time_us := us;
     command_buffer := command_buffer s; command_index := command_index s;
     usb := usb s; htim5 := t |}.

Definition with_line (s : command_layer_t) (buf : list Z) (idx : Z)
  : command_layer_t :=
  {| acquisition_state := acquisition_state s;
     integration_time_us := integration_time_us s;
     command_buffer := buf; command_index := idx;
     usb := usb s; htim5 := htim5 s |}.

(** *** C strings and the library functions the layer calls *)

Definition LF : Z := 10.
Definition CR : Z := 13.
Definition SP : Z := 32.

(** A literal ending in a newline character. *)
Definition cline (s : string) : list Z := cstr s ++ [LF].

(** The string held by a character array: the characters before the first
    NUL. *)
Fixpoint c_string (a : list Z) : list Z :=
  match a with
  | [] => []
  | c :: r => if c =? 0 then [] else c :: c_string r
  end.

(** The trimming loop of [parse_and_execute_command]: trailing spaces and
    carriage returns are cut off. *)
Fixpoint trim_trailing (s : list Z) : list Z :=
  match s with
  | [] => []
  | c :: r =>
      match trim_trailing r with
      | [] => if (c =? SP) || (c =? CR) then [] else [c]
      | r' => c :: r'
      end
  end.

(** [atoi] of the C library: white space, an optional sign, then decimal
    digits.  Where the value does not fit an [int] C leaves the result
    undefined; here it is the unbounded integer. *)
Definition isspace (c : Z) : bool := (c =? SP) || ((9 <=? c) && (c <=? 13)).
Definition isdigit (c : Z) : bool := (48 <=? c) && (c <=? 57).

Fixpoint skip_space (s : list Z) : list Z :=
  match s with
  | c :: r => if isspace c then skip_space r else s
  | [] => []
  end.

Fixpoint atoi_digits (s : list Z) (acc : Z) : Z :=
  match s with
  | c :: r => if isdigit c then atoi_digits r (acc * 10 + (c - 48)) else acc
  | [] => acc
  end.

Definition atoi (s : list Z) : Z :=
  match skip_space s with
  | 45 :: r => - atoi_digits r 0
  | 43 :: r => atoi_digits r 0
  | r => atoi_digits r 0
  end.

(** The conversion [%lu] of [snprintf]: an [unsigned long] of 32 bits has
    at most ten decimal digits. *)
Fixpoint dec_digits (fuel : nat) (n : Z) (acc : list Z) : list Z :=
  match fuel with
  | O => acc
  | S k =>
      let acc' := (48 + n mod 10) :: acc in
      if n / 10 =? 0 then acc' else dec_digits k (n / 10) acc'
  end.

Definition fmt_lu (n : Z) : list Z := dec_digits 10 n [].

(** [snprintf(buf, size, ...)] keeps at most [size - 1] characters of the
    formatted text. *)
Definition snprintf (size : Z) (text : list Z) : list Z :=
  take (Z.to_nat (size - 1)) text.

(** *** The layer *)

Definition send_response (s : command_layer_t) (response : list Z)
  : command_layer_t :=
  with_usb s (snd (usb_transport_write_string (usb s) response)).

Definition command_layer_init (s : command_layer_t)
  : Command_Status_t * command_layer_t :=
  let s1 :=
    {| acquisition_state := ACQ_STATE_IDLE;
       integration_time_us := 20;
       command_buffer := repeat 0 (Z.to_nat CMD_BUFFER_SIZE);
       command_index := 0;
       usb := usb s; htim5 := htim5 s |} in
  (CMD_OK, send_response s1 (cline "TCD1304_READY")).

Definition command_layer_is_acquiring (s : command_layer_t) : bool :=
  match acquisition_state s with ACQ_STATE_RUNNING => true | _ => false end.

Definition command_layer_get_state (s : command_layer_t) : Acquisition_State_t :=
  acquisition_state s.

Definition command_layer_get_integration_time (s : command_layer_t) : Z :=
  integration_time_us s.

Definition command_handle_start (s : command_layer_t) : command_layer_t :=
  send_response (with_state s ACQ_STATE_RUNNING) (cline "OK:STARTED").

Definition command_handle_stop (s : command_layer_t) : command_layer_t :=
  send_response (with_state s ACQ_STATE_IDLE) (cline "OK:STOPPED").

Definition command_handle_set_integration_time
    (s : command_layer_t) (microseconds : Z)
  : Command_Status_t * command_layer_t :=
  if command_layer_is_acquiring s then
    (CMD_ERROR_BUSY, send_response s (cline "ERROR:MUST_STOP_FIRST"))
  else if (microseconds <? 10) || (microseconds >? 100000) then
    (CMD_ERROR_INVALID_PARAM, send_response s (cline "ERROR:RANGE_10_TO_100000"))
  else
    let t1 := HAL_TIM_PWM_Stop (htim5 s) in
    let arr_value := uint32 (84 * microseconds - 1) in
    let ccr_value := 335 in
    let t2 := HAL_TIM_SET_AUTORELOAD t1 arr_value in
    let t3 := HAL_TIM_SET_COMPARE t2 ccr_value in
    let t4 := HAL_TIM_SET_COUNTER t3 0 in
    let t5 := HAL_TIM_PWM_Start t4 in
    let s1 := with_time s microseconds t5 in
    let response :=
      snprintf 64 (cstr "OK:INT_TIME_SET:" ++ fmt_lu microseconds ++ [LF]) in
    (CMD_OK, send_response s1 response).

Definition command_handle_get_status (s : command_layer_t) : command_layer_t :=
  let state_str :=
    if command_layer_is_acquiring s then cstr "RUNNING" else cstr "IDLE" in
  let response :=
    snprintf 128
      (cstr "STATUS:" ++ state_str ++ cstr ",INT_TIME:"
         ++ fmt_lu (integration_time_us s) ++ [LF]) in
  send_response s response.

(** [cmd] is the C string at the pointer [cmd]. *)
Definition parse_and_execute_command (s : command_layer_t) (cmd : list Z)
  : command_layer_t :=
  let clean_cmd := trim_trailing (take (Z.to_nat (CMD_BUFFER_SIZE - 1)) cmd) in
  if bool_decide (clean_cmd = cstr "START") then command_handle_start s
  else if bool_decide (clean_cmd = cstr "STOP") then command_handle_stop s
  else if bool_decide (clean_cmd = cstr "STATUS") then command_handle_get_status s
  else if bool_decide (take 13 clean_cmd = cstr "SET_INT_TIME:") then
    let param_str := drop 13 clean_cmd in
    let int_time := uint32 (atoi param_str) in
    let '(status, s1) := command_handle_set_integration_time s int_time in
    match status with
    | CMD_OK => send_response s1 (cline "OK:INT_TIME_SET")
    | CMD_ERROR_NOT_IMPLEMENTED => send_response s1 (cline "ERROR:NOT_IMPLEMENTED")
    | _ => send_response s1 (cline "ERROR:INVALID_PARAM")
    end
  else
    send_response s
      (snprintf 64 (cstr "ERROR:UNKNOWN_CMD:" ++ clean_cmd ++ [LF])).

(** The body of the loop of [command_layer_process], after the byte has
    been read. *)
Definition process_byte (s : command_layer_t) (byte : Z) : command_layer_t :=
  if (byte =? LF) || (byte =? CR) then
    if command_index s >? 0 then
      let buf := <[Z.to_nat (command_index s) := 0]> (command_buffer s) in
      let s1 := with_line s buf (command_index s) in
      let s2 := parse_and_execute_command s1 (c_string buf) in
      with_line s2 (command_buffer s2) 0
    else s
  else if command_index s <? CMD_BUFFER_SIZE - 1 then
    with_line s (<[Z.to_nat (command_index s) := byte]> (command_buffer s))
      (uint8 (command_index s + 1))
  else
    send_response (with_line s (command_buffer s) 0) (cline "ERROR:CMD_TOO_LONG").

(** [while (usb_transport_available()) { ... }]: every turn takes one byte
    out of the receive buffer, so the number of bytes waiting at entry
    bounds the number of turns. *)
Fixpoint process_loop (turns : nat) (s : command_layer_t) : command_layer_t :=
  match turns with
  | O => s
  | S k =>
      if usb_transport_available (usb s) =? 0 then s
      else
        match usb_transport_read_byte (usb s) with
        | (Some byte, u) => process_loop k (process_byte (with_usb s u) byte)
        | (None, u) => with_usb s u
        end
  end.

Definition command_layer_process (s : command_layer_t) : command_layer_t :=
  process_loop (Z.to_nat (usb_transport_available (usb s))) s.

(** *** The device as it is driven from outside *)

(** The state after [usb_transport_init] and [command_layer_init], the
    storage arrays zeroed as static storage is. *)
Definition booted : command_layer_t :=
  snd (command_layer_init
         {| acquisition_state := ACQ_STATE_IDLE; integration_time_us := 20;
            command_buffer := repeat 0 (Z.to_nat CMD_BUFFER_SIZE);
            command_index := 0;
            usb := usb_transport_init (repeat 0 (Z.to_nat USB_RX_BUFFER_SIZE))
                                      (repeat 0 (Z.to_nat USB_TX_BUFFER_SIZE));
            htim5 := {| pwm_running := true; autoreload := 0;
                        compare3 := 0; counter := 0 |} |}).

(** The host sends [bytes] (the receive callback runs), then the main loop
    calls [command_layer_process]. *)
Definition receive (s : command_layer_t) (bytes : list Z) : command_layer_t :=
  command_layer_process (with_usb s (usb_transport_rx_callback (usb s) bytes)).

(** The reply bytes waiting in the transmit buffer. *)
Definition replies (s : command_layer_t) : list Z :=
  ring_contents (tx_ring_buffer (usb s)).

(** The device after START has been received. *)
Definition running : command_layer_t := receive booted (cline "START").

(** The number of terminated lines in a sequence of bytes. *)
Definition count_lines (l : list Z) : nat := length (filter (fun c => c = LF) l).

End CommandLayer.

(** ** command_layer.c, the earlier revision

    The source keeps a second, earlier copy of the file in which
    SET_INT_TIME is a stub: the handler checks the range, stores the value
    and reports [CMD_ERROR_NOT_IMPLEMENTED]; it neither looks at the
    acquisition state nor sends a reply of its own.  The rest of the file
    is the same in both copies. *)

Module CommandLayerStub.
Import CommandLayer.

Definition command_handle_set_integration_time
    (s : command_layer_t) (microseconds : Z)
  : Command_Status_t * command_layer_t :=
  if (microseconds <? 10) || (microseconds >? 100000) then
    (CMD_ERROR_INVALID_PARAM, s)
  else
    (CMD_ERROR_NOT_IMPLEMENTED, with_time s microseconds (htim5 s)).

End CommandLayerStub.

(** ** The ring buffer as a bounded queue

    What each operation does to the sequence of waiting bytes, [cap] being
    the number of usable slots ([size - 1]).  The code keeps no such
    sequence; [ring_contents] reads it off the array. *)

Module QueueModel.
Import RingBuffer.

Definition q_apply (cap : nat) (q : list Z) (op : rb_op) : list Z :=
  match op with
  | OpWrite d => if (length q <? cap)%nat then q ++ [d] else q
  | OpRead => drop 1 q
  | OpPeek => q
  | OpWriteMultiple data => q ++ take (cap - length q) data
  | OpReadMultiple n => drop (Z.to_nat n) q
  | OpClear => []
  end.

Definition q_run (cap : nat) (q : list Z) (ops : list rb_op) : list Z :=
  fold_left (q_apply cap) ops q.

End QueueModel.

(** ** usb_transport.c, the rest of the file

    [CDC_Transmit_FS] belongs to the vendor's USB stack.  Whether it
    answers [USBD_OK] is an input ([cdc_ok]) of the functions that call it,
    and the call they make is part of their result. *)

Module TransportIO.
Import RingBuffer Transport.

Definition with_rx (u : usb_transport_t) (rx : ring_buffer_t) : usb_transport_t :=
  {| rx_ring_buffer := rx; tx_ring_buffer := tx_ring_buffer u;
     tx_in_progress := tx_in_progress u; stats := stats u |}.

Definition with_tx (u : usb_transport_t) (tx : ring_buffer_t) (busy : bool)
  : usb_transport_t :=
  {| rx_ring_buffer := rx_ring_buffer u; tx_ring_buffer := tx;
     tx_in_progress := busy; stats := stats u |}.

(** A call of [CDC_Transmit_FS] with the bytes handed over and whether
    the stack took them. *)
Inductive cdc_call : Set :=
| CdcCall (packet : list Z) (accepted : bool).

Definition usb_transport_read (u : usb_transport_t) (length : Z)
  : Z * list Z * usb_transport_t :=
  let '(n, data, rx) := ring_buffer_read_multiple (rx_ring_buffer u) length in
  (n, data, with_rx u rx).

Definition usb_transport_write_byte (u : usb_transport_t) (data : Z)
  : bool * usb_transport_t :=
  let '(success, tx) := ring_buffer_write (tx_ring_buffer u) data in
  (success,
   {| rx_ring_buffer := rx_ring_buffer u; tx_ring_buffer := tx;
      tx_in_progress := tx_in_progress u;
      stats :=
        {| rx_bytes_total := rx_bytes_total (stats u);
           tx_bytes_total :=
             (if success then uint32 (tx_bytes_total (stats u) + 1)
              else tx_bytes_total (stats u));
           rx_overflow_count := rx_overflow_count (stats u);
           tx_overflow_count :=
             (if success then tx_overflow_count (stats u)
              else uint32 (tx_overflow_count (stats u) + 1)) |} |}).

(** [buffer] holds the [length] bytes to send. *)
Definition usb_transport_send_direct
    (u : usb_transport_t) (buffer : list Z) (cdc_ok : bool)
  : bool * usb_transport_t * option cdc_call :=
  if tx_in_progress u then (false, u, None)
  else if cdc_ok then
    (true,
     {| rx_ring_buffer := rx_ring_buffer u; tx_ring_buffer := tx_ring_buffer u;
        tx_in_progress := true;
        stats :=
          {| rx_bytes_total := rx_bytes_total (stats u);
             tx_bytes_total :=
               uint32 (tx_bytes_total (stats u) + Z.of_nat (length buffer));
             rx_overflow_count := rx_overflow_count (stats u);
             tx_overflow_count := tx_overflow_count (stats u) |} |},
     Some (CdcCall buffer true))
  else (false, u, Some (CdcCall buffer false)).

Definition usb_transport_is_tx_busy (u : usb_transport_t) : bool :=
  tx_in_progress u.

(** The private [tx_flush]: [temp_buffer] holds the [read_count] bytes
    taken out of the transmit buffer. *)
Definition tx_flush (u : usb_transport_t) (cdc_ok : bool)
  : usb_transport_t * option cdc_call :=
  if tx_in_progress u then (u, None)
  else
    let available := ring_buffer_available (tx_ring_buffer u) in
    if available =? 0 then (u, None)
    else
      let to_send := if available >? 64 then 64 else available in
      let '(read_count, temp_buffer, tx) :=
        ring_buffer_read_multiple (tx_ring_buffer u) to_send in
      if cdc_ok then
        (with_tx u tx true, Some (CdcCall temp_buffer true))
      else
        (with_tx u (snd (ring_buffer_write_multiple tx temp_buffer)) false,
         Some (CdcCall temp_buffer false)).

Definition usb_transport_process (u : usb_transport_t) (cdc_ok : bool)
  : usb_transport_t * option cdc_call :=
  if negb (tx_in_progress u) && negb (ring_buffer_is_empty (tx_ring_buffer u))
  then tx_flush u cdc_ok
  else (u, None).

Definition usb_transport_get_stats (u : usb_transport_t) : usb_transport_stats_t :=
  {| rx_bytes_total := rx_bytes_total (stats u);
     tx_bytes_total := tx_bytes_total (stats u);
     rx_overflow_count := rx_overflow_count (stats u);
     tx_overflow_count := tx_overflow_count (stats u) |}.

(** [ring_buffer_read (&rx, &byte)] as the source uses it: [byte] is
    overwritten only when a byte was read. *)
Definition read_into (rx : ring_buffer_t) (byte : Z) : Z * ring_buffer_t :=
  match ring_buffer_read rx with
  | (Some b, rx') => (b, rx')
  | (None, rx') => (byte, rx')
  end.

(** The loop of [usb_transport_read_line]; [buffer] is the caller's array.
    Every turn that does not return stores one character, so
    [max_length - 1] turns exhaust the condition [count < max_length - 1];
    the case of no turns left is the code after the loop. *)
Fixpoint read_line_loop (turns : nat) (rx : ring_buffer_t) (buffer : list Z)
    (count max_length : Z) : Z * list Z * ring_buffer_t :=
  match turns with
  | O => (0, <[Z.to_nat (max_length - 1) := 0]> buffer, rx)
  | S k =>
      match ring_buffer_peek rx with
      | None => (0, buffer, rx)
      | Some byte =>
          if (byte =? 10) || (byte =? 13) then
            let '(byte1, rx1) := read_into rx byte in
            let rx2 :=
              if byte1 =? 13 then
                match ring_buffer_peek rx1 with
                | Some next =>
                    if next =? 10 then snd (read_into rx1 next) else rx1
                | None => rx1
                end
              else rx1 in
            (count, <[Z.to_nat count := 0]> buffer, rx2)
          else
            let '(byte1, rx1) := read_into rx byte in
            read_line_loop k rx1 (<[Z.to_nat count := byte1]> buffer)
              (uint16 (count + 1)) max_length
      end
  end.

Definition usb_transport_read_line
    (u : usb_transport_t) (buffer : list Z) (max_length : Z)
  : Z * list Z * usb_transport_t :=
  let '(n, buffer', rx) :=
    read_line_loop (Z.to_nat (max_length - 1)) (rx_ring_buffer u) buffer 0
      max_length in
  (n, buffer', with_rx u rx).

(** *** Sequences of calls and the calls of [CDC_Transmit_FS] they make *)

Inductive usb_op : Set :=
| UWrite (data : list Z)
| UWriteByte (data : Z)
| URxCallback (data : list Z)
| URead (length : Z)
| USendDirect (buffer : list Z) (cdc_ok : bool)
| UProcess (cdc_ok : bool)
| UTxComplete.

Inductive usb_event : Set :=
| EvCall (call : cdc_call)
| EvComplete.

Definition event_of (c : option cdc_call) : list usb_event :=
  match c with Some call => [EvCall call] | None => [] end.

Definition usb_apply (u : usb_transport_t) (op : usb_op)
  : usb_transport_t * list usb_event :=
  match op with
  | UWrite data => (snd (usb_transport_write u data), [])
  | UWriteByte d => (snd (usb_transport_write_byte u d), [])
  | URxCallback data => (usb_transport_rx_callback u data, [])
  | URead n => (snd (usb_transport_read u n), [])
  | USendDirect buffer ok =>
      let '(_, u', c) := usb_transport_send_direct u buffer ok in
      (u', event_of c)
  | UProcess ok =>
      let '(u', c) := usb_transport_process u ok in (u', event_of c)
  | UTxComplete => (usb_transport_tx_complete_callback u, [EvComplete])
  end.

Fixpoint usb_run (u : usb_transport_t) (ops : list usb_op)
  : usb_transport_t * list usb_event :=
  match ops with
  | [] => (u, [])
  | op :: rest =>
      let '(u1, ev1) := usb_apply u op in
      let '(u2, ev2) := usb_run u1 rest in
      (u2, ev1 ++ ev2)
  end.

(** No call of [CDC_Transmit_FS] while a transfer is in flight: scanning
    the events from a given busy state, the busy state at the end, or
    [None] when a call is made while busy. *)
Fixpoint gated (busy : bool) (events : list usb_event) : option bool :=
  match events with
  | [] => Some busy
  | EvCall (CdcCall _ accepted) :: rest =>
      if busy then None else gated accepted rest
  | EvComplete :: rest => gated false rest
  end.

(** The bytes the stack accepted, in the order of the calls. *)
Fixpoint accepted_bytes (events : list usb_event) : list Z :=
  match events with
  | [] => []
  | EvCall (CdcCall packet true) :: rest => packet ++ accepted_bytes rest
  | _ :: rest => accepted_bytes rest
  end.

(** The calls of the buffered path, with every hand-over accepted; and
    the data those calls offer to the transmit buffer. *)
Definition buffered (op : usb_op) : bool :=
  match op with
  | USendDirect _ _ => false
  | UProcess ok => ok
  | _ => true
  end.

Fixpoint offered (ops : list usb_op) : list (list Z) :=
  match ops with
  | [] => []
  | UWrite data :: rest => data :: offered rest
  | UWriteByte d :: rest => [d] :: offered rest
  | _ :: rest => offered rest
  end.

Definition is_terminator (c : Z) : bool := (c =? 10) || (c =? 13).

(** What waits after a line terminator [t] has been consumed: a line feed
    right after a carriage return goes with it. *)
Definition after_terminator (t : Z) (rest : list Z) : list Z :=
  if t =? 13 then
    match rest with
    | next :: rest' => if next =? 10 then rest' else rest
    | [] => rest
    end
  else rest.

End TransportIO.

(** ** ccd_data_layer.c, readouts in sequence *)

Module ReadoutRun.
Import DataLayer.

(** Calls of [ccd_data_layer_process_readout] one after the other, each
    with its two pointers; every call gives its status and what
    [frame_out] then points at. *)
Fixpoint readouts (st : data_layer_t)
    (calls : list (option (list Z) * option CCD_Frame_t))
  : data_layer_t * list (CCD_Frame_Status_t * option CCD_Frame_t) :=
  match calls with
  | [] => (st, [])
  | (adc_buffer, frame_out) :: rest =>
      let '(status, st1, frame_out') :=
        ccd_data_layer_process_readout st adc_buffer frame_out in
      let '(st2, results) := readouts st1 rest in
      (st2, (status, frame_out') :: results)
  end.

(** The frames of the calls that returned [CCD_FRAME_OK], in order. *)
Fixpoint built (results : list (CCD_Frame_Status_t * option CCD_Frame_t))
  : list CCD_Frame_t :=
  match results with
  | [] => []
  | (CCD_FRAME_OK, Some frame) :: rest => frame :: built rest
  | _ :: rest => built rest
  end.

(** A call with neither pointer null. *)
Definition complete (call : option (list Z) * option CCD_Frame_t) : bool :=
  match call with
  | (Some _, Some _) => true
  | _ => false
  end.

End ReadoutRun.

(** ** command_layer.c, bytes in sequence *)

Module CommandRun.
Import RingBuffer Transport TransportIO CommandLayer.

(** The loop body of [command_layer_process] on one byte after the
    other. *)
Definition feed (s : command_layer_t) (bytes : list Z) : command_layer_t :=
  fold_left process_byte bytes s.

(** The layer with another receive buffer under it. *)
Definition set_rx (s : command_layer_t) (rx : ring_buffer_t) : command_layer_t :=
  with_usb s (with_rx (usb s) rx).

(** A character of a command: not a terminator of the line and not the
    NUL that ends a C string. *)
Definition line_char (c : Z) : bool :=
  negb ((c =? 0) || (c =? LF) || (c =? CR)).

(** A character the dispatcher trims off the end of a command. *)
Definition blank (c : Z) : bool := (c =? SP) || (c =? CR).

(** The stored integration time is one the handler accepts, and TIM5 runs
    with the period that belongs to it. *)
Definition timer_consistent (s : command_layer_t) : Prop :=
  10 <= integration_time_us s <= 100000
  /\ autoreload (htim5 s) = 84 * integration_time_us s - 1
  /\ pwm_running (htim5 s) = true.

End CommandRun.

(** * Properties *)

Import DataLayer.

Ltac frame_sizes :=
  unfold FRAME_TOTAL_SIZE, FRAME_HEADER_SIZE, FRAME_PIXEL_SIZE,
    FRAME_FOOTER_SIZE, CCD_PIXEL_COUNT in *.

(** ** Bits of fixed-width integers *)

Section Bits.

Lemma uint16_is_uint16 (x : Z) : is_uint16 (uint16 x).
Proof. unfold is_uint16, uint16. apply Z.mod_pos_bound. lia. Qed.

Lemma uint8_is_uint8 (x : Z) : is_uint8 (uint8 x).
Proof. unfold is_uint8, uint8. apply Z.mod_pos_bound. lia. Qed.

Lemma uint16_id (x : Z) : 0 <= x < 2 ^ 16 -> uint16 x = x.
Proof. intros H. unfold uint16. apply Z.mod_small. exact H. Qed.

Lemma uint8_small (x : Z) : is_uint8 x -> uint8 x = x.
Proof. intros H. unfold uint8. apply Z.mod_small. exact H. Qed.

Lemma lxor_mod_pow2 (a b n : Z) :
  0 <= n -> Z.lxor a b mod 2 ^ n = Z.lxor (a mod 2 ^ n) (b mod 2 ^ n).
Proof.
  intros Hn. apply Z.bits_inj'. intros i Hi.
  rewrite Z.lxor_spec, !Z.testbit_mod_pow2, Z.lxor_spec by lia.
  destruct (i <? n); reflexivity.
Qed.

Lemma lxor_small (a b n : Z) :
  0 <= n -> 0 <= a < 2 ^ n -> 0 <= b < 2 ^ n -> 0 <= Z.lxor a b < 2 ^ n.
Proof.
  intros Hn Ha Hb.
  rewrite <- (Z.mod_small a (2 ^ n)), <- (Z.mod_small b (2 ^ n)) by lia.
  rewrite <- lxor_mod_pow2 by lia. apply Z.mod_pos_bound. lia.
Qed.

Lemma lxor_cancel_r (a b x : Z) : Z.lxor a x = Z.lxor b x -> a = b.
Proof.
  intros H.
  rewrite <- (Z.lxor_0_r a), <- (Z.lxor_0_r b), <- (Z.lxor_nilpotent x).
  rewrite <- !Z.lxor_assoc, H. reflexivity.
Qed.

Lemma lxor_cancel_l (a b x : Z) : Z.lxor x a = Z.lxor x b -> a = b.
Proof. rewrite !(Z.lxor_comm x). apply lxor_cancel_r. Qed.

(** A byte shifted into the high half, and what is below it. *)
Lemma lxor_high_low_mod (lo t : Z) :
  Z.lxor (lo * 2 ^ 8) t mod 2 ^ 8 = t mod 2 ^ 8.
Proof.
  rewrite lxor_mod_pow2 by lia.
  rewrite Z.mod_mul by lia. apply Z.lxor_0_l.
Qed.

Lemma lxor_high_low_div (lo t : Z) :
  Z.lxor (lo * 2 ^ 8) t / 2 ^ 8 = Z.lxor lo (t / 2 ^ 8).
Proof.
  rewrite <- !Z.shiftr_div_pow2 by lia.
  rewrite Z.shiftr_lxor, !Z.shiftr_div_pow2 by lia.
  rewrite Z.div_mul by lia. reflexivity.
Qed.

Lemma split_high_low (c : Z) :
  c = Z.lxor ((c / 2 ^ 8) * 2 ^ 8) (c mod 2 ^ 8).
Proof.
  apply Z.bits_inj'. intros i Hi.
  rewrite Z.lxor_spec, Z.testbit_mod_pow2 by lia.
  rewrite <- Z.shiftr_div_pow2, <- Z.shiftl_mul_pow2 by lia.
  destruct (Z.ltb_spec i 8) as [Hlt | Hge].
  - rewrite Z.shiftl_spec_low by lia. reflexivity.
  - rewrite Z.shiftl_spec, Z.shiftr_spec by lia.
    replace (i - 8 + 8) with i by lia.
    simpl. apply eq_sym, xorb_false_r.
Qed.

End Bits.

(** ** The CRC table and one step of the table-driven loop *)

Section Crc16.

Lemma crc16_table_length : length crc16_table = 256%nat.
Proof. reflexivity. Qed.

(** The check value of CRC-16-CCITT with initial value 0xFFFF. *)
Example crc16_check_value :
  ccd_data_layer_calculate_crc16 (cstr "123456789") = 0x29B1
  /\ crc16_ccitt_bitwise (cstr "123456789") = 0x29B1.
Proof. split; vm_compute; reflexivity. Qed.

Lemma crc16_table_range (i : Z) :
  is_uint16 (nth (Z.to_nat i) crc16_table 0).
Proof.
  assert (H : Forall is_uint16 crc16_table).
  { unfold is_uint16. apply Forall_forall. 
    assert (Hb : forallb (fun t => (0 <=? t) && (t <? 2 ^ 16)) crc16_table = true)
      by (vm_compute; reflexivity).
    rewrite forallb_forall in Hb. intros t Ht.
    apply list_elem_of_In, Hb in Ht. lia. }
  destruct (Nat.lt_ge_cases (Z.to_nat i) (length crc16_table)) as [Hlt | Hge].
  - rewrite Forall_forall in H. apply H, list_elem_of_In, nth_In, Hlt.
  - rewrite nth_overflow by exact Hge. unfold is_uint16. lia.
Qed.

(** The low bytes of the 256 entries are pairwise different. *)
Lemma crc16_table_low_inj (i j : Z) :
  is_uint8 i -> is_uint8 j ->
  nth (Z.to_nat i) crc16_table 0 mod 2 ^ 8
    = nth (Z.to_nat j) crc16_table 0 mod 2 ^ 8 ->
  i = j.
Proof.
  intros Hi Hj H.
  pose (low := map (fun t => t mod 2 ^ 8) crc16_table).
  assert (Hnd : List.NoDup low).
  { apply NoDup_ListNoDup, (bool_decide_unpack (NoDup low)). vm_compute. exact I. }
  assert (Hlen : length low = 256%nat) by reflexivity.
  unfold is_uint8 in *.
  assert (Hn : Z.to_nat i = Z.to_nat j).
  { apply (proj1 (List.NoDup_nth low 0) Hnd); try lia.
    unfold low.
    rewrite <- (map_nth (fun t => t mod 2 ^ 8) crc16_table 0 (Z.to_nat i)) in H.
    rewrite <- (map_nth (fun t => t mod 2 ^ 8) crc16_table 0 (Z.to_nat j)) in H.
    exact H. }
  lia.
Qed.

(** The step of the loop on the two halves of [crc]. *)
Lemma crc16_step_split (c b : Z) :
  is_uint16 c -> is_uint8 b ->
  crc16_step c b
  = Z.lxor ((c mod 2 ^ 8) * 2 ^ 8)
           (nth (Z.to_nat (Z.lxor (c / 2 ^ 8) b)) crc16_table 0).
Proof.
  intros Hc Hb. unfold crc16_step. unfold is_uint16, is_uint8 in *.
  rewrite Z.shiftr_div_pow2, Z.shiftl_mul_pow2 by lia.
  assert (Hhi : 0 <= c / 2 ^ 8 < 2 ^ 8).
  { split; [apply Z.div_pos; lia | apply Z.div_lt_upper_bound; lia]. }
  rewrite uint8_small by (apply lxor_small; lia).
  unfold uint16. rewrite lxor_mod_pow2 by lia.
  rewrite (Z.mod_small (nth _ _ _)) by apply crc16_table_range.
  f_equal.
  change (2 ^ 16) with (2 ^ 8 * 2 ^ 8).
  rewrite Z.mul_mod_distr_r by lia. reflexivity.
Qed.

Lemma crc16_step_range (c b : Z) : is_uint16 (crc16_step c b).
Proof. unfold crc16_step. apply uint16_is_uint16. Qed.

(** The step can be undone: the result determines the low half of [crc]
    and the table index. *)
Lemma crc16_step_inv (c1 c2 b1 b2 : Z) :
  is_uint16 c1 -> is_uint16 c2 -> is_uint8 b1 -> is_uint8 b2 ->
  crc16_step c1 b1 = crc16_step c2 b2 ->
  c1 mod 2 ^ 8 = c2 mod 2 ^ 8
  /\ Z.lxor (c1 / 2 ^ 8) b1 = Z.lxor (c2 / 2 ^ 8) b2.
Proof.
  intros Hc1 Hc2 Hb1 Hb2 H.
  rewrite !crc16_step_split in H by assumption.
  assert (Hhi : forall c, is_uint16 c -> 0 <= c / 2 ^ 8 < 2 ^ 8).
  { unfold is_uint16. intros c Hc.
    split; [apply Z.div_pos; lia | apply Z.div_lt_upper_bound; lia]. }
  assert (Hidx : Z.lxor (c1 / 2 ^ 8) b1 = Z.lxor (c2 / 2 ^ 8) b2).
  { apply crc16_table_low_inj.
    - apply lxor_small; [lia | apply Hhi, Hc1 | exact Hb1].
    - apply lxor_small; [lia | apply Hhi, Hc2 | exact Hb2].
    - apply (f_equal (fun x => x mod 2 ^ 8)) in H.
      rewrite !lxor_high_low_mod in H. exact H. }
  split; [| exact Hidx].
  apply (f_equal (fun x => x / 2 ^ 8)) in H.
  rewrite !lxor_high_low_div, Hidx in H.
  apply lxor_cancel_r in H. exact H.
Qed.

Lemma crc16_step_inj_crc (c1 c2 b : Z) :
  is_uint16 c1 -> is_uint16 c2 -> is_uint8 b ->
  crc16_step c1 b = crc16_step c2 b -> c1 = c2.
Proof.
  intros Hc1 Hc2 Hb H.
  destruct (crc16_step_inv c1 c2 b b Hc1 Hc2 Hb Hb H) as [Hlo Hhi].
  apply lxor_cancel_r in Hhi.
  rewrite (Z.div_mod c1 (2 ^ 8)), (Z.div_mod c2 (2 ^ 8)) by lia.
  rewrite Hlo, Hhi. reflexivity.
Qed.

Lemma crc16_step_inj_byte (c b1 b2 : Z) :
  is_uint16 c -> is_uint8 b1 -> is_uint8 b2 ->
  crc16_step c b1 = crc16_step c b2 -> b1 = b2.
Proof.
  intros Hc Hb1 Hb2 H.
  destruct (crc16_step_inv c c b1 b2 Hc Hc Hb1 Hb2 H) as [_ Hhi].
  apply lxor_cancel_l in Hhi. exact Hhi.
Qed.

Lemma crc16_fold_range (l : list Z) (c : Z) :
  is_uint16 c -> is_uint16 (fold_left crc16_step l c).
Proof.
  revert c. induction l as [| b l IH]; intros c Hc; simpl.
  - exact Hc.
  - apply IH, crc16_step_range.
Qed.

Lemma crc16_fold_inj (l : list Z) (c1 c2 : Z) :
  Forall is_uint8 l -> is_uint16 c1 -> is_uint16 c2 ->
  fold_left crc16_step l c1 = fold_left crc16_step l c2 -> c1 = c2.
Proof.
  intros Hl. revert c1 c2.
  induction Hl as [| b l Hb Hl IH]; intros c1 c2 Hc1 Hc2 H; simpl in H.
  - exact H.
  - apply IH in H; try apply crc16_step_range.
    apply (crc16_step_inj_crc c1 c2 b); assumption.
Qed.

(** Changing one byte of the data changes the checksum. *)
Lemma crc16_detects_byte (pre post : list Z) (b b' : Z) :
  Forall is_uint8 post -> is_uint8 b -> is_uint8 b' -> b <> b' ->
  ccd_data_layer_calculate_crc16 (pre ++ b :: post)
    <> ccd_data_layer_calculate_crc16 (pre ++ b' :: post).
Proof.
  intros Hpost Hb Hb' Hne H. apply Hne.
  unfold ccd_data_layer_calculate_crc16 in H.
  rewrite !fold_left_app in H. simpl in H.
  assert (Hc : is_uint16 (fold_left crc16_step pre 65535)).
  { apply crc16_fold_range. unfold is_uint16. lia. }
  apply crc16_fold_inj in H; try assumption; try apply crc16_step_range.
  apply (crc16_step_inj_byte _ b b' Hc Hb Hb' H).
Qed.

End Crc16.

(** ** The table-driven loop against the bit-at-a-time definition *)

Section CrcBitwise.

Lemma land_top_bit (x : Z) : (Z.land x 0x8000 =? 0) = negb (Z.testbit x 15).
Proof.
  change 0x8000 with (2 ^ 15).
  destruct (Z.testbit x 15) eqn:Hb; simpl.
  - apply Z.eqb_neq. intros H.
    apply (f_equal (fun v => Z.testbit v 15)) in H.
    rewrite Z.land_spec, Hb, Z.pow2_bits_true, Z.bits_0 in H by lia.
    discriminate H.
  - apply Z.eqb_eq. apply Z.bits_inj'. intros i Hi.
    rewrite Z.land_spec, Z.pow2_bits_eqb, Z.bits_0 by lia.
    destruct (Z.eqb_spec 15 i) as [<- | Hne].
    + rewrite Hb. reflexivity.
    + apply andb_false_r.
Qed.

Lemma crc16_shift_alt (x : Z) :
  crc16_shift x = uint16 (Z.lxor (Z.shiftl x 1) (poly_if (Z.testbit x 15))).
Proof.
  unfold crc16_shift. rewrite land_top_bit, negb_involutive.
  destruct (Z.testbit x 15); simpl poly_if.
  - reflexivity.
  - rewrite Z.lxor_0_r. reflexivity.
Qed.

Lemma poly_if_xorb (a b : bool) :
  poly_if (xorb a b) = Z.lxor (poly_if a) (poly_if b).
Proof. destruct a, b; reflexivity. Qed.

Lemma lxor_swap (a b c d : Z) :
  Z.lxor (Z.lxor a b) (Z.lxor c d) = Z.lxor (Z.lxor a c) (Z.lxor b d).
Proof.
  rewrite !Z.lxor_assoc. f_equal.
  rewrite <- !Z.lxor_assoc. f_equal. apply Z.lxor_comm.
Qed.

(** One shift is linear over exclusive or. *)
Lemma crc16_shift_lxor (x y : Z) :
  crc16_shift (Z.lxor x y) = Z.lxor (crc16_shift x) (crc16_shift y).
Proof.
  rewrite !crc16_shift_alt. unfold uint16.
  rewrite <- lxor_mod_pow2 by lia. f_equal.
  rewrite Z.lxor_spec, poly_if_xorb, Z.shiftl_lxor.
  apply lxor_swap.
Qed.

Lemma crc16_shift_iter_lxor (n : nat) (x y : Z) :
  Nat.iter n crc16_shift (Z.lxor x y)
  = Z.lxor (Nat.iter n crc16_shift x) (Nat.iter n crc16_shift y).
Proof.
  induction n as [| n IH]; simpl.
  - reflexivity.
  - rewrite IH. apply crc16_shift_lxor.
Qed.

(** The 256 values of a byte, for facts checked entry by entry. *)
Lemma byte_cases (P : Z -> Prop) (f : Z -> bool) :
  (forall x, f x = true -> P x) ->
  forallb f (seqZ 0 256) = true ->
  forall x, is_uint8 x -> P x.
Proof.
  intros Hf Hall x Hx. apply Hf.
  rewrite forallb_forall in Hall. apply Hall.
  apply list_elem_of_In, elem_of_seqZ. unfold is_uint8 in Hx. lia.
Qed.

(** Eight shifts move a byte from the low half to the high half. *)
Lemma crc16_shift8_low (lo : Z) :
  is_uint8 lo -> Nat.iter 8 crc16_shift lo = lo * 2 ^ 8.
Proof.
  revert lo.
  apply (byte_cases (fun x => Nat.iter 8 crc16_shift x = x * 2 ^ 8)
                    (fun x => Nat.iter 8 crc16_shift x =? x * 2 ^ 8)).
  - intros x. apply Z.eqb_eq.
  - vm_compute. reflexivity.
Qed.

(** Every entry of [crc16_table] is the remainder that polynomial 0x1021
    leaves for its index: eight shifts of the index in the high half. *)
Lemma crc16_table_entries (i : Z) :
  is_uint8 i ->
  nth (Z.to_nat i) crc16_table 0 = Nat.iter 8 crc16_shift (i * 2 ^ 8).
Proof.
  revert i.
  apply (byte_cases
    (fun x => nth (Z.to_nat x) crc16_table 0 = Nat.iter 8 crc16_shift (x * 2 ^ 8))
    (fun x => nth (Z.to_nat x) crc16_table 0 =? Nat.iter 8 crc16_shift (x * 2 ^ 8))).
  - intros x. apply Z.eqb_eq.
  - vm_compute. reflexivity.
Qed.

Lemma crc16_step_bitwise (c b : Z) :
  is_uint16 c -> is_uint8 b -> crc16_step c b = crc16_bitwise_step c b.
Proof.
  intros Hc Hb. rewrite crc16_step_split by assumption.
  unfold crc16_bitwise_step.
  assert (Hhi : 0 <= c / 2 ^ 8 < 2 ^ 8).
  { unfold is_uint16 in Hc.
    split; [apply Z.div_pos; lia | apply Z.div_lt_upper_bound; lia]. }
  assert (Hlo : is_uint8 (c mod 2 ^ 8)) by (apply Z.mod_pos_bound; lia).
  assert (Hi : is_uint8 (Z.lxor (c / 2 ^ 8) b))
    by (apply lxor_small; [lia | exact Hhi | exact Hb]).
  rewrite (split_high_low c) at 3.
  rewrite Z.shiftl_mul_pow2 by lia.
  rewrite (Z.lxor_comm (_ * _) (c mod _)), Z.lxor_assoc.
  rewrite <- (Z.shiftl_mul_pow2 (c / 2 ^ 8)), <- (Z.shiftl_mul_pow2 b) by lia.
  rewrite <- Z.shiftl_lxor, Z.shiftl_mul_pow2 by lia.
  rewrite crc16_shift_iter_lxor.
  rewrite crc16_shift8_low by exact Hlo.
  rewrite <- crc16_table_entries by exact Hi.
  reflexivity.
Qed.

Lemma crc16_fold_bitwise (l : list Z) (c : Z) :
  Forall is_uint8 l -> is_uint16 c ->
  fold_left crc16_step l c = fold_left crc16_bitwise_step l c.
Proof.
  intros Hl. revert c.
  induction Hl as [| b l Hb Hl IH]; intros c Hc; simpl.
  - reflexivity.
  - rewrite <- crc16_step_bitwise by assumption.
    apply IH, crc16_step_range.
Qed.

Lemma crc16_table_driven_is_bitwise (data : list Z) :
  Forall is_uint8 data ->
  ccd_data_layer_calculate_crc16 data = crc16_ccitt_bitwise data.
Proof.
  intros H. apply crc16_fold_bitwise; [exact H |].
  unfold is_uint16. lia.
Qed.

End CrcBitwise.

(** ** The memory image of a frame *)

Section FrameImage.

Lemma le16_length (x : Z) : length (le16 x) = 2%nat.
Proof. reflexivity. Qed.

Lemma le16_bytes (x : Z) : Forall is_uint8 (le16 x).
Proof.
  unfold le16, is_uint8.
  repeat constructor; apply Z.mod_pos_bound; lia.
Qed.

Lemma le16s_length (l : list Z) :
  length (flat_map le16 l) = (2 * length l)%nat.
Proof. induction l as [| x l IH]; simpl; lia. Qed.

Lemma le16s_bytes (l : list Z) : Forall is_uint8 (flat_map le16 l).
Proof.
  induction l as [| x l IH]; cbn [flat_map].
  - constructor.
  - apply Forall_app. split; [apply le16_bytes | exact IH].
Qed.

Lemma rd16_le16 (x : Z) (r : list Z) : is_uint16 x -> rd16 (le16 x ++ r) = x.
Proof.
  unfold is_uint16, rd16, le16. intros Hx. simpl.
  rewrite (Z.mod_small (x / 256))
    by (split; [apply Z.div_pos | apply Z.div_lt_upper_bound]; lia).
  pose proof (Z.div_mod x 256). lia.
Qed.

Lemma rd16s_le16s (l : list Z) :
  Forall is_uint16 l -> rd16s (flat_map le16 l) = l.
Proof.
  induction 1 as [| x l Hx Hl IH]; simpl.
  - reflexivity.
  - rewrite IH. f_equal.
    apply (rd16_le16 x []) in Hx. unfold rd16, le16 in Hx. simpl in Hx. exact Hx.
Qed.

(** Pairs of bytes read as 16-bit values and written back. *)
Lemma le16s_rd16s (n : nat) (l : list Z) :
  length l = (2 * n)%nat -> Forall is_uint8 l -> flat_map le16 (rd16s l) = l.
Proof.
  revert l. induction n as [| n IH]; intros l Hlen Hl.
  - destruct l; [reflexivity | discriminate Hlen].
  - destruct l as [| a [| b r]]; try (simpl in Hlen; lia).
    inversion Hl as [| ? ? Ha Hl']; subst. inversion Hl' as [| ? ? Hb Hr]; subst.
    simpl in Hlen. cbn [rd16s flat_map].
    rewrite IH by (assumption || lia).
    unfold le16, is_uint8 in *. cbn [app]. f_equal; [| f_equal].
    + rewrite (Z.mul_comm 256 b), Z.mod_add by lia. apply Z.mod_small. lia.
    + rewrite (Z.mul_comm 256 b), Z.div_add by lia.
      rewrite (Z.div_small a) by lia. apply Z.mod_small. lia.
Qed.

Lemma le16_rd16 (l : list Z) :
  length l = 2%nat -> Forall is_uint8 l -> le16 (rd16 l) = l.
Proof.
  intros Hlen Hl.
  pose proof (le16s_rd16s 1 l Hlen Hl) as H.
  destruct l as [| a [| b [| c r]]]; try discriminate Hlen.
  cbn [rd16s flat_map] in H. rewrite app_nil_r in H. exact H.
Qed.

Lemma frame_bytes_prefix (f : CCD_Frame_t) :
  frame_bytes f = frame_prefix f ++ le16 (checksum f).
Proof.
  unfold frame_bytes, frame_prefix. rewrite <- !app_assoc. reflexivity.
Qed.

Lemma frame_prefix_set_checksum (f : CCD_Frame_t) (c : Z) :
  frame_prefix (set_checksum f c) = frame_prefix f.
Proof. reflexivity. Qed.

Lemma frame_prefix_length (f : CCD_Frame_t) :
  frame_shape f -> length (frame_prefix f) = Z.to_nat (FRAME_TOTAL_SIZE - 2).
Proof.
  intros (Hs & He & Hp). unfold frame_prefix.
  rewrite !length_app, le16s_length, !le16_length, Hs, He, Hp.
  unfold FRAME_TOTAL_SIZE, FRAME_HEADER_SIZE, FRAME_PIXEL_SIZE,
    FRAME_FOOTER_SIZE, CCD_PIXEL_COUNT. lia.
Qed.

Lemma frame_bytes_length (f : CCD_Frame_t) :
  frame_shape f -> length (frame_bytes f) = Z.to_nat FRAME_TOTAL_SIZE.
Proof.
  intros Hf. rewrite frame_bytes_prefix, length_app, frame_prefix_length by exact Hf.
  rewrite le16_length. unfold FRAME_TOTAL_SIZE, FRAME_HEADER_SIZE, FRAME_PIXEL_SIZE,
    FRAME_FOOTER_SIZE, CCD_PIXEL_COUNT. lia.
Qed.

(** The bytes the checksum covers. *)
Lemma frame_checksummed_bytes (f : CCD_Frame_t) :
  frame_shape f ->
  take (Z.to_nat (FRAME_TOTAL_SIZE - 2)) (frame_bytes f) = frame_prefix f.
Proof.
  intros Hf. rewrite frame_bytes_prefix.
  apply take_app_length'. symmetry. apply frame_prefix_length, Hf.
Qed.

Lemma frame_bytes_uint8 (f : CCD_Frame_t) :
  Forall is_uint8 (start_marker f) -> Forall is_uint8 (end_marker f) ->
  Forall is_uint8 (frame_bytes f).
Proof.
  intros Hs He. unfold frame_bytes.
  repeat (apply Forall_app; split);
    auto using le16_bytes, le16s_bytes.
Qed.

Lemma frame_of_bytes_of_frame (f : CCD_Frame_t) :
  frame_typed f -> frame_of_bytes (frame_bytes f) = f.
Proof.
  intros ((Hs & He & Hp) & Hc & Hn & Hd & Hk).
  destruct f as [sm fc pc pd em ck]. cbn [start_marker end_marker pixel_data
    frame_counter pixel_count checksum] in *.
  unfold frame_of_bytes, frame_bytes.
  cbn [start_marker end_marker pixel_data frame_counter pixel_count checksum].
  assert (Hflat : length (flat_map le16 pd) = Z.to_nat FRAME_PIXEL_SIZE).
  { rewrite le16s_length, Hp. unfold FRAME_PIXEL_SIZE, CCD_PIXEL_COUNT. lia. }
  symmetry in Hs, He, Hflat.
  f_equal.
  - apply take_app_length'. exact Hs.
  - rewrite drop_app_length' by exact Hs.
    apply (rd16_le16 fc), Hc.
  - change 6%nat with (4 + 2)%nat.
    rewrite (drop_app_add' sm) by exact Hs. cbn [drop app le16].
    apply (rd16_le16 pc), Hn.
  - change 8%nat with (4 + 4)%nat.
    rewrite (drop_app_add' sm) by exact Hs. cbn [drop app le16].
    rewrite drop_0, take_app_length' by exact Hflat. apply rd16s_le16s, Hd.
  - replace (Z.to_nat (FRAME_HEADER_SIZE + FRAME_PIXEL_SIZE))
      with (4 + (4 + Z.to_nat FRAME_PIXEL_SIZE))%nat
      by (unfold FRAME_HEADER_SIZE, FRAME_PIXEL_SIZE, CCD_PIXEL_COUNT; lia).
    rewrite (drop_app_add' sm) by exact Hs.
    change (le16 fc ++ le16 pc ++ ?r) with ((le16 fc ++ le16 pc) ++ r).
    rewrite (drop_app_add' (le16 fc ++ le16 pc)) by reflexivity.
    rewrite drop_app_length' by exact Hflat.
    apply take_app_length'. exact He.
  - replace (Z.to_nat (FRAME_TOTAL_SIZE - 2))
      with (4 + (4 + (Z.to_nat FRAME_PIXEL_SIZE + 4)))%nat
      by (unfold FRAME_TOTAL_SIZE, FRAME_FOOTER_SIZE, FRAME_HEADER_SIZE,
            FRAME_PIXEL_SIZE, CCD_PIXEL_COUNT; lia).
    rewrite (drop_app_add' sm) by exact Hs.
    change (le16 fc ++ le16 pc ++ ?r) with ((le16 fc ++ le16 pc) ++ r).
    rewrite (drop_app_add' (le16 fc ++ le16 pc)) by reflexivity.
    rewrite (drop_app_add' (flat_map le16 pd)) by exact Hflat.
    rewrite drop_app_length' by exact He.
    pose proof (rd16_le16 ck [] Hk) as H. rewrite app_nil_r in H. exact H.
Qed.

End FrameImage.

Section ReceivedImage.

Lemma take_drop_next {A : Type} (k n j : nat) (m : list A) :
  j = (k + n)%nat -> take n (drop k m) ++ drop j m = drop k m.
Proof.
  intros ->. rewrite <- (drop_drop m n k). apply take_drop.
Qed.

(** A buffer of [FRAME_TOTAL_SIZE] bytes read as a frame has exactly these
    bytes as its memory image. *)
Lemma frame_bytes_of_bytes (m : list Z) :
  length m = Z.to_nat FRAME_TOTAL_SIZE -> Forall is_uint8 m ->
  frame_bytes (frame_of_bytes m) = m.
Proof.
  intros Hlen Hm. unfold frame_bytes, frame_of_bytes.
  cbn [start_marker end_marker pixel_data frame_counter pixel_count checksum].
  rewrite !le16_rd16;
    try (rewrite ?length_take, ?length_drop, Hlen; frame_sizes; lia);
    try (auto using Forall_take, Forall_drop).
  rewrite (le16s_rd16s (Z.to_nat CCD_PIXEL_COUNT));
    try (rewrite ?length_take, ?length_drop, Hlen; frame_sizes; lia);
    try (auto using Forall_take, Forall_drop).
  rewrite (take_drop_next _ 4) by (frame_sizes; lia).
  rewrite (take_drop_next 8) by (frame_sizes; lia).
  rewrite (take_drop_next 6) by lia.
  rewrite (take_drop_next 4) by lia.
  apply take_drop.
Qed.

Lemma validate_frame_of_bytes (m : list Z) :
  length m = Z.to_nat FRAME_TOTAL_SIZE -> Forall is_uint8 m ->
  ccd_data_layer_validate_frame (Some (frame_of_bytes m)) = validate_bytes m.
Proof.
  intros Hlen Hm. unfold ccd_data_layer_validate_frame, validate_bytes.
  rewrite frame_bytes_of_bytes by assumption.
  reflexivity.
Qed.

End ReceivedImage.

(** ** Building and validating frames *)

Section Codec.

Lemma process_readout_inv (st st' : data_layer_t) (adc : list Z)
    (old frame : CCD_Frame_t) :
  ccd_data_layer_process_readout st (Some adc) (Some old)
    = (CCD_FRAME_OK, st', Some frame) ->
  st_initialized st = true
  /\ st' = {| st_frame_counter := uint16 (st_frame_counter st + 1);
              st_initialized := true |}
  /\ frame
     = set_checksum (stamped st adc old)
         (ccd_data_layer_calculate_crc16
            (take (Z.to_nat (FRAME_TOTAL_SIZE - 2))
               (frame_bytes (stamped st adc old)))).
Proof.
  unfold ccd_data_layer_process_readout.
  destruct (st_initialized st); cbn [negb]; [| discriminate].
  cbv zeta. fold (stamped st adc old). intros H.
  apply pair_equal_spec in H. destruct H as [H Hf].
  apply pair_equal_spec in H. destruct H as [_ Hst].
  apply (inj Some) in Hf. auto.
Qed.

(** What a successful [ccd_data_layer_process_readout] leaves behind. *)
Lemma process_readout_fields (st st' : data_layer_t) (adc : list Z)
    (old frame : CCD_Frame_t) :
  ccd_data_layer_process_readout st (Some adc) (Some old)
    = (CCD_FRAME_OK, st', Some frame) ->
  st_initialized st = true
  /\ st_frame_counter st' = uint16 (st_frame_counter st + 1)
  /\ st_initialized st' = true
  /\ start_marker frame = FRAME_START_MARKER
  /\ end_marker frame = FRAME_END_MARKER
  /\ frame_counter frame = st_frame_counter st
  /\ pixel_count frame = CCD_PIXEL_COUNT
  /\ pixel_data frame = take (Z.to_nat CCD_PIXEL_COUNT) adc.
Proof.
  intros H. destruct (process_readout_inv _ _ _ _ _ H) as (Hi & -> & ->).
  repeat split. exact Hi.
Qed.

Lemma built_frame_shape (st st' : data_layer_t) (adc : list Z)
    (old frame : CCD_Frame_t) :
  ccd_data_layer_process_readout st (Some adc) (Some old)
    = (CCD_FRAME_OK, st', Some frame) ->
  (Z.to_nat CCD_PIXEL_COUNT <= length adc)%nat ->
  frame_shape frame.
Proof.
  intros H Hlen.
  destruct (process_readout_fields _ _ _ _ _ H)
    as (_ & _ & _ & Hs & He & _ & _ & Hd).
  unfold frame_shape. rewrite Hs, He, Hd, length_take.
  split; [reflexivity |]. split; [reflexivity |]. lia.
Qed.

(** With all [CCD_PIXEL_COUNT] samples present the checksum covers exactly
    the bytes before the checksum field. *)
Lemma built_frame_checksum (st st' : data_layer_t) (adc : list Z)
    (old frame : CCD_Frame_t) :
  ccd_data_layer_process_readout st (Some adc) (Some old)
    = (CCD_FRAME_OK, st', Some frame) ->
  (Z.to_nat CCD_PIXEL_COUNT <= length adc)%nat ->
  checksum frame
  = ccd_data_layer_calculate_crc16
      (take (Z.to_nat (FRAME_TOTAL_SIZE - 2)) (frame_bytes frame)).
Proof.
  intros H Hlen.
  pose proof (built_frame_shape _ _ _ _ _ H Hlen) as Hshape.
  rewrite (frame_checksummed_bytes frame Hshape).
  destruct (process_readout_inv _ _ _ _ _ H) as (_ & _ & Hf).
  rewrite Hf in Hshape |- *.
  rewrite frame_prefix_set_checksum. unfold set_checksum at 1. cbn [checksum].
  rewrite frame_checksummed_bytes by exact Hshape.
  reflexivity.
Qed.

Lemma process_readout_runs (st : data_layer_t) (adc : list Z) (old : CCD_Frame_t) :
  st_initialized st = true ->
  exists st' frame,
    ccd_data_layer_process_readout st (Some adc) (Some old)
      = (CCD_FRAME_OK, st', Some frame).
Proof.
  intros Hinit. unfold ccd_data_layer_process_readout. rewrite Hinit.
  cbn [negb]. eexists. eexists. reflexivity.
Qed.

Lemma built_frame_valid (st st' : data_layer_t) (adc : list Z)
    (old frame : CCD_Frame_t) :
  ccd_data_layer_process_readout st (Some adc) (Some old)
    = (CCD_FRAME_OK, st', Some frame) ->
  (Z.to_nat CCD_PIXEL_COUNT <= length adc)%nat ->
  ccd_data_layer_validate_frame (Some frame) = CCD_FRAME_OK.
Proof.
  intros H Hlen.
  destruct (process_readout_fields _ _ _ _ _ H)
    as (_ & _ & _ & Hs & He & _ & Hn & _).
  pose proof (built_frame_checksum _ _ _ _ _ H Hlen) as Hk.
  unfold ccd_data_layer_validate_frame.
  rewrite Hs, He, Hn, <- Hk, Z.eqb_refl, Z.eqb_refl.
  rewrite !bool_decide_eq_true_2 by reflexivity. reflexivity.
Qed.

Lemma built_frame_typed (st st' : data_layer_t) (adc : list Z)
    (old frame : CCD_Frame_t) :
  ccd_data_layer_process_readout st (Some adc) (Some old)
    = (CCD_FRAME_OK, st', Some frame) ->
  (Z.to_nat CCD_PIXEL_COUNT <= length adc)%nat ->
  Forall is_uint16 adc -> is_uint16 (st_frame_counter st) ->
  frame_typed frame.
Proof.
  intros H Hlen Hadc Hc.
  pose proof (built_frame_shape _ _ _ _ _ H Hlen) as Hshape.
  destruct (process_readout_fields _ _ _ _ _ H)
    as (_ & _ & _ & _ & _ & Hf & Hn & Hd).
  pose proof (built_frame_checksum _ _ _ _ _ H Hlen) as Hk.
  unfold frame_typed. rewrite Hf, Hn, Hd, Hk.
  split; [exact Hshape |]. split; [exact Hc |]. split; [| split].
  - unfold is_uint16, CCD_PIXEL_COUNT. lia.
  - apply Forall_take, Hadc.
  - apply crc16_fold_range. unfold is_uint16. lia.
Qed.

End Codec.

(** ** One corrupted byte in a received frame *)

Section Corruption.

Lemma field_unchanged (j k n : nat) (v : Z) (m : list Z) :
  (n < j \/ j + k <= n)%nat ->
  take k (drop j (<[n := v]> m)) = take k (drop j m).
Proof.
  intros [Hlt | Hge].
  - rewrite drop_insert_lt by lia. reflexivity.
  - rewrite drop_insert_ge by lia. apply take_insert_ge. lia.
Qed.

Lemma field_changed (j k n : nat) (v : Z) (m : list Z) :
  (j <= n < j + k)%nat ->
  take k (drop j (<[n := v]> m)) = <[(n - j)%nat := v]> (take k (drop j m)).
Proof.
  intros H. rewrite drop_insert_ge by lia. apply take_insert_lt. lia.
Qed.

Lemma field_lookup (j k n : nat) (m : list Z) :
  (j <= n < j + k)%nat -> take k (drop j m) !! (n - j)%nat = m !! n.
Proof.
  intros H. rewrite lookup_take_lt by lia. rewrite lookup_drop.
  f_equal. lia.
Qed.

Lemma lookup_nth_lt (l : list Z) (n : nat) :
  (n < length l)%nat -> l !! n = Some (nth n l 0).
Proof.
  intros H. destruct (lookup_lt_is_Some_2 l n H) as [x Hx].
  rewrite (nth_lookup_Some l n 0 x Hx). exact Hx.
Qed.

Lemma rd16_take2 (l : list Z) : rd16 (take 2 l) = rd16 l.
Proof. destruct l as [| a [| b r]]; reflexivity. Qed.

(** A changed byte changes the 16-bit field it lies in. *)
Lemma rd16_insert_ne (l : list Z) (k : nat) (v : Z) :
  length l = 2%nat -> Forall is_uint8 l -> is_uint8 v -> (k < 2)%nat ->
  l !! k <> Some v -> rd16 (<[k := v]> l) <> rd16 l.
Proof.
  intros Hlen Hl Hv Hk Hne.
  destruct l as [| a [| b [| c r]]]; try discriminate Hlen.
  inversion Hl as [| ? ? Ha Hl']; subst. inversion Hl' as [| ? ? Hb _]; subst.
  unfold is_uint8 in *.
  destruct k as [| [| k]]; [| | lia]; cbn in Hne |- *; unfold rd16; cbn;
    intros Heq; apply Hne; f_equal; lia.
Qed.

(** A marker with one byte changed is no longer the marker. *)
Lemma marker_insert_ne (l : list Z) (k : nat) (v : Z) :
  (k < length l)%nat -> l !! k <> Some v -> <[k := v]> l <> l.
Proof.
  intros Hk Hne Heq. apply Hne.
  rewrite <- Heq at 1. apply list_lookup_insert_eq. exact Hk.
Qed.

(** The four checks of the validator on an accepted buffer. *)
Lemma validate_bytes_ok (m : list Z) :
  validate_bytes m = CCD_FRAME_OK ->
  take 4 m = FRAME_START_MARKER
  /\ take 4 (drop (Z.to_nat (FRAME_TOTAL_SIZE - 6)) m) = FRAME_END_MARKER
  /\ rd16 (take 2 (drop 6 m)) = CCD_PIXEL_COUNT
  /\ ccd_data_layer_calculate_crc16 (take (Z.to_nat (FRAME_TOTAL_SIZE - 2)) m)
     = rd16 (drop (Z.to_nat (FRAME_TOTAL_SIZE - 2)) m).
Proof.
  unfold validate_bytes.
  destruct (bool_decide_reflect (take 4 m = FRAME_START_MARKER)) as [Hs |];
    cbn [negb]; [| discriminate].
  destruct (bool_decide_reflect
              (take 4 (drop (Z.to_nat (FRAME_TOTAL_SIZE - 6)) m) = FRAME_END_MARKER))
    as [He |]; cbn [negb]; [| discriminate].
  destruct (Z.eqb_spec (rd16 (take 2 (drop 6 m))) CCD_PIXEL_COUNT) as [Hn |];
    cbn [negb]; [| discriminate].
  destruct (Z.eqb_spec
              (ccd_data_layer_calculate_crc16 (take (Z.to_nat (FRAME_TOTAL_SIZE - 2)) m))
              (rd16 (drop (Z.to_nat (FRAME_TOTAL_SIZE - 2)) m))) as [Hk |];
    cbn [negb]; [| discriminate].
  auto.
Qed.

(** The verdict on a buffer that was accepted before one of its bytes was
    replaced by a different value. *)
Lemma validate_bytes_corrupted (m : list Z) (i v : Z) :
  length m = Z.to_nat FRAME_TOTAL_SIZE -> Forall is_uint8 m ->
  validate_bytes m = CCD_FRAME_OK ->
  0 <= i < FRAME_TOTAL_SIZE -> is_uint8 v -> m !! Z.to_nat i <> Some v ->
  validate_bytes (<[Z.to_nat i := v]> m)
  = if in_marker i then CCD_FRAME_ERROR_INVALID_DATA
    else if in_pixel_count i then CCD_FRAME_ERROR_SIZE
    else CCD_FRAME_ERROR_CHECKSUM.
Proof.
  intros Hlen Hm Hok Hi Hv Hne.
  destruct (validate_bytes_ok m Hok) as (Hs & He & Hn & Hk).
  set (n := Z.to_nat i) in *.
  set (E := Z.to_nat (FRAME_TOTAL_SIZE - 6)) in *.
  set (K := Z.to_nat (FRAME_TOTAL_SIZE - 2)) in *.
  assert (HE : E = Z.to_nat 7396) by reflexivity.
  assert (HK : K = Z.to_nat 7400) by reflexivity.
  assert (Hlen' : length m = Z.to_nat 7402) by exact Hlen.
  assert (HT : FRAME_TOTAL_SIZE = 7402) by reflexivity.
  unfold validate_bytes, in_marker, in_pixel_count. fold E K.
  rewrite HT in *. change (7402 - 6) with 7396. change (7402 - 2) with 7400.
  assert (Hstart : (n < 4)%nat \/ (4 <= n)%nat) by lia.
  change (take 4 (<[n := v]> m)) with (take 4 (drop 0 (<[n := v]> m))).
  destruct (Z.ltb_spec i 4) as [H4 | H4]; cbn [orb].
  { (* start marker *)
    rewrite field_changed by lia. change (drop 0 m) with m. rewrite Hs.
    rewrite bool_decide_eq_false_2; [reflexivity |].
    rewrite <- Hs. apply marker_insert_ne.
    - rewrite length_take. lia.
    - rewrite <- (field_lookup 0 4 n m) in Hne by lia. exact Hne. }
  rewrite field_unchanged by lia. change (drop 0 m) with m.
  rewrite bool_decide_eq_true_2 by exact Hs. cbn [negb].
  destruct (Z.leb_spec 7396 i) as [H5 | H5], (Z.ltb_spec i 7400) as [H6 | H6];
    cbn [andb]; try lia.
  { (* end marker *)
    rewrite field_changed by lia. rewrite He.
    rewrite bool_decide_eq_false_2; [reflexivity |].
    rewrite <- He. apply marker_insert_ne.
    - rewrite length_take, length_drop. lia.
    - rewrite <- (field_lookup E 4 n m) in Hne by lia. exact Hne. }
  { (* checksum field *)
    rewrite field_unchanged by lia.
    rewrite bool_decide_eq_true_2 by exact He. cbn [negb].
    rewrite field_unchanged by lia. rewrite Hn, Z.eqb_refl. cbn [negb].
    destruct (Z.leb_spec 6 i); [| lia]. destruct (Z.ltb_spec i 8); [lia |].
    cbn [andb].
    rewrite take_insert_ge by lia. rewrite Hk.
    rewrite <- (rd16_take2 (drop K (<[n := v]> m))), <- (rd16_take2 (drop K m)).
    rewrite field_changed by lia.
    destruct (Z.eqb_spec (rd16 (take 2 (drop K m)))
                (rd16 (<[(n - K)%nat := v]> (take 2 (drop K m))))) as [Heq |];
      [| reflexivity].
    exfalso. symmetry in Heq. revert Heq. apply rd16_insert_ne.
    - rewrite length_take, length_drop. lia.
    - apply Forall_take, Forall_drop, Hm.
    - exact Hv.
    - lia.
    - rewrite field_lookup by lia. exact Hne. }
  rewrite field_unchanged by lia.
  rewrite bool_decide_eq_true_2 by exact He. cbn [negb].
  destruct (Z.leb_spec 6 i) as [H7 | H7], (Z.ltb_spec i 8) as [H8 | H8];
    cbn [andb].
  { (* pixel count *)
    rewrite field_changed by lia.
    destruct (Z.eqb_spec (rd16 (<[(n - 6)%nat := v]> (take 2 (drop 6 m))))
                CCD_PIXEL_COUNT) as [Heq |]; [| reflexivity].
    exfalso. rewrite <- Hn in Heq. revert Heq. apply rd16_insert_ne.
    - rewrite length_take, length_drop. lia.
    - apply Forall_take, Forall_drop, Hm.
    - exact Hv.
    - lia.
    - rewrite field_lookup by lia. exact Hne. }
  all: rewrite field_unchanged by lia; rewrite Hn, Z.eqb_refl; cbn [negb].
  all: rewrite <- (rd16_take2 (drop K (<[n := v]> m))), field_unchanged, rd16_take2
         by lia.
  all: rewrite <- Hk.
  all: destruct (Z.eqb_spec
                   (ccd_data_layer_calculate_crc16 (take K (<[n := v]> m)))
                   (ccd_data_layer_calculate_crc16 (take K m))) as [Heq |];
         [exfalso | reflexivity].
  all: rewrite take_insert_lt in Heq by lia.
  all: assert (Hl : take K m !! n = Some (nth n m 0))
         by (rewrite lookup_take_lt by lia; apply lookup_nth_lt; lia).
  all: rewrite insert_take_drop in Heq by (rewrite length_take; lia).
  all: rewrite <- (take_drop_middle (take K m) n _ Hl) in Heq at 3.
  all: revert Heq; apply crc16_detects_byte;
         [ apply Forall_drop, Forall_take, Hm
         | exact Hv
         | apply (Forall_nth is_uint8 0 m); [exact Hm | lia]
         | intros ->; apply Hne; apply lookup_nth_lt; lia ].
Qed.

End Corruption.

Section InvalidData.

Lemma validate_invalid_any_checksum (f : CCD_Frame_t) (ck : Z) :
  ccd_data_layer_validate_frame (Some f) = CCD_FRAME_ERROR_INVALID_DATA ->
  ccd_data_layer_validate_frame (Some (set_checksum f ck))
  = CCD_FRAME_ERROR_INVALID_DATA.
Proof.
  unfold ccd_data_layer_validate_frame.
  change (start_marker (set_checksum f ck)) with (start_marker f).
  change (end_marker (set_checksum f ck)) with (end_marker f).
  change (pixel_count (set_checksum f ck)) with (pixel_count f).
  destruct (bool_decide (start_marker f = FRAME_START_MARKER)); cbn [negb];
    [| reflexivity].
  destruct (bool_decide (end_marker f = FRAME_END_MARKER)); cbn [negb];
    [| reflexivity].
  destruct (pixel_count f =? CCD_PIXEL_COUNT); cbn [negb]; [| discriminate].
  cbv zeta.
  destruct (negb (_ =? checksum f)); discriminate.
Qed.

End InvalidData.

(** ** The ring buffer *)

Module RingFacts.
Import RingBuffer.

Lemma next_index (sz i : Z) :
  0 < sz < 2 ^ 16 -> 0 <= i < sz ->
  uint16 ((i + 1) mod sz) = (i + 1) mod sz /\ 0 <= (i + 1) mod sz < sz.
Proof.
  intros Hsz Hi.
  assert (H : 0 <= (i + 1) mod sz < sz) by (apply Z.mod_pos_bound; lia).
  split; [apply uint16_id; lia | exact H].
Qed.

Lemma rb_inv_init (storage : list Z) (sz : Z) :
  0 < sz < 2 ^ 16 -> rb_inv (ring_buffer_init storage sz).
Proof. intros H. unfold rb_inv, ring_buffer_init. cbn. lia. Qed.

Lemma rb_inv_write (rb : ring_buffer_t) (d : Z) :
  rb_inv rb -> rb_inv (snd (ring_buffer_write rb d))
               /\ size (snd (ring_buffer_write rb d)) = size rb.
Proof.
  intros (Hsz & Hh & Ht). unfold ring_buffer_write.
  destruct (next_index (size rb) (head rb) Hsz Hh) as [Hu Hr].
  destruct (_ =? tail rb); cbn [snd].
  - unfold rb_inv. auto.
  - unfold rb_inv, set_head. cbn [size head tail]. rewrite Hu. auto.
Qed.

Lemma rb_inv_read (rb : ring_buffer_t) :
  rb_inv rb -> rb_inv (snd (ring_buffer_read rb))
               /\ size (snd (ring_buffer_read rb)) = size rb.
Proof.
  intros (Hsz & Hh & Ht). unfold ring_buffer_read.
  destruct (next_index (size rb) (tail rb) Hsz Ht) as [Hu Hr].
  destruct (head rb =? tail rb); cbn [snd].
  - unfold rb_inv. auto.
  - unfold rb_inv, set_tail. cbn [size head tail]. rewrite Hu. auto.
Qed.

Lemma rb_inv_write_loop (data : list Z) (rb : ring_buffer_t) (written : Z) :
  rb_inv rb -> rb_inv (snd (write_loop rb data written))
               /\ size (snd (write_loop rb data written)) = size rb.
Proof.
  revert rb written. induction data as [| d rest IH]; intros rb written Hrb.
  - cbn. auto.
  - cbn [write_loop].
    destruct (rb_inv_write rb d Hrb) as [Hw Hs].
    destruct (ring_buffer_write rb d) as [ok rb']. cbn [snd] in Hw, Hs.
    destruct ok.
    + destruct (IH rb' (uint16 (written + 1)) Hw) as [H1 H2].
      split; [exact H1 | congruence].
    + cbn [snd]. auto.
Qed.

Lemma rb_inv_read_loop (n : nat) (rb : ring_buffer_t) (out : list Z) (c : Z) :
  rb_inv rb -> rb_inv (snd (read_loop n rb out c))
               /\ size (snd (read_loop n rb out c)) = size rb.
Proof.
  revert rb out c. induction n as [| n IH]; intros rb out c Hrb.
  - cbn. auto.
  - cbn [read_loop].
    destruct (rb_inv_read rb Hrb) as [Hr Hs].
    destruct (ring_buffer_read rb) as [[b |] rb']; cbn [snd] in Hr, Hs.
    + destruct (IH rb' (out ++ [b]) (uint16 (c + 1)) Hr) as [H1 H2].
      split; [exact H1 | congruence].
    + cbn [snd]. auto.
Qed.

Lemma rb_inv_apply (rb : ring_buffer_t) (op : rb_op) :
  rb_inv rb -> rb_inv (rb_apply rb op) /\ size (rb_apply rb op) = size rb.
Proof.
  intros Hrb. destruct op as [d | | | d | n |]; cbn [rb_apply].
  - apply rb_inv_write, Hrb.
  - apply rb_inv_read, Hrb.
  - auto.
  - apply rb_inv_write_loop, Hrb.
  - apply rb_inv_read_loop, Hrb.
  - destruct Hrb as (Hsz & _ & _). unfold rb_inv, ring_buffer_clear.
    cbn [size head tail]. split; [| reflexivity]. lia.
Qed.

Lemma rb_inv_run (ops : list rb_op) (rb : ring_buffer_t) :
  rb_inv rb -> rb_inv (rb_run rb ops) /\ size (rb_run rb ops) = size rb.
Proof.
  unfold rb_run. revert rb. induction ops as [| op ops IH]; intros rb Hrb.
  - cbn. auto.
  - cbn [fold_left]. destruct (rb_inv_apply rb op Hrb) as [H1 H2].
    destruct (IH _ H1) as [H3 H4]. split; [exact H3 | congruence].
Qed.

(** The two counts in any state whose indices are inside the array. *)
Lemma available_value (rb : ring_buffer_t) :
  rb_inv rb ->
  ring_buffer_available rb = (head rb - tail rb) mod size rb
  /\ 0 <= ring_buffer_available rb <= size rb - 1.
Proof.
  intros (Hsz & Hh & Ht). unfold ring_buffer_available.
  destruct (Z.geb_spec (head rb) (tail rb)) as [Hge | Hlt].
  - rewrite uint16_id by lia. rewrite Z.mod_small by lia. lia.
  - rewrite uint16_id by lia.
    replace (head rb - tail rb) with (size rb - tail rb + head rb + (-1) * size rb)
      by lia.
    rewrite Z.mod_add by lia. rewrite Z.mod_small by lia. lia.
Qed.

Lemma free_space_value (rb : ring_buffer_t) :
  rb_inv rb ->
  ring_buffer_free_space rb = size rb - ring_buffer_available rb - 1.
Proof.
  intros Hrb. destruct (available_value rb Hrb) as [_ Ha].
  destruct Hrb as (Hsz & _). unfold ring_buffer_free_space.
  apply uint16_id. lia.
Qed.

(** With a size of 0 the counts are not meaningful ([% size] is undefined
    in the C code then): the free space reads 65535. *)
Remark free_space_size_zero :
  ring_buffer_free_space (ring_buffer_init [] 0) = 65535.
Proof. reflexivity. Qed.

End RingFacts.

Module RingQueue.
Import RingBuffer RingFacts.

Lemma rb_wf_inv (rb : ring_buffer_t) : rb_wf rb -> rb_inv rb.
Proof. unfold rb_wf, rb_inv. tauto. Qed.

Lemma contents_length (rb : ring_buffer_t) :
  rb_inv rb -> Z.of_nat (length (ring_contents rb)) = ring_buffer_available rb.
Proof.
  intros Hrb. destruct (available_value rb Hrb) as [_ Ha].
  unfold ring_contents. rewrite length_map, length_seq. lia.
Qed.

Lemma contents_slots (rb : ring_buffer_t) :
  ring_contents rb = map (slot rb) (seq 0 (Z.to_nat (ring_buffer_available rb))).
Proof. reflexivity. Qed.

Lemma mod_wrap (x sz : Z) :
  0 < sz -> 0 <= x < 2 * sz ->
  (x < sz /\ x mod sz = x) \/ (sz <= x /\ x mod sz = x - sz).
Proof.
  intros Hsz Hx. destruct (Z.lt_ge_cases x sz) as [Hlt | Hge].
  - left. split; [exact Hlt | apply Z.mod_small; lia].
  - right. split; [exact Hge |].
    replace x with (x - sz + 1 * sz) at 1 by lia.
    rewrite Z.mod_add by lia. apply Z.mod_small. lia.
Qed.

Lemma available_cases (rb : ring_buffer_t) :
  rb_inv rb ->
  (tail rb <= head rb /\ ring_buffer_available rb = head rb - tail rb)
  \/ (head rb < tail rb
      /\ ring_buffer_available rb = size rb - tail rb + head rb).
Proof.
  intros (Hsz & Hh & Ht). unfold ring_buffer_available.
  destruct (Z.geb_spec (head rb) (tail rb)) as [Hge | Hlt];
    rewrite uint16_id by lia; [left | right]; lia.
Qed.

(** The head is [available] places after the tail, and no place before
    that is the head. *)
Lemma head_position (rb : ring_buffer_t) :
  rb_inv rb ->
  (tail rb + ring_buffer_available rb) mod size rb = head rb.
Proof.
  intros Hrb. destruct (available_cases rb Hrb) as [[? Ha] | [? Ha]];
    destruct Hrb as (Hsz & Hh & Ht);
    destruct (mod_wrap (tail rb + ring_buffer_available rb) (size rb));
    lia.
Qed.

Lemma before_head (rb : ring_buffer_t) (k : Z) :
  rb_inv rb -> 0 <= k < ring_buffer_available rb ->
  (tail rb + k) mod size rb <> head rb.
Proof.
  intros Hrb Hk. destruct (available_cases rb Hrb) as [[? Ha] | [? Ha]];
    destruct Hrb as (Hsz & Hh & Ht);
    destruct (mod_wrap (tail rb + k) (size rb));
    lia.
Qed.

(** A write into a buffer that is not full appends to the waiting bytes. *)
Lemma write_appends (rb : ring_buffer_t) (d : Z) :
  rb_wf rb -> ring_buffer_available rb < size rb - 1 ->
  exists rb',
    ring_buffer_write rb d = (true, rb')
    /\ rb_wf rb' /\ size rb' = size rb
    /\ ring_buffer_available rb' = ring_buffer_available rb + 1
    /\ ring_contents rb' = ring_contents rb ++ [d].
Proof.
  intros Hwf Hroom. pose proof (rb_wf_inv rb Hwf) as Hrb.
  destruct Hwf as (Hsz & Hh & Ht & Hlen).
  destruct (next_index (size rb) (head rb) Hsz Hh) as [Hu Hr].
  pose proof (head_position rb Hrb) as Hpos.
  assert (Hnext : (head rb + 1) mod size rb <> tail rb).
  { destruct (available_cases rb Hrb) as [[? Ha] | [? Ha]];
      destruct (mod_wrap (head rb + 1) (size rb)); lia. }
  unfold ring_buffer_write. rewrite Hu.
  destruct (Z.eqb_spec ((head rb + 1) mod size rb) (tail rb)) as [? | _];
    [contradiction |].
  set (rb' := set_head rb ((head rb + 1) mod size rb)
                (<[Z.to_nat (head rb) := d]> (buffer rb))).
  exists rb'.
  assert (Hinv' : rb_inv rb').
  { unfold rb_inv, rb', set_head. cbn [size head tail]. auto. }
  assert (Hav' : ring_buffer_available rb' = ring_buffer_available rb + 1).
  { destruct (available_cases rb' Hinv') as [[H' Ha'] | [H' Ha']];
      rewrite Ha'; unfold rb', set_head in H' |- *; cbn [size head tail] in H' |- *;
      destruct (available_cases rb Hrb) as [[? Ha] | [? Ha]];
      destruct (mod_wrap (head rb + 1) (size rb)); lia. }
  split; [reflexivity |]. split; [| split; [reflexivity | split; [exact Hav' |]]].
  { unfold rb_wf, rb', set_head. cbn [size head tail buffer].
    rewrite length_insert. auto. }
  rewrite !contents_slots, Hav'.
  destruct (available_value rb Hrb) as [_ Hab].
  replace (Z.to_nat (ring_buffer_available rb + 1))
    with (S (Z.to_nat (ring_buffer_available rb))) by lia.
  rewrite seq_S, map_app. cbn [map Nat.add]. f_equal.
  - apply map_ext_in. intros k Hk. apply in_seq in Hk.
    unfold slot, rb', set_head. cbn [size head tail buffer].
    assert (Hne : (tail rb + Z.of_nat k) mod size rb <> head rb)
      by (apply before_head; [exact Hrb | lia]).
    assert (Hb : 0 <= (tail rb + Z.of_nat k) mod size rb < size rb)
      by (apply Z.mod_pos_bound; lia).
    rewrite !nth_lookup.
    rewrite list_lookup_insert_ne by lia. reflexivity.
  - unfold slot, rb', set_head. cbn [size head tail buffer].
    rewrite Z2Nat.id by lia. rewrite Hpos.
    rewrite nth_lookup, list_lookup_insert_eq by lia. reflexivity.
Qed.

(** A read from a buffer that is not empty takes the oldest byte. *)
Lemma read_takes (rb : ring_buffer_t) :
  rb_wf rb -> 0 < ring_buffer_available rb ->
  exists x rb',
    ring_buffer_read rb = (Some x, rb')
    /\ rb_wf rb' /\ size rb' = size rb
    /\ ring_buffer_available rb' = ring_buffer_available rb - 1
    /\ ring_contents rb = x :: ring_contents rb'.
Proof.
  intros Hwf Hsome. pose proof (rb_wf_inv rb Hwf) as Hrb.
  destruct Hwf as (Hsz & Hh & Ht & Hlen).
  destruct (next_index (size rb) (tail rb) Hsz Ht) as [Hu Hr].
  assert (Hne : head rb <> tail rb).
  { destruct (available_cases rb Hrb) as [[? Ha] | [? Ha]]; lia. }
  unfold ring_buffer_read. rewrite Hu.
  destruct (Z.eqb_spec (head rb) (tail rb)) as [? | _]; [contradiction |].
  set (rb' := set_tail rb ((tail rb + 1) mod size rb)).
  exists (nth (Z.to_nat (tail rb)) (buffer rb) 0), rb'.
  assert (Hinv' : rb_inv rb').
  { unfold rb_inv, rb', set_tail. cbn [size head tail]. auto. }
  assert (Hav' : ring_buffer_available rb' = ring_buffer_available rb - 1).
  { destruct (available_cases rb' Hinv') as [[H' Ha'] | [H' Ha']];
      rewrite Ha'; unfold rb', set_tail in H' |- *; cbn [size head tail] in H' |- *;
      destruct (available_cases rb Hrb) as [[? Ha] | [? Ha]];
      destruct (mod_wrap (tail rb + 1) (size rb)); lia. }
  split; [reflexivity |]. split; [| split; [reflexivity | split; [exact Hav' |]]].
  { unfold rb_wf, rb', set_tail. cbn [size head tail buffer]. auto. }
  rewrite !contents_slots, Hav'.
  replace (Z.to_nat (ring_buffer_available rb))
    with (S (Z.to_nat (ring_buffer_available rb - 1))) by lia.
  cbn [seq map]. f_equal.
  - unfold slot. rewrite Z.add_0_r, Z.mod_small by lia. reflexivity.
  - rewrite <- seq_shift, map_map. apply map_ext. intros k.
    unfold slot, rb', set_tail. cbn [size head tail buffer].
    rewrite Zplus_mod_idemp_l. do 3 f_equal. lia.
Qed.

Lemma write_each_appends (data : list Z) (rb : ring_buffer_t) :
  rb_wf rb ->
  ring_buffer_available rb + Z.of_nat (length data) <= size rb - 1 ->
  exists rb',
    write_each rb data = (repeat true (length data), rb')
    /\ rb_wf rb' /\ size rb' = size rb
    /\ ring_buffer_available rb'
       = ring_buffer_available rb + Z.of_nat (length data)
    /\ ring_contents rb' = ring_contents rb ++ data.
Proof.
  revert rb. induction data as [| d rest IH]; intros rb Hwf Hroom.
  - exists rb. cbn [write_each length repeat].
    rewrite app_nil_r, Z.add_0_r. auto.
  - cbn [length] in Hroom.
    destruct (write_appends rb d Hwf) as (rb1 & Hw & Hwf1 & Hs1 & Ha1 & Hc1);
      [lia |].
    destruct (IH rb1 Hwf1) as (rb2 & Hw2 & Hwf2 & Hs2 & Ha2 & Hc2); [lia |].
    exists rb2. cbn [write_each length repeat]. rewrite Hw, Hw2.
    split; [reflexivity |]. split; [exact Hwf2 |]. split; [congruence |].
    split; [lia |]. rewrite Hc2, Hc1, <- app_assoc. reflexivity.
Qed.

Lemma read_each_takes (xs rest : list Z) (rb : ring_buffer_t) :
  rb_wf rb -> ring_contents rb = xs ++ rest ->
  exists rb',
    read_each (length xs) rb = (map Some xs, rb')
    /\ rb_wf rb' /\ size rb' = size rb
    /\ ring_contents rb' = rest.
Proof.
  revert rb. induction xs as [| x xs IH]; intros rb Hwf Hc.
  - exists rb. cbn. auto.
  - assert (Hav : 0 < ring_buffer_available rb).
    { rewrite <- contents_length by apply rb_wf_inv, Hwf.
      rewrite Hc. cbn [app length]. lia. }
    destruct (read_takes rb Hwf Hav) as (y & rb1 & Hr & Hwf1 & Hs1 & _ & Hc1).
    rewrite Hc in Hc1. cbn [app] in Hc1.
    assert (Hy : x = y) by congruence.
    assert (Hrest : ring_contents rb1 = xs ++ rest) by congruence.
    destruct (IH rb1 Hwf1 Hrest) as (rb2 & Hr2 & Hwf2 & Hs2 & Hc2).
    exists rb2. cbn [read_each length map]. rewrite Hr, Hr2, Hy.
    split; [reflexivity |]. split; [exact Hwf2 |]. split; [congruence | exact Hc2].
Qed.

(** The bulk operations are the single ones in a loop. *)
Lemma write_loop_appends (data : list Z) (rb : ring_buffer_t) (written : Z) :
  rb_wf rb ->
  ring_buffer_available rb + Z.of_nat (length data) <= size rb - 1 ->
  0 <= written -> written + Z.of_nat (length data) < 2 ^ 16 ->
  exists rb',
    write_loop rb data written = (written + Z.of_nat (length data), rb')
    /\ rb_wf rb' /\ size rb' = size rb
    /\ ring_buffer_available rb'
       = ring_buffer_available rb + Z.of_nat (length data)
    /\ ring_contents rb' = ring_contents rb ++ data.
Proof.
  revert rb written. induction data as [| d rest IH]; intros rb written Hwf Hroom H0 Hw.
  - exists rb. cbn [write_loop length].
    rewrite app_nil_r, !Z.add_0_r. auto.
  - cbn [length] in Hroom, Hw.
    destruct (write_appends rb d Hwf) as (rb1 & Hw1 & Hwf1 & Hs1 & Ha1 & Hc1);
      [lia |].
    destruct (IH rb1 (uint16 (written + 1)) Hwf1) as (rb2 & Hw2 & Hwf2 & Hs2 & Ha2 & Hc2);
      rewrite ?uint16_id by lia; try lia.
    exists rb2. cbn [write_loop length]. rewrite Hw1, Hw2.
    rewrite uint16_id by lia.
    split; [f_equal; lia |]. split; [exact Hwf2 |]. split; [congruence |].
    split; [lia |]. rewrite Hc2, Hc1, <- app_assoc. reflexivity.
Qed.

Lemma read_loop_takes (xs rest out : list Z) (rb : ring_buffer_t) (c : Z) :
  rb_wf rb -> ring_contents rb = xs ++ rest ->
  0 <= c -> c + Z.of_nat (length xs) < 2 ^ 16 ->
  exists rb',
    read_loop (length xs) rb out c = (c + Z.of_nat (length xs), out ++ xs, rb')
    /\ rb_wf rb' /\ size rb' = size rb
    /\ ring_contents rb' = rest.
Proof.
  revert rb out c. induction xs as [| x xs IH]; intros rb out c Hwf Hc H0 Hlt.
  - exists rb. cbn [read_loop length]. rewrite app_nil_r, Z.add_0_r. auto.
  - cbn [length] in Hlt.
    assert (Hav : 0 < ring_buffer_available rb).
    { rewrite <- contents_length by apply rb_wf_inv, Hwf.
      rewrite Hc. cbn [app length]. lia. }
    destruct (read_takes rb Hwf Hav) as (y & rb1 & Hr & Hwf1 & Hs1 & _ & Hc1).
    rewrite Hc in Hc1. cbn [app] in Hc1.
    assert (Hy : x = y) by congruence.
    assert (Hrest : ring_contents rb1 = xs ++ rest) by congruence.
    destruct (IH rb1 (out ++ [y]) (uint16 (c + 1)) Hwf1 Hrest)
      as (rb2 & Hr2 & Hwf2 & Hs2 & Hc2);
      rewrite ?uint16_id by lia; try lia.
    exists rb2. cbn [read_loop length]. rewrite Hr, Hr2, Hy.
    rewrite uint16_id by lia. rewrite <- app_assoc. cbn [app].
    split; [do 2 f_equal; lia |]. split; [exact Hwf2 |].
    split; [congruence | exact Hc2].
Qed.

Lemma empty_contents (rb : ring_buffer_t) :
  rb_inv rb -> head rb = tail rb ->
  ring_buffer_available rb = 0 /\ ring_contents rb = [].
Proof.
  intros Hrb He.
  assert (Ha : ring_buffer_available rb = 0).
  { destruct (available_cases rb Hrb) as [[? Ha] | [? Ha]]; lia. }
  split; [exact Ha |]. unfold ring_contents. rewrite Ha. reflexivity.
Qed.

End RingQueue.

(** ** The transport and the command layer *)

Module CommandFacts.
Import RingBuffer Transport CommandLayer RingFacts RingQueue.

(** A string that fits the transmit buffer is queued whole. *)
Lemma write_string_queued (u : usb_transport_t) (str : list Z) :
  rb_wf (tx_ring_buffer u) ->
  Z.of_nat (length str) <= ring_buffer_free_space (tx_ring_buffer u) ->
  fst (usb_transport_write_string u str) = Z.of_nat (length str)
  /\ ring_contents (tx_ring_buffer (snd (usb_transport_write_string u str)))
     = ring_contents (tx_ring_buffer u) ++ str
  /\ rb_wf (tx_ring_buffer (snd (usb_transport_write_string u str)))
  /\ rx_ring_buffer (snd (usb_transport_write_string u str)) = rx_ring_buffer u.
Proof.
  intros Hwf Hfit. pose proof (rb_wf_inv _ Hwf) as Hinv.
  rewrite (free_space_value _ Hinv) in Hfit.
  destruct (available_value _ Hinv) as [_ Ha].
  assert (Hsz : size (tx_ring_buffer u) < 2 ^ 16)
    by (destruct Hinv as ((_ & ?) & _); assumption).
  unfold usb_transport_write_string.
  rewrite uint16_id by lia. rewrite Nat2Z.id, firstn_all.
  unfold usb_transport_write, ring_buffer_write_multiple.
  destruct (write_loop_appends str (tx_ring_buffer u) 0 Hwf)
    as (tx' & Hw & Hwf' & _ & _ & Hc); try lia.
  rewrite Hw. cbn [fst snd tx_ring_buffer rx_ring_buffer]. auto.
Qed.

Lemma send_response_queued (s : command_layer_t) (response : list Z) :
  rb_wf (tx_ring_buffer (usb s)) ->
  Z.of_nat (length response) <= ring_buffer_free_space (tx_ring_buffer (usb s)) ->
  replies (send_response s response) = replies s ++ response.
Proof.
  intros Hwf Hfit. unfold replies, send_response, with_usb. cbn [usb].
  apply write_string_queued; assumption.
Qed.

(** Replies go to the transmit side only. *)
Lemma write_string_rx (u : usb_transport_t) (str : list Z) :
  rx_ring_buffer (snd (usb_transport_write_string u str)) = rx_ring_buffer u.
Proof.
  unfold usb_transport_write_string, usb_transport_write.
  destruct (ring_buffer_write_multiple _ _) as [written tx]. reflexivity.
Qed.

Lemma send_response_rx (s : command_layer_t) (response : list Z) :
  rx_ring_buffer (usb (send_response s response)) = rx_ring_buffer (usb s).
Proof. unfold send_response, with_usb. cbn [usb]. apply write_string_rx. Qed.

Lemma set_integration_time_rx (s : command_layer_t) (us : Z) :
  rx_ring_buffer (usb (snd (command_handle_set_integration_time s us)))
  = rx_ring_buffer (usb s).
Proof.
  unfold command_handle_set_integration_time.
  destruct (command_layer_is_acquiring s); cbn [snd];
    [apply send_response_rx |].
  destruct (_ || _); cbn [snd]; rewrite send_response_rx; reflexivity.
Qed.

Lemma parse_and_execute_rx (s : command_layer_t) (cmd : list Z) :
  rx_ring_buffer (usb (parse_and_execute_command s cmd))
  = rx_ring_buffer (usb s).
Proof.
  unfold parse_and_execute_command. cbv zeta.
  repeat (destruct (bool_decide _));
    try (unfold command_handle_start, command_handle_stop,
           command_handle_get_status; rewrite send_response_rx; reflexivity).
  pose proof (set_integration_time_rx s
                (uint32 (atoi (drop 13 (trim_trailing
                   (take (Z.to_nat (CMD_BUFFER_SIZE - 1)) cmd)))))) as H.
  destruct (command_handle_set_integration_time s _) as [status s1].
  cbn [snd] in H. destruct status; rewrite send_response_rx; exact H.
Qed.

Lemma process_byte_rx (s : command_layer_t) (byte : Z) :
  rx_ring_buffer (usb (process_byte s byte)) = rx_ring_buffer (usb s).
Proof.
  unfold process_byte.
  destruct (_ || _).
  - destruct (command_index s >? 0); [| reflexivity].
    cbv zeta. unfold with_line at 1. cbn [usb].
    rewrite parse_and_execute_rx. reflexivity.
  - destruct (command_index s <? CMD_BUFFER_SIZE - 1); [reflexivity |].
    rewrite send_response_rx. reflexivity.
Qed.

(** [command_layer_process] leaves the receive buffer empty: the loop is
    left through its condition. *)
Lemma process_loop_drains (n : nat) (s : command_layer_t) :
  rb_wf (rx_ring_buffer (usb s)) ->
  usb_transport_available (usb s) = Z.of_nat n ->
  usb_transport_available (usb (process_loop n s)) = 0.
Proof.
  revert s. induction n as [| n IH]; intros s Hwf Hn.
  - exact Hn.
  - cbn [process_loop].
    destruct (Z.eqb_spec (usb_transport_available (usb s)) 0) as [H0 | _];
      [exact H0 |].
    unfold usb_transport_available in Hn.
    destruct (read_takes (rx_ring_buffer (usb s)) Hwf)
      as (x & rx' & Hr & Hwf' & _ & Ha' & _); [lia |].
    unfold usb_transport_read_byte. rewrite Hr.
    apply IH.
    + rewrite process_byte_rx. exact Hwf'.
    + unfold usb_transport_available. rewrite process_byte_rx.
      cbn [usb with_usb rx_ring_buffer]. lia.
Qed.

Lemma command_layer_process_drains (s : command_layer_t) :
  rb_wf (rx_ring_buffer (usb s)) ->
  usb_transport_available (usb (command_layer_process s)) = 0.
Proof.
  intros Hwf. unfold command_layer_process.
  apply process_loop_drains; [exact Hwf |].
  unfold usb_transport_available.
  destruct (available_value _ (rb_wf_inv _ Hwf)) as [_ Ha]. lia.
Qed.

Lemma trim_trailing_cons (c : Z) (r : list Z) :
  (c =? SP) || (c =? CR) = false ->
  trim_trailing (c :: r) = c :: trim_trailing r.
Proof.
  intros H. cbn [trim_trailing]. rewrite H.
  destruct (trim_trailing r); reflexivity.
Qed.

(** What the dispatcher sees of a line that begins with SET_INT_TIME: *)
Lemma clean_set_int_time (arg : list Z) :
  trim_trailing (take (Z.to_nat (CMD_BUFFER_SIZE - 1)) (cstr "SET_INT_TIME:" ++ arg))
  = cstr "SET_INT_TIME:" ++ trim_trailing (take 50 arg).
Proof.
  change (Z.to_nat (CMD_BUFFER_SIZE - 1)) with (13 + 50)%nat.
  rewrite take_app_add' by reflexivity.
  change (cstr "SET_INT_TIME:") with [83; 69; 84; 95; 73; 78; 84; 95; 84; 73; 77; 69; 58].
  cbn [app]. rewrite !trim_trailing_cons by reflexivity. reflexivity.
Qed.

Lemma dispatch_set_int_time (s : command_layer_t) (arg : list Z) :
  parse_and_execute_command s (cstr "SET_INT_TIME:" ++ arg)
  = let '(status, s1) :=
      command_handle_set_integration_time s
        (uint32 (atoi (trim_trailing (take 50 arg)))) in
    match status with
    | CMD_OK => send_response s1 (cline "OK:INT_TIME_SET")
    | CMD_ERROR_NOT_IMPLEMENTED => send_response s1 (cline "ERROR:NOT_IMPLEMENTED")
    | _ => send_response s1 (cline "ERROR:INVALID_PARAM")
    end.
Proof.
  unfold parse_and_execute_command. cbv zeta.
  rewrite clean_set_int_time.
  change (cstr "SET_INT_TIME:") with [83; 69; 84; 95; 73; 78; 84; 95; 84; 73; 77; 69; 58].
  cbn [app take drop].
  rewrite !bool_decide_eq_false_2 by discriminate.
  rewrite bool_decide_eq_true_2 by reflexivity.
  reflexivity.
Qed.

(** Ten turns are enough for [%lu]: more turns give the same digits for
    every value below 10 ^ 10, so for every [uint32_t]. *)
Lemma dec_digits_enough (f k : nat) (n : Z) (acc : list Z) :
  0 <= n < 10 ^ Z.of_nat (S f) ->
  dec_digits (S f + k) n acc = dec_digits (S f) n acc.
Proof.
  revert n acc. induction f as [| f IH]; intros n acc Hn;
    cbn [Nat.add dec_digits];
    destruct (Z.eqb_spec (n / 10) 0) as [_ | Hne]; try reflexivity.
  - exfalso. apply Hne. apply Z.div_small. cbn in Hn. lia.
  - apply (IH (n / 10)). rewrite Nat2Z.inj_succ, Z.pow_succ_r in Hn by lia.
    split; [apply Z.div_pos; lia | apply Z.div_lt_upper_bound; lia].
Qed.

Lemma fmt_lu_uint32 (n : Z) (k : nat) :
  0 <= n < 2 ^ 32 -> dec_digits (10 + k) n [] = fmt_lu n.
Proof.
  intros Hn. unfold fmt_lu. apply (dec_digits_enough 9 k).
  change (10 ^ Z.of_nat 10) with 10000000000. lia.
Qed.

(** Every dispatch of SET_INT_TIME sends two replies: the handler's, then
    the dispatcher's. *)
Lemma set_int_time_sends_twice (s : command_layer_t) (arg : list Z) :
  exists s0 r1 r2,
    parse_and_execute_command s (cstr "SET_INT_TIME:" ++ arg)
    = send_response (send_response s0 r1) r2
    /\ usb s0 = usb s.
Proof.
  rewrite dispatch_set_int_time. unfold command_handle_set_integration_time.
  destruct (command_layer_is_acquiring s).
  - exists s. eexists. eexists. split; reflexivity.
  - destruct (_ || _).
    + exists s. eexists. eexists. split; reflexivity.
    + eexists. eexists. eexists. split; reflexivity.
Qed.

(** The 64th character of a line only resets the line buffer: the next
    character starts a new line at index 0. *)
Lemma overflow_only_resets (s : command_layer_t) (byte : Z) :
  command_index s = CMD_BUFFER_SIZE - 1 -> byte <> LF -> byte <> CR ->
  process_byte s byte
  = send_response (with_line s (command_buffer s) 0) (cline "ERROR:CMD_TOO_LONG")
  /\ command_index (process_byte s byte) = 0.
Proof.
  intros Hidx Hlf Hcr. unfold process_byte.
  destruct (Z.eqb_spec byte LF) as [? | _]; [contradiction |].
  destruct (Z.eqb_spec byte CR) as [? | _]; [contradiction |].
  cbn [orb]. rewrite Hidx, Z.ltb_irrefl. split; reflexivity.
Qed.

Lemma first_character_kept (s : command_layer_t) (byte : Z) :
  command_index s = 0 -> byte <> LF -> byte <> CR ->
  command_index (process_byte s byte) = 1
  /\ acquisition_state (process_byte s byte) = acquisition_state s
  /\ usb (process_byte s byte) = usb s.
Proof.
  intros Hidx Hlf Hcr. unfold process_byte.
  destruct (Z.eqb_spec byte LF) as [? | _]; [contradiction |].
  destruct (Z.eqb_spec byte CR) as [? | _]; [contradiction |].
  cbn [orb]. rewrite Hidx. cbn. auto.
Qed.

(** The stub revision of the handler never answers [CMD_ERROR_BUSY]. *)
Lemma stub_handler_ignores_state (s : command_layer_t) (us : Z) :
  fst (CommandLayerStub.command_handle_set_integration_time s us)
  <> CMD_ERROR_BUSY.
Proof.
  unfold CommandLayerStub.command_handle_set_integration_time.
  destruct (_ || _); discriminate.
Qed.

End CommandFacts.

Import RingBuffer Transport CommandLayer.

(** * The claims *)

(** Facts about the concrete inputs. *)
Lemma dark_frame_built :
  ccd_data_layer_process_readout st_fresh (Some dark_samples) (Some blank_frame)
  = (CCD_FRAME_OK, {| st_frame_counter := 1; st_initialized := true |},
     Some dark_frame).
Proof. reflexivity. Qed.

Lemma dark_samples_typed :
  (Z.to_nat CCD_PIXEL_COUNT <= length dark_samples)%nat
  /\ Forall is_uint16 dark_samples.
Proof.
  split; [unfold dark_samples; rewrite repeat_length; lia |].
  apply Forall_forall. intros x Hx.
  apply list_elem_of_In, repeat_spec in Hx. subst x.
  unfold is_uint16. lia.
Qed.

(** ** Frame codec *)

(** C1.  For every array of 3694 samples (or more, of which the first
    3694 are read), with the layer initialised and neither pointer null,
    [ccd_data_layer_process_readout] returns [CCD_FRAME_OK] and
    [ccd_data_layer_validate_frame] accepts the frame it built, both as the
    struct and as the bytes of the struct read back. *)
Theorem C1_build_then_validate (st : data_layer_t) (adc : list Z)
    (old : CCD_Frame_t) :
  st_initialized st = true ->
  is_uint16 (st_frame_counter st) ->
  (Z.to_nat CCD_PIXEL_COUNT <= length adc)%nat ->
  Forall is_uint16 adc ->
  exists st' frame,
    ccd_data_layer_process_readout st (Some adc) (Some old)
      = (CCD_FRAME_OK, st', Some frame)
    /\ ccd_data_layer_validate_frame (Some frame) = CCD_FRAME_OK
    /\ ccd_data_layer_validate_frame (Some (frame_of_bytes (frame_bytes frame)))
       = CCD_FRAME_OK.
Proof.
  intros Hinit Hc Hlen Hadc.
  destruct (process_readout_runs st adc old Hinit) as (st' & frame & H).
  exists st', frame. split; [exact H |].
  pose proof (built_frame_valid _ _ _ _ _ H Hlen) as Hv.
  split; [exact Hv |].
  rewrite frame_of_bytes_of_frame; [exact Hv |].
  apply (built_frame_typed _ _ _ _ _ H); assumption.
Qed.

Lemma C1_witness :
  exists st' frame,
    ccd_data_layer_process_readout st_fresh (Some dark_samples) (Some blank_frame)
      = (CCD_FRAME_OK, st', Some frame)
    /\ ccd_data_layer_validate_frame (Some frame) = CCD_FRAME_OK
    /\ ccd_data_layer_validate_frame (Some (frame_of_bytes (frame_bytes frame)))
       = CCD_FRAME_OK.
Proof.
  apply (C1_build_then_validate st_fresh dark_samples blank_frame).
  - reflexivity.
  - vm_compute. split; [discriminate | reflexivity].
  - apply dark_samples_typed.
  - apply dark_samples_typed.
Defined.

(** C2, as the code has it.  Take a frame built from 3694 samples and
    replace the byte at one position of its memory image by a different
    value.  The validator then answers [CCD_FRAME_ERROR_INVALID_DATA] when
    the position lies in one of the two markers, and it answers so whatever
    the checksum field holds; [CCD_FRAME_ERROR_SIZE] when the position lies
    in the pixel-count field; and [CCD_FRAME_ERROR_CHECKSUM] at every other
    position (frame counter, pixel data, checksum field). *)
Theorem C2_single_byte_corruption (st st' : data_layer_t) (adc : list Z)
    (old frame : CCD_Frame_t) (i v : Z) :
  ccd_data_layer_process_readout st (Some adc) (Some old)
    = (CCD_FRAME_OK, st', Some frame) ->
  (Z.to_nat CCD_PIXEL_COUNT <= length adc)%nat ->
  Forall is_uint16 adc -> is_uint16 (st_frame_counter st) ->
  0 <= i < FRAME_TOTAL_SIZE -> is_uint8 v ->
  frame_bytes frame !! Z.to_nat i <> Some v ->
  let received := frame_of_bytes (<[Z.to_nat i := v]> (frame_bytes frame)) in
  ccd_data_layer_validate_frame (Some received)
  = (if in_marker i then CCD_FRAME_ERROR_INVALID_DATA
     else if in_pixel_count i then CCD_FRAME_ERROR_SIZE
     else CCD_FRAME_ERROR_CHECKSUM)
  /\ (in_marker i = true ->
      forall ck, ccd_data_layer_validate_frame (Some (set_checksum received ck))
                 = CCD_FRAME_ERROR_INVALID_DATA).
Proof.
  intros H Hlen Hadc Hc Hi Hv Hne received.
  pose proof (built_frame_shape _ _ _ _ _ H Hlen) as Hshape.
  pose proof (built_frame_typed _ _ _ _ _ H Hlen Hadc Hc) as Htyped.
  destruct (process_readout_fields _ _ _ _ _ H)
    as (_ & _ & _ & Hs & He & _ & _ & _).
  assert (Hbytes : Forall is_uint8 (frame_bytes frame)).
  { apply frame_bytes_uint8; rewrite ?Hs, ?He;
      repeat constructor; unfold is_uint8; lia. }
  assert (Hsize : length (frame_bytes frame) = Z.to_nat FRAME_TOTAL_SIZE)
    by apply frame_bytes_length, Hshape.
  assert (Hok : validate_bytes (frame_bytes frame) = CCD_FRAME_OK).
  { rewrite <- validate_frame_of_bytes by assumption.
    rewrite frame_of_bytes_of_frame by exact Htyped.
    apply (built_frame_valid _ _ _ _ _ H Hlen). }
  assert (Hverdict :
    ccd_data_layer_validate_frame (Some received)
    = (if in_marker i then CCD_FRAME_ERROR_INVALID_DATA
       else if in_pixel_count i then CCD_FRAME_ERROR_SIZE
       else CCD_FRAME_ERROR_CHECKSUM)).
  { unfold received. rewrite validate_frame_of_bytes.
    - apply validate_bytes_corrupted; assumption.
    - rewrite length_insert. exact Hsize.
    - apply Forall_insert; assumption. }
  split; [exact Hverdict |].
  intros Hm ck. apply validate_invalid_any_checksum.
  rewrite Hverdict, Hm. reflexivity.
Qed.

(** C2, as the specification has it, fails at the low byte of the
    pixel-count field (position 6, which holds 0x6E): with that byte
    complemented the validator answers [CCD_FRAME_ERROR_SIZE], not
    [CCD_FRAME_ERROR_CHECKSUM]. *)
Lemma C2_pixel_count_byte_counterexample :
  ccd_data_layer_process_readout st_fresh (Some dark_samples) (Some blank_frame)
  = (CCD_FRAME_OK, {| st_frame_counter := 1; st_initialized := true |},
     Some dark_frame)
  /\ in_marker 6 = false
  /\ frame_bytes dark_frame !! 6%nat = Some 0x6E
  /\ ccd_data_layer_validate_frame
       (Some (frame_of_bytes (<[6%nat := 0x91]> (frame_bytes dark_frame))))
     = CCD_FRAME_ERROR_SIZE
  /\ ccd_data_layer_validate_frame
       (Some (frame_of_bytes (<[6%nat := 0x91]> (frame_bytes dark_frame))))
     <> CCD_FRAME_ERROR_CHECKSUM.
Proof.
  split; [reflexivity |]. split; [reflexivity |]. split; [reflexivity |].
  assert (H : ccd_data_layer_validate_frame
       (Some (frame_of_bytes (<[6%nat := 0x91]> (frame_bytes dark_frame))))
     = CCD_FRAME_ERROR_SIZE) by (vm_compute; reflexivity).
  split; [exact H |]. rewrite H. discriminate.
Qed.

Lemma C2_witness :
  ccd_data_layer_validate_frame
    (Some (frame_of_bytes (<[Z.to_nat 100 := 255]> (frame_bytes dark_frame))))
  = CCD_FRAME_ERROR_CHECKSUM
  /\ ccd_data_layer_validate_frame
       (Some (frame_of_bytes (<[Z.to_nat 2 := 255]> (frame_bytes dark_frame))))
     = CCD_FRAME_ERROR_INVALID_DATA.
Proof.
  split.
  - refine (proj1 (C2_single_byte_corruption st_fresh _ dark_samples blank_frame
                     dark_frame 100 255 dark_frame_built
                     (proj1 dark_samples_typed) (proj2 dark_samples_typed)
                     _ _ _ _)).
    + vm_compute. split; [discriminate | reflexivity].
    + vm_compute. split; [discriminate | reflexivity].
    + vm_compute. split; [discriminate | reflexivity].
    + vm_compute. discriminate.
  - refine (proj1 (C2_single_byte_corruption st_fresh _ dark_samples blank_frame
                     dark_frame 2 255 dark_frame_built
                     (proj1 dark_samples_typed) (proj2 dark_samples_typed)
                     _ _ _ _)).
    + vm_compute. split; [discriminate | reflexivity].
    + vm_compute. split; [discriminate | reflexivity].
    + vm_compute. split; [discriminate | reflexivity].
    + vm_compute. discriminate.
Defined.

(** C3.  The checksum field of a built frame is the table-driven CRC of
    the first 7400 bytes of the frame; every entry of the table is the
    remainder polynomial 0x1021 leaves for its index; and the checksum is
    the CRC-16-CCITT of those bytes computed one bit at a time. *)
Theorem C3_checksum_is_crc16_ccitt (st st' : data_layer_t) (adc : list Z)
    (old frame : CCD_Frame_t) :
  ccd_data_layer_process_readout st (Some adc) (Some old)
    = (CCD_FRAME_OK, st', Some frame) ->
  (Z.to_nat CCD_PIXEL_COUNT <= length adc)%nat ->
  let covered := take (Z.to_nat (FRAME_TOTAL_SIZE - 2)) (frame_bytes frame) in
  Z.of_nat (length covered) = 7400
  /\ frame_bytes frame = covered ++ le16 (checksum frame)
  /\ checksum frame = ccd_data_layer_calculate_crc16 covered
  /\ ccd_data_layer_calculate_crc16 covered
     = fold_left
         (fun crc byte =>
            uint16 (Z.lxor (Z.shiftl crc 8)
                      (nth (Z.to_nat (uint8 (Z.lxor (Z.shiftr crc 8) byte)))
                         crc16_table 0)))
         covered 0xFFFF
  /\ (forall i, 0 <= i < 256 ->
        nth (Z.to_nat i) crc16_table 0
        = Nat.iter 8 crc16_shift (Z.shiftl i 8))
  /\ checksum frame = crc16_ccitt_bitwise covered.
Proof.
  intros H Hlen covered.
  destruct (process_readout_fields _ _ _ _ _ H)
    as (_ & _ & _ & Hs & He & _ & _ & _).
  pose proof (built_frame_checksum _ _ _ _ _ H Hlen) as Hk.
  pose proof (built_frame_shape _ _ _ _ _ H Hlen) as Hshape.
  assert (Hcov : covered = frame_prefix frame)
    by apply (frame_checksummed_bytes frame Hshape).
  split; [| split; [| split; [| split; [| split]]]].
  - rewrite Hcov, frame_prefix_length by exact Hshape. frame_sizes. lia.
  - rewrite Hcov. apply frame_bytes_prefix.
  - exact Hk.
  - reflexivity.
  - intros i Hi. rewrite Z.shiftl_mul_pow2 by lia.
    apply crc16_table_entries. exact Hi.
  - rewrite Hk. apply crc16_table_driven_is_bitwise.
    apply Forall_take, frame_bytes_uint8; rewrite ?Hs, ?He;
      repeat constructor; unfold is_uint8; lia.
Qed.

Lemma C3_witness :
  checksum dark_frame = 0x8770
  /\ checksum dark_frame
     = crc16_ccitt_bitwise
         (take (Z.to_nat (FRAME_TOTAL_SIZE - 2)) (frame_bytes dark_frame)).
Proof.
  split; [vm_compute; reflexivity |].
  apply (C3_checksum_is_crc16_ccitt st_fresh _ dark_samples blank_frame dark_frame
           dark_frame_built (proj1 dark_samples_typed)).
Defined.

(** ** Byte channel *)

(** C4.  In every state reached from [ring_buffer_init] (with a size of
    at least one slot) by any sequence of write, read, peek, write_multiple,
    read_multiple and clear, the free space and the number of bytes
    available add up to the size less one, and each of them lies between 0
    and the size less one. *)
Theorem C4_free_plus_available (storage : list Z) (sz : Z)
    (ops : list RingBuffer.rb_op) :
  0 < sz < 2 ^ 16 ->
  let rb := RingBuffer.rb_run (RingBuffer.ring_buffer_init storage sz) ops in
  RingBuffer.size rb = sz
  /\ RingBuffer.ring_buffer_free_space rb + RingBuffer.ring_buffer_available rb
     = sz - 1
  /\ 0 <= RingBuffer.ring_buffer_available rb <= sz - 1
  /\ 0 <= RingBuffer.ring_buffer_free_space rb <= sz - 1.
Proof.
  intros Hsz rb.
  destruct (RingFacts.rb_inv_run ops _ (RingFacts.rb_inv_init storage sz Hsz))
    as [Hinv Hsize].
  fold rb in Hinv, Hsize. cbn [RingBuffer.size RingBuffer.ring_buffer_init] in Hsize.
  pose proof (RingFacts.available_value rb Hinv) as [_ Ha].
  pose proof (RingFacts.free_space_value rb Hinv) as Hf.
  rewrite Hsize in *. lia.
Qed.

Lemma C4_witness :
  let rb :=
    rb_run (ring_buffer_init (repeat 0 4) 4)
      [OpWrite 1; OpWrite 2; OpWrite 3; OpWrite 4; OpRead; OpPeek;
       OpWriteMultiple [5; 6; 7]; OpReadMultiple 2; OpClear; OpWrite 9] in
  size rb = 4
  /\ ring_buffer_free_space rb + ring_buffer_available rb = 4 - 1
  /\ 0 <= ring_buffer_available rb <= 4 - 1
  /\ 0 <= ring_buffer_free_space rb <= 4 - 1.
Proof.
  apply (C4_free_plus_available (repeat 0 4) 4). lia.
Defined.

(** C5.  Into an empty buffer of [N] slots, [K <= N - 1] bytes written one
    [ring_buffer_write] at a time all go in; [K] calls of
    [ring_buffer_read] then return the same bytes in the same order, and
    leave [ring_buffer_available] at 0 and [ring_buffer_free_space] at
    [N - 1].  The bulk calls [ring_buffer_write_multiple] and
    [ring_buffer_read_multiple] do the same in one call each. *)
Theorem C5_write_then_read (rb : RingBuffer.ring_buffer_t) (data : list Z) :
  RingBuffer.rb_wf rb ->
  RingBuffer.head rb = RingBuffer.tail rb ->
  Z.of_nat (length data) <= RingBuffer.size rb - 1 ->
  (exists rb1 rb2,
     RingBuffer.write_each rb data = (repeat true (length data), rb1)
     /\ RingBuffer.read_each (length data) rb1 = (map Some data, rb2)
     /\ RingBuffer.ring_buffer_available rb2 = 0
     /\ RingBuffer.ring_buffer_free_space rb2 = RingBuffer.size rb - 1)
  /\ (exists rb1 rb2,
        RingBuffer.ring_buffer_write_multiple rb data
          = (Z.of_nat (length data), rb1)
        /\ RingBuffer.ring_buffer_read_multiple rb1 (Z.of_nat (length data))
           = (Z.of_nat (length data), data, rb2)
        /\ RingBuffer.ring_buffer_available rb2 = 0
        /\ RingBuffer.ring_buffer_free_space rb2 = RingBuffer.size rb - 1).
Proof.
  intros Hwf Hempty HK.
  pose proof (RingQueue.rb_wf_inv rb Hwf) as Hinv.
  destruct (RingQueue.empty_contents rb Hinv Hempty) as [Ha Hc].
  assert (Hsz : RingBuffer.size rb < 2 ^ 16)
    by (destruct Hwf as ((_ & ?) & _); assumption).
  assert (Hdone : forall rb2,
            RingBuffer.rb_wf rb2 -> RingBuffer.size rb2 = RingBuffer.size rb ->
            RingBuffer.ring_contents rb2 = [] ->
            RingBuffer.ring_buffer_available rb2 = 0
            /\ RingBuffer.ring_buffer_free_space rb2 = RingBuffer.size rb - 1).
  { intros rb2 Hwf2 Hs2 Hc2.
    pose proof (RingQueue.rb_wf_inv rb2 Hwf2) as Hinv2.
    pose proof (RingQueue.contents_length rb2 Hinv2) as Hl.
    rewrite Hc2 in Hl. cbn [length] in Hl.
    rewrite (RingFacts.free_space_value rb2 Hinv2). lia. }
  split.
  - destruct (RingQueue.write_each_appends data rb Hwf)
      as (rb1 & Hw & Hwf1 & Hs1 & _ & Hc1); [lia |].
    rewrite Hc in Hc1. cbn [app] in Hc1. rewrite <- (app_nil_r data) in Hc1.
    destruct (RingQueue.read_each_takes data [] rb1 Hwf1 Hc1)
      as (rb2 & Hr & Hwf2 & Hs2 & Hc2).
    exists rb1, rb2. split; [exact Hw |]. split; [exact Hr |].
    apply Hdone; [exact Hwf2 | congruence | exact Hc2].
  - destruct (RingQueue.write_loop_appends data rb 0 Hwf)
      as (rb1 & Hw & Hwf1 & Hs1 & _ & Hc1); try lia.
    rewrite Hc in Hc1. cbn [app] in Hc1. rewrite <- (app_nil_r data) in Hc1.
    destruct (RingQueue.read_loop_takes data [] [] rb1 0 Hwf1 Hc1)
      as (rb2 & Hr & Hwf2 & Hs2 & Hc2); try lia.
    exists rb1, rb2.
    unfold RingBuffer.ring_buffer_write_multiple,
      RingBuffer.ring_buffer_read_multiple.
    rewrite Nat2Z.id. split; [exact Hw |]. split; [exact Hr |].
    apply Hdone; [exact Hwf2 | congruence | exact Hc2].
Qed.

Lemma C5_witness :
  let rb := {| buffer := repeat 0 8; head := 6; tail := 6; size := 8 |} in
  let data := [11; 12; 13; 14; 15; 16; 17] in
  (exists rb1 rb2,
     write_each rb data = (repeat true 7, rb1)
     /\ read_each 7 rb1 = (map Some data, rb2)
     /\ ring_buffer_available rb2 = 0
     /\ ring_buffer_free_space rb2 = 8 - 1)
  /\ (exists rb1 rb2,
        ring_buffer_write_multiple rb data = (7, rb1)
        /\ ring_buffer_read_multiple rb1 7 = (7, data, rb2)
        /\ ring_buffer_available rb2 = 0
        /\ ring_buffer_free_space rb2 = 8 - 1).
Proof.
  apply (C5_write_then_read
           {| buffer := repeat 0 8; head := 6; tail := 6; size := 8 |}
           [11; 12; 13; 14; 15; 16; 17]).
  - unfold rb_wf. cbn. lia.
  - reflexivity.
  - cbn. lia.
Defined.

(** ** Command engine *)

(** C6 at SET_INT_TIME.  One SET_INT_TIME command line makes the layer
    write two reply lines: the handler sends its own reply and the
    dispatcher then sends another for the status the handler returned.
    From the state after start-up, SET_INT_TIME:500 is answered by
    OK:INT_TIME_SET:500 and OK:INT_TIME_SET; while running it is answered by
    ERROR:MUST_STOP_FIRST and ERROR:INVALID_PARAM. *)
Lemma C6_set_int_time_replies_twice :
  replies (receive booted (cline "SET_INT_TIME:500"))
  = replies booted ++ cline "OK:INT_TIME_SET:500" ++ cline "OK:INT_TIME_SET"
  /\ replies (receive running (cline "SET_INT_TIME:500"))
     = replies running ++ cline "ERROR:MUST_STOP_FIRST"
         ++ cline "ERROR:INVALID_PARAM"
  /\ count_lines (replies (receive booted (cline "SET_INT_TIME:500")))
     = (count_lines (replies booted) + 2)%nat.
Proof. vm_compute. repeat split; reflexivity. Qed.

(** The other commands are answered by one line each. *)
Lemma one_reply_commands :
  replies (receive booted (cline "START")) = replies booted ++ cline "OK:STARTED"
  /\ replies (receive booted (cline "STOP")) = replies booted ++ cline "OK:STOPPED"
  /\ replies (receive booted (cline "STATUS"))
     = replies booted ++ cline "STATUS:IDLE,INT_TIME:20"
  /\ replies (receive running (cline "STATUS"))
     = replies running ++ cline "STATUS:RUNNING,INT_TIME:20"
  /\ replies (receive booted (cline "FOO"))
     = replies booted ++ cline "ERROR:UNKNOWN_CMD:FOO".
Proof. vm_compute. repeat split; reflexivity. Qed.

(** An unknown command of 45 characters or more is answered by 63
    characters with no newline at the end: [response] holds 64. *)
Lemma long_unknown_reply_unterminated :
  replies (receive booted (repeat 88 45 ++ [LF]))
  = replies booted ++ cstr "ERROR:UNKNOWN_CMD:" ++ repeat 88 45
  /\ count_lines (replies (receive booted (repeat 88 45 ++ [LF])))
     = count_lines (replies booted).
Proof. vm_compute. split; reflexivity. Qed.

(** C7.  While the acquisition state is [ACQ_STATE_RUNNING] the handler of
    SET_INT_TIME returns [CMD_ERROR_BUSY] whatever the argument, hands the
    line ERROR:MUST_STOP_FIRST to the transport (which queues it whole when
    the transmit buffer has room for its 22 bytes), and leaves the
    acquisition state, the stored integration time and the timer as they
    were; so does the whole dispatch of a SET_INT_TIME command line. *)
Theorem C7_set_int_time_while_running (s : command_layer_t) (microseconds : Z) :
  acquisition_state s = ACQ_STATE_RUNNING ->
  fst (command_handle_set_integration_time s microseconds) = CMD_ERROR_BUSY
  /\ snd (command_handle_set_integration_time s microseconds)
     = send_response s (cline "ERROR:MUST_STOP_FIRST")
  /\ acquisition_state (snd (command_handle_set_integration_time s microseconds))
     = ACQ_STATE_RUNNING
  /\ integration_time_us (snd (command_handle_set_integration_time s microseconds))
     = integration_time_us s
  /\ htim5 (snd (command_handle_set_integration_time s microseconds)) = htim5 s
  /\ (rb_wf (tx_ring_buffer (usb s)) ->
      22 <= ring_buffer_free_space (tx_ring_buffer (usb s)) ->
      replies (snd (command_handle_set_integration_time s microseconds))
      = replies s ++ cline "ERROR:MUST_STOP_FIRST")
  /\ (forall arg,
        let s' := parse_and_execute_command s (cstr "SET_INT_TIME:" ++ arg) in
        acquisition_state s' = ACQ_STATE_RUNNING
        /\ integration_time_us s' = integration_time_us s
        /\ htim5 s' = htim5 s).
Proof.
  intros Hrun.
  assert (Hacq : command_layer_is_acquiring s = true)
    by (unfold command_layer_is_acquiring; rewrite Hrun; reflexivity).
  assert (Hh : command_handle_set_integration_time s microseconds
               = (CMD_ERROR_BUSY, send_response s (cline "ERROR:MUST_STOP_FIRST"))).
  { unfold command_handle_set_integration_time. rewrite Hacq. reflexivity. }
  rewrite Hh. cbn [fst snd].
  split; [reflexivity |]. split; [reflexivity |].
  split; [exact Hrun |]. split; [reflexivity |]. split; [reflexivity |].
  split.
  - intros Hwf Hroom. apply CommandFacts.send_response_queued; [exact Hwf |].
    change (Z.of_nat (length (cline "ERROR:MUST_STOP_FIRST"))) with 22. exact Hroom.
  - intros arg. cbv zeta. rewrite CommandFacts.dispatch_set_int_time.
    unfold command_handle_set_integration_time. rewrite Hacq.
    split; [exact Hrun |]. split; reflexivity.
Qed.

Lemma C7_witness :
  acquisition_state running = ACQ_STATE_RUNNING
  /\ fst (command_handle_set_integration_time running 500) = CMD_ERROR_BUSY
  /\ integration_time_us (snd (command_handle_set_integration_time running 500)) = 20
  /\ replies (snd (command_handle_set_integration_time running 500))
     = replies running ++ cline "ERROR:MUST_STOP_FIRST".
Proof.
  assert (Hrun : acquisition_state running = ACQ_STATE_RUNNING)
    by (vm_compute; reflexivity).
  destruct (C7_set_int_time_while_running running 500 Hrun)
    as (Hs & _ & _ & Ht & _ & Hq & _).
  split; [exact Hrun |]. split; [exact Hs |]. split; [exact Ht |].
  apply Hq.
  - vm_compute. repeat split; reflexivity || discriminate.
  - vm_compute. discriminate.
Defined.

(** C8 at a line of 69 characters.  64 characters X followed by START and
    a newline: the 64th character resets the line buffer and draws
    ERROR:CMD_TOO_LONG, and the rest of the same line, START, is then
    dispatched as a command of its own and switches acquisition on. *)
Lemma C8_oversized_tail_is_dispatched :
  acquisition_state booted = ACQ_STATE_IDLE
  /\ replies (receive booted (repeat 88 64 ++ cline "START"))
     = replies booted ++ cline "ERROR:CMD_TOO_LONG" ++ cline "OK:STARTED"
  /\ acquisition_state (receive booted (repeat 88 64 ++ cline "START"))
     = ACQ_STATE_RUNNING.
Proof. vm_compute. repeat split; reflexivity. Qed.

(** ** Frame counter *)

(** C9.  Two consecutive invocations stamp counters that differ by one
    modulo 65536, and every successful invocation advances the stored
    counter by one modulo 65536.  The function reads and writes the state of
    the data layer only; the acquisition gate of the command layer is not
    among its inputs. *)
Theorem C9_counter_increments (st : data_layer_t) (adc1 adc2 : list Z)
    (old1 old2 : CCD_Frame_t) :
  st_initialized st = true ->
  exists st1 frame1 st2 frame2,
    ccd_data_layer_process_readout st (Some adc1) (Some old1)
      = (CCD_FRAME_OK, st1, Some frame1)
    /\ ccd_data_layer_process_readout st1 (Some adc2) (Some old2)
       = (CCD_FRAME_OK, st2, Some frame2)
    /\ frame_counter frame2 = (frame_counter frame1 + 1) mod 65536
    /\ ccd_data_layer_get_frame_count st1
       = (ccd_data_layer_get_frame_count st + 1) mod 65536
    /\ ccd_data_layer_get_frame_count st2
       = (ccd_data_layer_get_frame_count st1 + 1) mod 65536.
Proof.
  intros Hinit.
  destruct (process_readout_runs st adc1 old1 Hinit) as (st1 & f1 & H1).
  destruct (process_readout_fields _ _ _ _ _ H1)
    as (_ & Hc1 & Hinit1 & _ & _ & Hf1 & _).
  destruct (process_readout_runs st1 adc2 old2 Hinit1) as (st2 & f2 & H2).
  destruct (process_readout_fields _ _ _ _ _ H2)
    as (_ & Hc2 & _ & _ & _ & Hf2 & _).
  exists st1, f1, st2, f2.
  unfold ccd_data_layer_get_frame_count.
  rewrite Hf2, Hf1, Hc2, Hc1. unfold uint16.
  repeat split; assumption || reflexivity.
Qed.

Lemma C9_witness :
  exists st1 frame1 st2 frame2,
    ccd_data_layer_process_readout
      {| st_frame_counter := 65535; st_initialized := true |}
      (Some dark_samples) (Some blank_frame)
      = (CCD_FRAME_OK, st1, Some frame1)
    /\ ccd_data_layer_process_readout st1 (Some dark_samples) (Some blank_frame)
       = (CCD_FRAME_OK, st2, Some frame2)
    /\ frame_counter frame2 = (frame_counter frame1 + 1) mod 65536
    /\ ccd_data_layer_get_frame_count st1 = (65535 + 1) mod 65536
    /\ ccd_data_layer_get_frame_count st2
       = (ccd_data_layer_get_frame_count st1 + 1) mod 65536.
Proof.
  apply (C9_counter_increments
           {| st_frame_counter := 65535; st_initialized := true |}
           dark_samples dark_samples blank_frame blank_frame).
  reflexivity.
Defined.

(** C10.  An invocation that returns an error leaves the frame counter,
    and all the state of the layer, as it was; an invocation that returns
    [CCD_FRAME_OK] advances the counter. *)
Theorem C10_error_keeps_counter (st st' : data_layer_t)
    (adc_buffer : option (list Z)) (frame_out frame_out' : option CCD_Frame_t)
    (status : CCD_Frame_Status_t) :
  ccd_data_layer_process_readout st adc_buffer frame_out
    = (status, st', frame_out') ->
  (status <> CCD_FRAME_OK ->
     ccd_data_layer_get_frame_count st' = ccd_data_layer_get_frame_count st
     /\ st' = st /\ frame_out' = frame_out
     /\ (st_initialized st = false \/ adc_buffer = None \/ frame_out = None))
  /\ (status = CCD_FRAME_OK ->
        ccd_data_layer_get_frame_count st'
        = uint16 (ccd_data_layer_get_frame_count st + 1)).
Proof.
  unfold ccd_data_layer_process_readout, ccd_data_layer_get_frame_count.
  intros H.
  destruct (st_initialized st); cbn [negb] in H;
    [destruct adc_buffer as [adc |], frame_out as [old |] |];
    cbv zeta in H;
    apply pair_equal_spec in H; destruct H as [H Hf];
    apply pair_equal_spec in H; destruct H as [Hs Hst];
    subst status st' frame_out'; cbn [st_frame_counter];
    (split; [intros Hne | intros Heq]);
    try congruence; try reflexivity; auto 6.
Qed.

Lemma C10_witness :
  let st := {| st_frame_counter := 41; st_initialized := true |} in
  ccd_data_layer_process_readout st None (Some blank_frame)
    = (CCD_FRAME_ERROR_INVALID_DATA, st, Some blank_frame)
  /\ ccd_data_layer_get_frame_count st = ccd_data_layer_get_frame_count st
  /\ st = st /\ Some blank_frame = Some blank_frame
  /\ (st_initialized st = false \/ (None : option (list Z)) = None
      \/ Some blank_frame = None).
Proof.
  split; [reflexivity |].
  apply (proj1 (C10_error_keeps_counter
                  {| st_frame_counter := 41; st_initialized := true |}
                  {| st_frame_counter := 41; st_initialized := true |}
                  None (Some blank_frame) (Some blank_frame)
                  CCD_FRAME_ERROR_INVALID_DATA eq_refl)).
  discriminate.
Defined.

(** * Further properties *)

(** ** Lemmas *)

Module RingEdges.
Import RingBuffer RingFacts RingQueue QueueModel.

Lemma full_iff (rb : ring_buffer_t) :
  rb_inv rb ->
  (ring_buffer_is_full rb = true <-> ring_buffer_available rb = size rb - 1).
Proof.
  intros Hrb. unfold ring_buffer_is_full.
  destruct Hrb as (Hsz & Hh & Ht).
  destruct (next_index (size rb) (head rb) Hsz Hh) as [Hu _]. rewrite Hu.
  rewrite Z.eqb_eq.
  destruct (available_cases rb (conj Hsz (conj Hh Ht))) as [[? Ha] | [? Ha]];
    destruct (mod_wrap (head rb + 1) (size rb)); lia.
Qed.

Lemma empty_iff (rb : ring_buffer_t) :
  rb_inv rb ->
  (ring_buffer_is_empty rb = true <-> ring_buffer_available rb = 0).
Proof.
  intros Hrb. unfold ring_buffer_is_empty. rewrite Z.eqb_eq.
  destruct (available_cases rb Hrb) as [[? Ha] | [? Ha]];
    destruct Hrb as (Hsz & Hh & Ht); lia.
Qed.

Lemma write_full (rb : ring_buffer_t) (d : Z) :
  rb_inv rb -> ring_buffer_available rb = size rb - 1 ->
  ring_buffer_write rb d = (false, rb).
Proof.
  intros Hrb Hfull. apply (full_iff rb Hrb) in Hfull.
  unfold ring_buffer_is_full in Hfull. unfold ring_buffer_write.
  rewrite Hfull. reflexivity.
Qed.

Lemma read_empty (rb : ring_buffer_t) :
  rb_inv rb -> ring_buffer_available rb = 0 ->
  ring_buffer_read rb = (None, rb) /\ ring_buffer_peek rb = None.
Proof.
  intros Hrb Hempty. apply (empty_iff rb Hrb) in Hempty.
  unfold ring_buffer_is_empty in Hempty.
  unfold ring_buffer_read, ring_buffer_peek. rewrite Hempty. auto.
Qed.

Lemma peek_is_oldest (rb : ring_buffer_t) :
  ring_buffer_peek rb = fst (ring_buffer_read rb).
Proof.
  unfold ring_buffer_peek, ring_buffer_read.
  destruct (head rb =? tail rb); reflexivity.
Qed.

(** The bulk write, whatever the running count: as many bytes as there is
    room for go in, in order. *)
Lemma write_loop_room (data : list Z) (rb : ring_buffer_t) (written : Z) :
  rb_wf rb -> 0 <= written ->
  written + (size rb - 1 - ring_buffer_available rb) < 2 ^ 16 ->
  exists rb',
    write_loop rb data written
    = (written + Z.min (Z.of_nat (length data))
                   (size rb - 1 - ring_buffer_available rb), rb')
    /\ rb_wf rb' /\ size rb' = size rb
    /\ ring_contents rb'
       = ring_contents rb
           ++ take (Z.to_nat (size rb - 1 - ring_buffer_available rb)) data.
Proof.
  revert rb written. induction data as [| d rest IH]; intros rb written Hwf H0 Hlt.
  - exists rb. cbn [write_loop length].
    destruct (available_value rb (rb_wf_inv rb Hwf)) as [_ Ha].
    rewrite take_nil, app_nil_r.
    split; [f_equal; lia | auto].
  - cbn [write_loop].
    destruct (available_value rb (rb_wf_inv rb Hwf)) as [_ Ha].
    destruct (Z.eq_dec (ring_buffer_available rb) (size rb - 1)) as [Hfull | Hroom].
    + rewrite (write_full rb d (rb_wf_inv rb Hwf) Hfull).
      exists rb. replace (size rb - 1 - ring_buffer_available rb) with 0 by lia.
      cbn [Z.to_nat take]. rewrite app_nil_r.
      split; [f_equal; lia | auto].
    + destruct (write_appends rb d Hwf) as (rb1 & Hw & Hwf1 & Hs1 & Ha1 & Hc1);
        [lia |].
      rewrite Hw.
      destruct (IH rb1 (uint16 (written + 1)) Hwf1)
        as (rb2 & Hw2 & Hwf2 & Hs2 & Hc2);
        rewrite ?uint16_id by lia; try lia.
      exists rb2. rewrite uint16_id in Hw2 by lia. rewrite Hw2.
      split; [f_equal; cbn [length]; lia |].
      split; [exact Hwf2 |]. split; [congruence |].
      rewrite Hc2, Hc1, <- app_assoc, Hs1, Ha1. cbn [app].
      replace (Z.to_nat (size rb - 1 - ring_buffer_available rb))
        with (S (Z.to_nat (size rb - 1 - (ring_buffer_available rb + 1)))) by lia.
      reflexivity.
Qed.

(** The bulk read: as many bytes as are waiting, up to [n], oldest first. *)
Lemma read_loop_some (n : nat) (rb : ring_buffer_t) (out : list Z) (c : Z) :
  rb_wf rb -> 0 <= c -> c + ring_buffer_available rb < 2 ^ 16 ->
  exists rb',
    read_loop n rb out c
    = (c + Z.min (Z.of_nat n) (ring_buffer_available rb),
       out ++ take n (ring_contents rb), rb')
    /\ rb_wf rb' /\ size rb' = size rb
    /\ ring_contents rb' = drop n (ring_contents rb).
Proof.
  revert rb out c. induction n as [| n IH]; intros rb out c Hwf H0 Hlt.
  - exists rb. cbn [read_loop take drop].
    destruct (available_value rb (rb_wf_inv rb Hwf)) as [_ Ha].
    rewrite app_nil_r. split; [do 2 f_equal; lia | auto].
  - cbn [read_loop].
    destruct (available_value rb (rb_wf_inv rb Hwf)) as [_ Ha].
    destruct (Z.eq_dec (ring_buffer_available rb) 0) as [Hempty | Hsome].
    + destruct (read_empty rb (rb_wf_inv rb Hwf) Hempty) as [Hr _]. rewrite Hr.
      exists rb.
      assert (Hc : ring_contents rb = [])
        by (unfold ring_contents; rewrite Hempty; reflexivity).
      rewrite Hc, take_nil, drop_nil, app_nil_r.
      split; [do 2 f_equal; lia | auto].
    + destruct (read_takes rb Hwf) as (x & rb1 & Hr & Hwf1 & Hs1 & Ha1 & Hc1);
        [lia |].
      rewrite Hr.
      destruct (IH rb1 (out ++ [x]) (uint16 (c + 1)) Hwf1)
        as (rb2 & Hr2 & Hwf2 & Hs2 & Hc2);
        rewrite ?uint16_id by lia; try lia.
      exists rb2. rewrite uint16_id in Hr2 by lia. rewrite Hr2, Hc1.
      cbn [take drop]. rewrite <- app_assoc. cbn [app].
      split; [do 2 f_equal; lia |].
      split; [exact Hwf2 |]. split; [congruence | exact Hc2].
Qed.

Lemma clear_wf (rb : ring_buffer_t) :
  rb_wf rb ->
  rb_wf (ring_buffer_clear rb) /\ ring_contents (ring_buffer_clear rb) = [].
Proof.
  intros (Hsz & Hh & Ht & Hlen).
  split; [unfold rb_wf, ring_buffer_clear; cbn [size head tail buffer]; lia |].
  reflexivity.
Qed.

(** One operation against the queue. *)
Lemma apply_refines (rb : ring_buffer_t) (op : rb_op) :
  rb_wf rb ->
  rb_wf (rb_apply rb op) /\ size (rb_apply rb op) = size rb
  /\ ring_contents (rb_apply rb op)
     = q_apply (Z.to_nat (size rb - 1)) (ring_contents rb) op.
Proof.
  intros Hwf. pose proof (rb_wf_inv rb Hwf) as Hinv.
  destruct (available_value rb Hinv) as [_ Ha].
  pose proof (contents_length rb Hinv) as Hlen.
  assert (Hsz : size rb < 2 ^ 16) by (destruct Hinv as ((_ & ?) & _); assumption).
  destruct op as [d | | | data | n |]; cbn [rb_apply q_apply].
  - destruct (Nat.ltb_spec (length (ring_contents rb)) (Z.to_nat (size rb - 1)))
      as [Hroom | Hfull].
    + destruct (write_appends rb d Hwf) as (rb1 & Hw & Hwf1 & Hs1 & _ & Hc1);
        [lia |].
      rewrite Hw. cbn [snd]. auto.
    + rewrite (write_full rb d Hinv) by lia. cbn [snd]. auto.
  - destruct (Z.eq_dec (ring_buffer_available rb) 0) as [Hempty | Hsome].
    + destruct (read_empty rb Hinv Hempty) as [Hr _]. rewrite Hr. cbn [snd].
      destruct (ring_contents rb); [auto | cbn [length] in Hlen; lia].
    + destruct (read_takes rb Hwf) as (x & rb1 & Hr & Hwf1 & Hs1 & _ & Hc1);
        [lia |].
      rewrite Hr, Hc1. cbn [snd drop]. auto.
  - auto.
  - unfold ring_buffer_write_multiple.
    destruct (write_loop_room data rb 0 Hwf) as (rb1 & Hw & Hwf1 & Hs1 & Hc1);
      try lia.
    rewrite Hw. cbn [snd]. split; [exact Hwf1 |]. split; [exact Hs1 |].
    rewrite Hc1. do 2 f_equal. lia.
  - unfold ring_buffer_read_multiple.
    destruct (read_loop_some (Z.to_nat n) rb [] 0 Hwf) as (rb1 & Hr & Hwf1 & Hs1 & Hc1);
      try lia.
    rewrite Hr. cbn [snd]. auto.
  - destruct (clear_wf rb Hwf) as [Hwf1 Hc1]. auto.
Qed.

End RingEdges.

Module TransportFacts.
Import RingBuffer Transport TransportIO RingFacts RingQueue RingEdges.

(** [ring_buffer_write_multiple] in terms of the free space. *)
Lemma write_multiple_room (rb : ring_buffer_t) (data : list Z) :
  rb_wf rb ->
  exists rb',
    ring_buffer_write_multiple rb data
    = (Z.min (Z.of_nat (length data)) (ring_buffer_free_space rb), rb')
    /\ rb_wf rb' /\ size rb' = size rb
    /\ ring_contents rb'
       = ring_contents rb ++ take (Z.to_nat (ring_buffer_free_space rb)) data.
Proof.
  intros Hwf. pose proof (rb_wf_inv rb Hwf) as Hinv.
  pose proof (free_space_value rb Hinv) as Hfree.
  destruct (available_value rb Hinv) as [_ Ha].
  assert (Hsz : size rb < 2 ^ 16) by (destruct Hinv as ((_ & ?) & _); assumption).
  unfold ring_buffer_write_multiple.
  destruct (write_loop_room data rb 0 Hwf) as (rb1 & Hw & Hwf1 & Hs1 & Hc1);
    try lia.
  exists rb1. rewrite Hw, Hc1, Hfree.
  replace (size rb - ring_buffer_available rb - 1)
    with (size rb - 1 - ring_buffer_available rb) by lia.
  auto.
Qed.

Lemma read_multiple_some (rb : ring_buffer_t) (n : Z) :
  rb_wf rb -> 0 <= n ->
  exists rb',
    ring_buffer_read_multiple rb n
    = (Z.min n (ring_buffer_available rb),
       take (Z.to_nat n) (ring_contents rb), rb')
    /\ rb_wf rb' /\ size rb' = size rb
    /\ ring_contents rb' = drop (Z.to_nat n) (ring_contents rb).
Proof.
  intros Hwf Hn. pose proof (rb_wf_inv rb Hwf) as Hinv.
  destruct (available_value rb Hinv) as [_ Ha].
  assert (Hsz : size rb < 2 ^ 16) by (destruct Hinv as ((_ & ?) & _); assumption).
  unfold ring_buffer_read_multiple.
  destruct (read_loop_some (Z.to_nat n) rb [] 0 Hwf) as (rb1 & Hr & Hwf1 & Hs1 & Hc1);
    try lia.
  exists rb1. rewrite Hr, Z2Nat.id by lia. cbn [app]. auto.
Qed.

End TransportFacts.

Module TransportFlow.
Import RingBuffer Transport TransportIO RingFacts RingQueue RingEdges TransportFacts.

Lemma write_busy (u : usb_transport_t) (data : list Z) :
  tx_in_progress (snd (usb_transport_write u data)) = tx_in_progress u.
Proof.
  unfold usb_transport_write.
  destruct (ring_buffer_write_multiple _ _) as [w tx]. reflexivity.
Qed.

Lemma write_byte_busy (u : usb_transport_t) (d : Z) :
  tx_in_progress (snd (usb_transport_write_byte u d)) = tx_in_progress u.
Proof.
  unfold usb_transport_write_byte.
  destruct (ring_buffer_write _ _) as [ok tx]. reflexivity.
Qed.

Lemma rx_callback_tx (u : usb_transport_t) (data : list Z) :
  tx_in_progress (usb_transport_rx_callback u data) = tx_in_progress u
  /\ tx_ring_buffer (usb_transport_rx_callback u data) = tx_ring_buffer u.
Proof.
  unfold usb_transport_rx_callback. cbv zeta.
  destruct (ring_buffer_write_multiple _ _) as [w rx]. auto.
Qed.

Lemma read_tx (u : usb_transport_t) (n : Z) :
  tx_in_progress (snd (usb_transport_read u n)) = tx_in_progress u
  /\ tx_ring_buffer (snd (usb_transport_read u n)) = tx_ring_buffer u.
Proof.
  unfold usb_transport_read.
  destruct (ring_buffer_read_multiple _ _) as [[c d] rx]. auto.
Qed.

Lemma gated_app (busy : bool) (e1 e2 : list usb_event) :
  gated busy (e1 ++ e2)
  = match gated busy e1 with Some b => gated b e2 | None => None end.
Proof.
  revert busy. induction e1 as [| e e1 IH]; intros busy; cbn [app gated].
  - reflexivity.
  - destruct e as [[pkt ok] |]; [destruct busy; [reflexivity |] |]; apply IH.
Qed.

Lemma flush_gated (u : usb_transport_t) (ok : bool) :
  gated (tx_in_progress u) (event_of (snd (tx_flush u ok)))
  = Some (tx_in_progress (fst (tx_flush u ok))).
Proof.
  unfold tx_flush. destruct (tx_in_progress u) eqn:Hb.
  - cbn. rewrite Hb. reflexivity.
  - cbv zeta. destruct (_ =? 0); [cbn; rewrite Hb; reflexivity |].
    destruct (ring_buffer_read_multiple _ _) as [[c d] tx].
    destruct ok; reflexivity.
Qed.

Lemma apply_gated (u : usb_transport_t) (op : usb_op) :
  gated (tx_in_progress u) (snd (usb_apply u op))
  = Some (tx_in_progress (fst (usb_apply u op))).
Proof.
  destruct op as [data | d | data | n | buffer ok | ok |]; cbn [usb_apply fst snd].
  - cbn [gated]. rewrite write_busy. reflexivity.
  - cbn [gated]. rewrite write_byte_busy. reflexivity.
  - cbn [gated]. rewrite (proj1 (rx_callback_tx u data)). reflexivity.
  - cbn [gated]. rewrite (proj1 (read_tx u n)). reflexivity.
  - unfold usb_transport_send_direct.
    destruct (tx_in_progress u) eqn:Hb; [cbn; rewrite Hb; reflexivity |].
    destruct ok; cbn; rewrite ?Hb; reflexivity.
  - unfold usb_transport_process.
    destruct (tx_in_progress u) eqn:Hb; cbn [negb andb].
    + cbn. rewrite Hb. reflexivity.
    + destruct (ring_buffer_is_empty _); cbn [negb].
      * cbn. rewrite Hb. reflexivity.
      * pose proof (flush_gated u ok) as H. rewrite Hb in H.
        destruct (tx_flush u ok) as [u' c]. exact H.
  - reflexivity.
Qed.

Lemma run_gated (ops : list usb_op) (u : usb_transport_t) :
  gated (tx_in_progress u) (snd (usb_run u ops))
  = Some (tx_in_progress (fst (usb_run u ops))).
Proof.
  revert u. induction ops as [| op ops IH]; intros u; cbn [usb_run].
  - reflexivity.
  - pose proof (apply_gated u op) as H1.
    destruct (usb_apply u op) as [u1 ev1]. cbn [fst snd] in H1.
    pose proof (IH u1) as H2.
    destruct (usb_run u1 ops) as [u2 ev2]. cbn [fst snd] in H2 |- *.
    rewrite gated_app, H1. exact H2.
Qed.

(** A flush on an idle transport with bytes waiting. *)
Lemma flush_chunk (u : usb_transport_t) (ok : bool) :
  rb_wf (tx_ring_buffer u) -> tx_in_progress u = false ->
  ring_contents (tx_ring_buffer u) <> [] ->
  let c := ring_contents (tx_ring_buffer u) in
  exists tx',
    tx_flush u ok = (with_tx u tx' ok, Some (CdcCall (take 64 c) ok))
    /\ rb_wf tx'
    /\ ring_contents tx' = (if ok then drop 64 c else drop 64 c ++ take 64 c).
Proof.
  intros Hwf Hidle Hne. cbv zeta.
  pose proof (rb_wf_inv _ Hwf) as Hinv.
  pose proof (contents_length _ Hinv) as Hl.
  destruct (available_value _ Hinv) as [_ Ha].
  assert (Hav : 0 < ring_buffer_available (tx_ring_buffer u)).
  { destruct (ring_contents (tx_ring_buffer u)); [congruence |].
    cbn [length] in Hl. lia. }
  unfold tx_flush. rewrite Hidle. cbv zeta.
  destruct (Z.eqb_spec (ring_buffer_available (tx_ring_buffer u)) 0) as [Hz | Hnz];
    [lia |].
  set (n := if ring_buffer_available (tx_ring_buffer u) >? 64 then 64
            else ring_buffer_available (tx_ring_buffer u)).
  assert (Hn : 0 < n <= 64 /\ n <= ring_buffer_available (tx_ring_buffer u)
               /\ (n = 64 \/ n = ring_buffer_available (tx_ring_buffer u))).
  { unfold n. destruct (Z.gtb_spec (ring_buffer_available (tx_ring_buffer u)) 64);
      lia. }
  clearbody n. destruct Hn as (Hn1 & Hn2 & Hn3).
  destruct (read_multiple_some (tx_ring_buffer u) n Hwf) as (tx1 & Hr & Hwf1 & Hs1 & Hc1);
    [lia |].
  rewrite Hr.
  assert (Htake : take (Z.to_nat n) (ring_contents (tx_ring_buffer u))
                  = take 64 (ring_contents (tx_ring_buffer u))).
  { destruct Hn3 as [-> | Hn3]; [reflexivity |].
    rewrite !take_ge by lia. reflexivity. }
  assert (Hdrop : drop (Z.to_nat n) (ring_contents (tx_ring_buffer u))
                  = drop 64 (ring_contents (tx_ring_buffer u))).
  { destruct Hn3 as [-> | Hn3]; [reflexivity |].
    rewrite !drop_ge by lia. reflexivity. }
  rewrite Htake. rewrite Hdrop in Hc1.
  destruct ok.
  - exists tx1. auto.
  - destruct (write_multiple_room tx1 (take 64 (ring_contents (tx_ring_buffer u))) Hwf1)
      as (tx2 & Hw & Hwf2 & Hs2 & Hc2).
    exists tx2. rewrite Hw. cbn [snd].
    split; [reflexivity |]. split; [exact Hwf2 |].
    rewrite Hc2, Hc1. f_equal. apply take_ge.
    pose proof (rb_wf_inv _ Hwf1) as Hinv1.
    pose proof (contents_length _ Hinv1) as Hl1.
    rewrite (free_space_value _ Hinv1).
    rewrite Hc1, length_drop in Hl1. rewrite length_take. lia.
Qed.

Lemma accepted_app (e1 e2 : list usb_event) :
  accepted_bytes (e1 ++ e2) = accepted_bytes e1 ++ accepted_bytes e2.
Proof.
  induction e1 as [| e e1 IH]; cbn [app accepted_bytes].
  - reflexivity.
  - destruct e as [[pkt [|]] |]; rewrite IH, ?app_assoc; reflexivity.
Qed.

Lemma write_byte_room (u : usb_transport_t) (d : Z) :
  rb_wf (tx_ring_buffer u) ->
  rb_wf (tx_ring_buffer (snd (usb_transport_write_byte u d)))
  /\ exists taken,
       taken `prefix_of` [d]
       /\ ring_contents (tx_ring_buffer (snd (usb_transport_write_byte u d)))
          = ring_contents (tx_ring_buffer u) ++ taken.
Proof.
  intros Hwf. pose proof (rb_wf_inv _ Hwf) as Hinv.
  destruct (available_value _ Hinv) as [_ Ha].
  unfold usb_transport_write_byte.
  destruct (Z.eq_dec (ring_buffer_available (tx_ring_buffer u))
              (size (tx_ring_buffer u) - 1)) as [Hfull | Hroom].
  - rewrite (write_full _ d Hinv Hfull). cbn [snd tx_ring_buffer].
    split; [exact Hwf |]. exists []. rewrite app_nil_r.
    split; [apply prefix_nil | reflexivity].
  - destruct (write_appends _ d Hwf) as (tx1 & Hw & Hwf1 & _ & _ & Hc1); [lia |].
    rewrite Hw. cbn [snd tx_ring_buffer].
    split; [exact Hwf1 |]. exists [d]. split; [reflexivity | exact Hc1].
Qed.

(** One call of the buffered path: what leaves plus what waits is what
    waited plus a prefix of what was offered. *)
Lemma apply_buffered (u : usb_transport_t) (op : usb_op) :
  rb_wf (tx_ring_buffer u) -> buffered op = true ->
  rb_wf (tx_ring_buffer (fst (usb_apply u op)))
  /\ exists taken,
       Forall2 prefix taken (offered [op])
       /\ accepted_bytes (snd (usb_apply u op))
            ++ ring_contents (tx_ring_buffer (fst (usb_apply u op)))
          = ring_contents (tx_ring_buffer u) ++ concat taken.
Proof.
  intros Hwf Hb.
  destruct op as [data | d | data | n | buffer ok | ok |];
    cbn [usb_apply fst snd offered accepted_bytes app]; try discriminate Hb.
  - unfold usb_transport_write.
    destruct (write_multiple_room (tx_ring_buffer u) data Hwf)
      as (tx1 & Hw & Hwf1 & _ & Hc1).
    rewrite Hw. cbn [snd tx_ring_buffer]. split; [exact Hwf1 |].
    exists [take (Z.to_nat (ring_buffer_free_space (tx_ring_buffer u))) data].
    split; [repeat constructor; apply prefix_take |].
    cbn [concat]. rewrite app_nil_r. exact Hc1.
  - destruct (write_byte_room u d Hwf) as (Hwf1 & taken & Hp & Hc).
    split; [exact Hwf1 |]. exists [taken].
    split; [repeat constructor; exact Hp |].
    cbn [concat]. rewrite app_nil_r. exact Hc.
  - rewrite (proj2 (rx_callback_tx u data)). split; [exact Hwf |].
    exists []. split; [constructor |]. cbn [concat]. rewrite app_nil_r. reflexivity.
  - rewrite (proj2 (read_tx u n)). split; [exact Hwf |].
    exists []. split; [constructor |]. cbn [concat]. rewrite app_nil_r. reflexivity.
  - cbn [buffered] in Hb. subst ok.
    assert (Hskip : usb_transport_process u true = (u, None) ->
              rb_wf (tx_ring_buffer
                       (fst (let '(u', c) := usb_transport_process u true in
                             (u', event_of c))))
              /\ exists taken, Forall2 prefix taken []
                 /\ accepted_bytes
                      (snd (let '(u', c) := usb_transport_process u true in
                            (u', event_of c)))
                      ++ ring_contents
                           (tx_ring_buffer
                              (fst (let '(u', c) := usb_transport_process u true in
                                    (u', event_of c))))
                    = ring_contents (tx_ring_buffer u) ++ concat taken).
    { intros ->. cbn [fst snd event_of accepted_bytes app].
      split; [exact Hwf |]. exists []. split; [constructor |].
      cbn [concat]. rewrite app_nil_r. reflexivity. }
    destruct (tx_in_progress u) eqn:Hbusy.
    { apply Hskip. unfold usb_transport_process. rewrite Hbusy. reflexivity. }
    destruct (ring_buffer_is_empty (tx_ring_buffer u)) eqn:Hempty.
    { apply Hskip. unfold usb_transport_process. rewrite Hbusy, Hempty. reflexivity. }
    assert (Hne : ring_contents (tx_ring_buffer u) <> []).
    { intros Hc. pose proof (contents_length _ (rb_wf_inv _ Hwf)) as Hl.
      rewrite Hc in Hl. cbn [length] in Hl.
      assert (ring_buffer_is_empty (tx_ring_buffer u) = true)
        by (apply (empty_iff _ (rb_wf_inv _ Hwf)); lia).
      congruence. }
    destruct (flush_chunk u true Hwf Hbusy Hne) as (tx1 & Hf & Hwf1 & Hc1).
    unfold usb_transport_process. rewrite Hbusy, Hempty. cbn [negb andb].
    rewrite Hf. cbn [fst snd event_of accepted_bytes with_tx tx_ring_buffer].
    split; [exact Hwf1 |]. exists []. split; [constructor |].
    cbn [concat]. rewrite !app_nil_r, Hc1. apply take_drop.
  - split; [exact Hwf |]. exists []. split; [constructor |].
    cbn [concat]. rewrite app_nil_r. reflexivity.
Qed.

Lemma offered_cons (op : usb_op) (ops : list usb_op) :
  offered (op :: ops) = offered [op] ++ offered ops.
Proof. destruct op; reflexivity. Qed.

Lemma run_buffered (ops : list usb_op) (u : usb_transport_t) :
  rb_wf (tx_ring_buffer u) -> forallb buffered ops = true ->
  rb_wf (tx_ring_buffer (fst (usb_run u ops)))
  /\ exists taken,
       Forall2 prefix taken (offered ops)
       /\ accepted_bytes (snd (usb_run u ops))
            ++ ring_contents (tx_ring_buffer (fst (usb_run u ops)))
          = ring_contents (tx_ring_buffer u) ++ concat taken.
Proof.
  revert u. induction ops as [| op ops IH]; intros u Hwf Hb.
  - cbn [usb_run fst snd accepted_bytes app offered].
    split; [exact Hwf |]. exists []. split; [constructor |].
    cbn [concat]. rewrite app_nil_r. reflexivity.
  - cbn [forallb] in Hb. apply andb_prop in Hb as [Hb1 Hb2].
    destruct (apply_buffered u op Hwf Hb1) as (Hwf1 & t1 & Hp1 & He1).
    cbn [usb_run]. destruct (usb_apply u op) as [u1 ev1]. cbn [fst snd] in *.
    destruct (IH u1 Hwf1 Hb2) as (Hwf2 & t2 & Hp2 & He2).
    destruct (usb_run u1 ops) as [u2 ev2]. cbn [fst snd] in *.
    split; [exact Hwf2 |]. exists (t1 ++ t2).
    split; [rewrite offered_cons; apply Forall2_app; assumption |].
    rewrite accepted_app, <- app_assoc, He2, app_assoc, He1.
    rewrite concat_app, app_assoc. reflexivity.
Qed.

End TransportFlow.

Module ReadLine.
Import RingBuffer Transport TransportIO RingFacts RingQueue RingEdges.

Lemma peek_none (rb : ring_buffer_t) :
  rb_wf rb -> ring_contents rb = [] -> ring_buffer_peek rb = None.
Proof.
  intros Hwf Hc. pose proof (rb_wf_inv _ Hwf) as Hinv.
  pose proof (contents_length _ Hinv) as Hl. rewrite Hc in Hl.
  cbn [length] in Hl. apply (read_empty rb Hinv). lia.
Qed.

Lemma read_head (rb : ring_buffer_t) (x byte : Z) (rest : list Z) :
  rb_wf rb -> ring_contents rb = x :: rest ->
  ring_buffer_peek rb = Some x
  /\ exists rb', read_into rb byte = (x, rb')
                 /\ rb_wf rb' /\ ring_contents rb' = rest.
Proof.
  intros Hwf Hc. pose proof (rb_wf_inv _ Hwf) as Hinv.
  pose proof (contents_length _ Hinv) as Hl. rewrite Hc in Hl.
  cbn [length] in Hl.
  destruct (read_takes rb Hwf) as (y & rb' & Hr & Hwf' & _ & _ & Hc'); [lia |].
  rewrite Hc in Hc'. assert (x = y /\ rest = ring_contents rb') as [<- ->]
    by (split; congruence).
  split.
  - rewrite peek_is_oldest, Hr. reflexivity.
  - exists rb'. unfold read_into. rewrite Hr. auto.
Qed.

Lemma terminator_cases (c : Z) :
  is_terminator c = ((c =? 10) || (c =? 13)).
Proof. reflexivity. Qed.

(** The loop on a complete line. *)
Lemma read_line_loop_line (line : list Z) :
  forall (turns : nat) (rx : ring_buffer_t) (buffer : list Z)
         (count max_length t : Z) (rest : list Z),
    rb_wf rx -> ring_contents rx = line ++ t :: rest ->
    Forall (fun c => is_terminator c = false) line ->
    is_terminator t = true ->
    (length line < turns)%nat ->
    0 <= count -> count + Z.of_nat (length line) < 2 ^ 16 ->
    (Z.to_nat count + length line < length buffer)%nat ->
    exists rx',
      read_line_loop turns rx buffer count max_length
      = (count + Z.of_nat (length line),
         take (Z.to_nat count) buffer ++ line
           ++ 0 :: drop (Z.to_nat count + length line + 1) buffer,
         rx')
      /\ rb_wf rx' /\ ring_contents rx' = after_terminator t rest.
Proof.
  induction line as [| c line IH];
    intros turns rx buffer count max_length t rest Hwf Hc Hline Ht Hturns
           Hcount Hfit Hbuf.
  - cbn [app length] in *. destruct turns as [| k]; [lia |].
    destruct (read_head rx t t rest Hwf Hc) as (Hpeek & rx1 & Hread & Hwf1 & Hc1).
    cbn [read_line_loop]. rewrite Hpeek.
    rewrite terminator_cases in Ht. rewrite Ht, Hread.
    assert (Hbuffer : <[Z.to_nat count := 0]> buffer
                      = take (Z.to_nat count) buffer
                          ++ 0 :: drop (Z.to_nat count + 0 + 1) buffer).
    { rewrite insert_take_drop by lia. repeat f_equal. lia. }
    rewrite Hbuffer, Z.add_0_r. unfold after_terminator.
    destruct (t =? 13).
    + destruct rest as [| next rest'].
      * rewrite (peek_none rx1 Hwf1 Hc1). exists rx1. auto.
      * destruct (read_head rx1 next next rest' Hwf1 Hc1)
          as (Hpeek1 & rx2 & Hread2 & Hwf2 & Hc2).
        rewrite Hpeek1. destruct (next =? 10).
        -- rewrite Hread2. exists rx2. auto.
        -- exists rx1. auto.
    + exists rx1. auto.
  - cbn [app length] in *. destruct turns as [| k]; [lia |].
    apply Forall_cons in Hline as [Hcn Hline].
    destruct (read_head rx c c (line ++ t :: rest) Hwf Hc)
      as (Hpeek & rx1 & Hread & Hwf1 & Hc1).
    cbn [read_line_loop]. rewrite Hpeek.
    rewrite terminator_cases in Hcn. rewrite Hcn, Hread.
    rewrite uint16_id by lia.
    destruct (IH k rx1 (<[Z.to_nat count := c]> buffer) (count + 1) max_length
                t rest Hwf1 Hc1 Hline Ht) as (rx' & Hloop & Hwf' & Hc');
      [lia | lia | lia | rewrite length_insert; lia |].
    exists rx'. rewrite Hloop. split; [| auto].
    do 2 f_equal; [lia |].
    replace (Z.to_nat (count + 1)) with (S (Z.to_nat count)) by lia.
    rewrite (take_S_r _ _ c) by (apply list_lookup_insert_eq; lia).
    rewrite take_insert_ge by lia.
    rewrite drop_insert_lt by lia.
    rewrite <- app_assoc. cbn [app].
    replace (S (Z.to_nat count) + length line + 1)%nat
      with (Z.to_nat count + S (length line) + 1)%nat by lia.
    reflexivity.
Qed.

(** The loop when no terminator is met: either the waiting bytes run out,
    or the turns do. *)
Lemma read_line_loop_none (line : list Z) :
  forall (turns : nat) (rx : ring_buffer_t) (buffer : list Z)
         (count max_length : Z) (more : list Z),
    rb_wf rx -> ring_contents rx = line ++ more ->
    Forall (fun c => is_terminator c = false) line ->
    length line = turns \/ ((length line < turns)%nat /\ more = []) ->
    0 <= count -> count + Z.of_nat (length line) < 2 ^ 16 ->
    count + Z.of_nat (length line) <= max_length - 1 ->
    (Z.to_nat count + length line <= length buffer)%nat ->
    exists buffer' rx',
      read_line_loop turns rx buffer count max_length = (0, buffer', rx')
      /\ rb_wf rx' /\ ring_contents rx' = more
      /\ take (Z.to_nat count + length line) buffer'
         = take (Z.to_nat count) buffer ++ line.
Proof.
  induction line as [| c line IH];
    intros turns rx buffer count max_length more Hwf Hc Hline Hturns
           Hcount Hfit Hmax Hbuf.
  - cbn [app length] in *. rewrite Nat.add_0_r, app_nil_r.
    destruct Hturns as [<- | [Hlt ->]].
    + cbn [read_line_loop]. eexists _, rx. split; [reflexivity |].
      split; [exact Hwf |]. split; [exact Hc |].
      apply take_insert_ge. lia.
    + destruct turns as [| k]; [lia |].
      cbn [read_line_loop]. rewrite (peek_none rx Hwf Hc).
      exists buffer, rx. auto.
  - cbn [app length] in *.
    destruct turns as [| k]; [destruct Hturns as [? | [? _]]; lia |].
    apply Forall_cons in Hline as [Hcn Hline].
    destruct (read_head rx c c (line ++ more) Hwf Hc)
      as (Hpeek & rx1 & Hread & Hwf1 & Hc1).
    cbn [read_line_loop]. rewrite Hpeek.
    rewrite terminator_cases in Hcn. rewrite Hcn, Hread.
    rewrite uint16_id by lia.
    destruct (IH k rx1 (<[Z.to_nat count := c]> buffer) (count + 1) max_length
                more Hwf1 Hc1 Hline) as (buffer' & rx' & Hloop & Hwf' & Hc' & Hb');
      [destruct Hturns as [? | [? ?]]; [left | right; split]; (lia || assumption)
      | lia | lia | lia | rewrite length_insert; lia |].
    exists buffer', rx'. rewrite Hloop. split; [reflexivity |].
    split; [exact Hwf' |]. split; [exact Hc' |].
    replace (Z.to_nat count + S (length line))%nat
      with (Z.to_nat (count + 1) + length line)%nat by lia.
    rewrite Hb'.
    replace (Z.to_nat (count + 1)) with (S (Z.to_nat count)) by lia.
    destruct (Nat.lt_ge_cases (Z.to_nat count) (length buffer)) as [Hin | Hout].
    + rewrite (take_S_r _ _ c) by (apply list_lookup_insert_eq; lia).
      rewrite take_insert_ge by lia. rewrite <- app_assoc. reflexivity.
    + lia.
Qed.

End ReadLine.

Module ReadoutFacts.
Import DataLayer ReadoutRun.

Lemma uint16_succ (c : Z) (k : nat) :
  uint16 (uint16 (c + 1) + Z.of_nat k) = uint16 (c + Z.of_nat (S k)).
Proof.
  unfold uint16. rewrite Zplus_mod_idemp_l. f_equal. lia.
Qed.

(** A call with a null pointer, or on a layer not initialised, changes
    nothing and builds nothing. *)
Lemma readout_refused (st : data_layer_t)
    (adc_buffer : option (list Z)) (frame_out : option CCD_Frame_t) :
  st_initialized st = false \/ complete (adc_buffer, frame_out) = false ->
  ccd_data_layer_process_readout st adc_buffer frame_out
  = (CCD_FRAME_ERROR_INVALID_DATA, st, frame_out).
Proof.
  unfold ccd_data_layer_process_readout, complete.
  destruct (st_initialized st); cbn [negb]; [| reflexivity].
  destruct adc_buffer, frame_out; intros [H | H]; try discriminate; reflexivity.
Qed.

Lemma readouts_numbers (calls : list (option (list Z) * option CCD_Frame_t)) :
  forall st : data_layer_t,
    st_initialized st = true -> is_uint16 (st_frame_counter st) ->
    map frame_counter (built (snd (readouts st calls)))
    = map (fun k => uint16 (st_frame_counter st + Z.of_nat k))
        (seq 0 (length (List.filter complete calls)))
    /\ st_frame_counter (fst (readouts st calls))
       = uint16 (st_frame_counter st
                 + Z.of_nat (length (List.filter complete calls)))
    /\ st_initialized (fst (readouts st calls)) = true.
Proof.
  induction calls as [| [adc out] calls IH]; intros st Hinit Hc.
  - cbn. rewrite Z.add_0_r, uint16_id by exact Hc. auto.
  - cbn [readouts List.filter].
    destruct (complete (adc, out)) eqn:Hcall.
    + destruct adc as [adc |]; [| discriminate].
      destruct out as [old |]; [| discriminate].
      destruct (process_readout_runs st adc old Hinit) as (st1 & frame & Hrun).
      destruct (process_readout_fields _ _ _ _ _ Hrun)
        as (_ & Hc1 & Hinit1 & _ & _ & Hf & _).
      rewrite Hrun.
      assert (Hu1 : is_uint16 (st_frame_counter st1))
        by (rewrite Hc1; apply uint16_is_uint16).
      destruct (IH st1 Hinit1 Hu1) as (Hn & Hlast & Hi).
      destruct (readouts st1 calls) as [st2 results].
      cbn [fst snd built map length seq] in *.
      split; [| split; [| exact Hi]].
      * rewrite Hn, Hf, Z.add_0_r, uint16_id by exact Hc. f_equal.
        rewrite <- seq_shift, map_map. apply map_ext. intros k.
        rewrite Hc1. apply uint16_succ.
      * rewrite Hlast, Hc1. apply uint16_succ.
    + rewrite (readout_refused st adc out) by (right; exact Hcall).
      destruct (IH st Hinit Hc) as (Hn & Hlast & Hi).
      destruct (readouts st calls) as [st2 results].
      cbn [fst snd built] in *. auto.
Qed.

(** The bytes of the pixels in the memory image. *)
Lemma le16s_lookup (l : list Z) (k : nat) (x : Z) :
  l !! k = Some x ->
  flat_map le16 l !! (2 * k)%nat = Some (x mod 256)
  /\ flat_map le16 l !! (2 * k + 1)%nat = Some ((x / 256) mod 256).
Proof.
  revert k. induction l as [| y l IH]; intros k Hk; [discriminate |].
  destruct k as [| k].
  - apply (inj Some) in Hk. subst y. auto.
  - cbn [lookup list_lookup] in Hk. destruct (IH k Hk) as [H1 H2].
    replace (2 * S k)%nat with (S (S (2 * k))) by lia.
    replace (S (S (2 * k)) + 1)%nat with (S (S (2 * k + 1))) by lia.
    cbn [flat_map le16 app]. auto.
Qed.

End ReadoutFacts.

Module CommandFlow.
Import RingBuffer Transport TransportIO CommandLayer CommandRun
       RingFacts RingQueue RingEdges CommandFacts.

(** *** The receive buffer is only read by the loop itself *)

Lemma write_string_set_rx (u : usb_transport_t) (rx : ring_buffer_t)
    (str : list Z) :
  snd (usb_transport_write_string (with_rx u rx) str)
  = with_rx (snd (usb_transport_write_string u str)) rx.
Proof.
  unfold usb_transport_write_string, usb_transport_write, with_rx.
  cbn [tx_ring_buffer stats tx_in_progress rx_ring_buffer].
  destruct (ring_buffer_write_multiple _ _) as [written tx]. reflexivity.
Qed.

Lemma send_response_set_rx (s : command_layer_t) (rx : ring_buffer_t)
    (response : list Z) :
  send_response (set_rx s rx) response = set_rx (send_response s response) rx.
Proof.
  unfold send_response, set_rx, with_usb. cbn [usb].
  rewrite write_string_set_rx. reflexivity.
Qed.

Lemma set_integration_time_set_rx (s : command_layer_t) (rx : ring_buffer_t)
    (us : Z) :
  command_handle_set_integration_time (set_rx s rx) us
  = (fst (command_handle_set_integration_time s us),
     set_rx (snd (command_handle_set_integration_time s us)) rx).
Proof.
  unfold command_handle_set_integration_time.
  change (command_layer_is_acquiring (set_rx s rx))
    with (command_layer_is_acquiring s).
  destruct (command_layer_is_acquiring s); cbn [fst snd];
    [rewrite send_response_set_rx; reflexivity |].
  destruct (_ || _); cbn [fst snd].
  - rewrite send_response_set_rx. reflexivity.
  - cbv zeta. rewrite <- send_response_set_rx. reflexivity.
Qed.

Lemma parse_and_execute_set_rx (s : command_layer_t) (rx : ring_buffer_t)
    (cmd : list Z) :
  parse_and_execute_command (set_rx s rx) cmd
  = set_rx (parse_and_execute_command s cmd) rx.
Proof.
  unfold parse_and_execute_command. cbv zeta.
  repeat (destruct (bool_decide _));
    try (unfold command_handle_start, command_handle_stop,
           command_handle_get_status;
         rewrite <- send_response_set_rx; reflexivity).
  rewrite set_integration_time_set_rx.
  destruct (command_handle_set_integration_time s _) as [status s1].
  cbn [fst snd]. destruct status; apply send_response_set_rx.
Qed.

Lemma process_byte_set_rx (s : command_layer_t) (rx : ring_buffer_t) (byte : Z) :
  process_byte (set_rx s rx) byte = set_rx (process_byte s byte) rx.
Proof.
  unfold process_byte.
  change (command_index (set_rx s rx)) with (command_index s).
  change (command_buffer (set_rx s rx)) with (command_buffer s).
  destruct (_ || _).
  - destruct (command_index s >? 0); [| reflexivity]. cbv zeta.
    change (with_line (set_rx s rx) ?b ?i) with (set_rx (with_line s b i) rx).
    rewrite parse_and_execute_set_rx. reflexivity.
  - destruct (command_index s <? CMD_BUFFER_SIZE - 1); [reflexivity |].
    change (with_line (set_rx s rx) ?b ?i) with (set_rx (with_line s b i) rx).
    apply send_response_set_rx.
Qed.

Lemma feed_set_rx (bytes : list Z) (s : command_layer_t) (rx : ring_buffer_t) :
  feed (set_rx s rx) bytes = set_rx (feed s bytes) rx.
Proof.
  revert s. induction bytes as [| b bytes IH]; intros s; [reflexivity |].
  cbn [feed fold_left]. rewrite process_byte_set_rx. apply IH.
Qed.

Lemma set_rx_twice (s : command_layer_t) (rx1 rx2 : ring_buffer_t) :
  set_rx (set_rx s rx1) rx2 = set_rx s rx2.
Proof. reflexivity. Qed.

(** The loop of [command_layer_process] handles the waiting bytes in
    order and leaves the receive buffer empty. *)
Lemma process_loop_feeds (bytes : list Z) :
  forall (n : nat) (s : command_layer_t),
    rb_wf (rx_ring_buffer (usb s)) ->
    ring_contents (rx_ring_buffer (usb s)) = bytes ->
    (length bytes <= n)%nat ->
    exists rx',
      process_loop n s = set_rx (feed s bytes) rx'
      /\ rb_wf rx' /\ ring_contents rx' = [].
Proof.
  induction bytes as [| b bytes IH]; intros n s Hwf Hc Hn.
  - pose proof (contents_length _ (rb_wf_inv _ Hwf)) as Hl.
    rewrite Hc in Hl. cbn [length] in Hl.
    exists (rx_ring_buffer (usb s)).
    split; [| auto].
    destruct n as [| n]; cbn [process_loop feed fold_left].
    + destruct s as [a t b i [rx tx busy st] h]. reflexivity.
    + unfold usb_transport_available. rewrite <- Hl. cbn.
      destruct s as [a t b i [rx tx busy st] h]. reflexivity.
  - pose proof (contents_length _ (rb_wf_inv _ Hwf)) as Hl.
    rewrite Hc in Hl. cbn [length] in Hl, Hn.
    destruct n as [| n]; [lia |]. cbn [process_loop].
    unfold usb_transport_available.
    destruct (Z.eqb_spec (ring_buffer_available (rx_ring_buffer (usb s))) 0)
      as [Hz | _]; [lia |].
    destruct (read_takes _ Hwf) as (x & rx1 & Hr & Hwf1 & _ & _ & Hc1); [lia |].
    rewrite Hc in Hc1.
    assert (x = b /\ ring_contents rx1 = bytes) as [-> Hc1']
      by (split; congruence).
    unfold usb_transport_read_byte. rewrite Hr.
    change (with_usb s _) with (set_rx s rx1).
    rewrite process_byte_set_rx.
    destruct (IH n (set_rx (process_byte s b) rx1)) as (rx' & Hloop & Hwf' & Hc');
      [exact Hwf1 | exact Hc1' | lia |].
    exists rx'. rewrite Hloop, feed_set_rx, set_rx_twice. auto.
Qed.

(** *** Trimming *)

Lemma trim_trailing_blanks (pad : list Z) :
  Forall (fun c => blank c = true) pad -> trim_trailing pad = [].
Proof.
  induction 1 as [| c pad Hc _ IH]; [reflexivity |].
  cbn [trim_trailing]. rewrite IH. unfold blank in Hc. rewrite Hc. reflexivity.
Qed.

Lemma trim_trailing_app_blanks (w pad : list Z) :
  Forall (fun c => blank c = true) pad ->
  trim_trailing (w ++ pad) = trim_trailing w.
Proof.
  intros Hpad. induction w as [| c w IH].
  - cbn [app trim_trailing]. apply trim_trailing_blanks, Hpad.
  - cbn [app trim_trailing]. rewrite IH. reflexivity.
Qed.

(** *** Decimal numbers *)

Lemma dec_digits_S (k : nat) (n : Z) (acc : list Z) :
  dec_digits (S k) n acc
  = if n / 10 =? 0 then (48 + n mod 10) :: acc
    else dec_digits k (n / 10) ((48 + n mod 10) :: acc).
Proof. reflexivity. Qed.

Lemma dec_digits_read (f : nat) :
  forall (n : Z) (acc : list Z),
    0 <= n < 10 ^ Z.of_nat (S f) ->
    exists ds,
      dec_digits (S f) n acc = ds ++ acc
      /\ ds <> [] /\ (length ds <= S f)%nat
      /\ Forall (fun c => isdigit c = true) ds
      /\ forall (rest : list Z) (a : Z),
           atoi_digits (ds ++ rest) a
           = atoi_digits rest (a * 10 ^ Z.of_nat (length ds) + n).
Proof.
  induction f as [| f IH]; intros n acc Hn.
  - change (10 ^ Z.of_nat 1) with 10 in Hn.
    assert (Hd : isdigit (48 + n mod 10) = true)
      by (rewrite Z.mod_small by lia; unfold isdigit; lia).
    exists [48 + n mod 10].
    split; [cbn [dec_digits]; destruct (n / 10 =? 0); reflexivity |].
    split; [discriminate |]. split; [cbn [length]; lia |].
    split; [repeat constructor; exact Hd |].
    intros rest a. cbn [app atoi_digits length]. rewrite Hd.
    f_equal. rewrite Z.mod_small by lia. change (10 ^ Z.of_nat 1) with 10. lia.
  - rewrite dec_digits_S.
    assert (Hm : 0 <= n mod 10 < 10) by (apply Z.mod_pos_bound; lia).
    assert (Hd : isdigit (48 + n mod 10) = true) by (unfold isdigit; lia).
    destruct (Z.eqb_spec (n / 10) 0) as [Hz | Hnz].
    + exists [48 + n mod 10].
      split; [reflexivity |]. split; [discriminate |]. split; [cbn; lia |].
      split; [repeat constructor; exact Hd |].
      intros rest a. cbn [app atoi_digits length]. rewrite Hd.
      f_equal. change (10 ^ Z.of_nat 1) with 10.
      pose proof (Z.div_mod n 10). lia.
    + destruct (IH (n / 10) ((48 + n mod 10) :: acc))
        as (ds & Heq & Hne & Hlen & Hds & Hread).
      { rewrite Nat2Z.inj_succ, Z.pow_succ_r in Hn by lia.
        split; [apply Z.div_pos; lia | apply Z.div_lt_upper_bound; lia]. }
      exists (ds ++ [48 + n mod 10]).
      split; [rewrite Heq, <- app_assoc; reflexivity |].
      split; [destruct ds; discriminate |].
      split; [rewrite length_app; cbn [length]; lia |].
      split; [apply Forall_app; split; [exact Hds | repeat constructor; exact Hd] |].
      intros rest a. rewrite <- app_assoc. cbn [app].
      rewrite Hread. cbn [atoi_digits]. rewrite Hd. f_equal.
      rewrite length_app. cbn [length].
      rewrite Nat2Z.inj_add. change (Z.of_nat 1) with 1.
      rewrite Z.pow_add_r by lia. change (10 ^ 1) with 10.
      pose proof (Z.div_mod n 10). lia.
Qed.

Lemma fmt_lu_digits (n : Z) :
  0 <= n < 2 ^ 32 ->
  fmt_lu n <> [] /\ (length (fmt_lu n) <= 10)%nat
  /\ Forall (fun c => isdigit c = true) (fmt_lu n)
  /\ atoi_digits (fmt_lu n) 0 = n.
Proof.
  intros Hn. unfold fmt_lu.
  destruct (dec_digits_read 9 n []) as (ds & Heq & Hne & Hlen & Hds & Hread).
  { change (10 ^ Z.of_nat 10) with 10000000000. lia. }
  rewrite Heq, app_nil_r. split; [exact Hne |]. split; [exact Hlen |].
  split; [exact Hds |].
  rewrite <- (app_nil_r ds), Hread. cbn [atoi_digits]. lia.
Qed.

Lemma digit_cases (c : Z) :
  isdigit c = true ->
  c = 48 \/ c = 49 \/ c = 50 \/ c = 51 \/ c = 52 \/ c = 53 \/ c = 54
  \/ c = 55 \/ c = 56 \/ c = 57.
Proof. unfold isdigit. lia. Qed.

Lemma trim_trailing_digits (ds : list Z) :
  Forall (fun c => isdigit c = true) ds -> trim_trailing ds = ds.
Proof.
  induction 1 as [| c ds Hc _ IH]; [reflexivity |].
  rewrite trim_trailing_cons, IH; [reflexivity |].
  unfold isdigit in Hc. unfold SP, CR. lia.
Qed.

Lemma atoi_digits_only (ds : list Z) :
  Forall (fun c => isdigit c = true) ds -> atoi ds = atoi_digits ds 0.
Proof.
  intros Hds. destruct Hds as [| c ds Hc Hds]; [reflexivity |].
  unfold atoi. cbn [skip_space].
  replace (isspace c) with false
    by (unfold isdigit in Hc; unfold isspace, SP; lia).
  destruct (digit_cases c Hc) as [-> | [-> | [-> | [-> | [-> | [-> | [-> | [->
    | [-> | ->]]]]]]]]]; reflexivity.
Qed.

(** The decimal text [%lu] prints is read back by [atoi] as the number. *)
Lemma atoi_fmt_lu (n : Z) :
  0 <= n < 2 ^ 32 -> atoi (trim_trailing (take 50 (fmt_lu n))) = n.
Proof.
  intros Hn. destruct (fmt_lu_digits n Hn) as (_ & Hlen & Hds & Hread).
  rewrite take_ge by lia.
  rewrite trim_trailing_digits, atoi_digits_only by exact Hds. exact Hread.
Qed.

(** *** Line assembly *)

Lemma c_string_line (w rest : list Z) :
  Forall (fun c => line_char c = true) w -> c_string (w ++ 0 :: rest) = w.
Proof.
  induction 1 as [| c w Hc _ IH]; [reflexivity |].
  cbn [app c_string]. rewrite IH.
  unfold line_char in Hc. destruct (c =? 0); [discriminate | reflexivity].
Qed.

Lemma feed_stores (w : list Z) :
  forall s : command_layer_t,
    Forall (fun c => line_char c = true) w ->
    0 <= command_index s ->
    command_index s + Z.of_nat (length w) <= CMD_BUFFER_SIZE - 1 ->
    (Z.to_nat (command_index s) + length w <= length (command_buffer s))%nat ->
    feed s w
    = with_line s
        (take (Z.to_nat (command_index s)) (command_buffer s) ++ w
           ++ drop (Z.to_nat (command_index s) + length w) (command_buffer s))
        (command_index s + Z.of_nat (length w)).
Proof.
  induction w as [| c w IH]; intros s Hw Hi Hfit Hbuf.
  - cbn [feed fold_left app length]. rewrite Nat.add_0_r, take_drop, Z.add_0_r.
    destruct s. reflexivity.
  - apply Forall_cons in Hw as [Hc Hw]. cbn [length] in Hfit, Hbuf.
    cbn [feed fold_left]. fold (feed (process_byte s c) w).
    assert (Hstep : process_byte s c
                    = with_line s
                        (<[Z.to_nat (command_index s) := c]> (command_buffer s))
                        (command_index s + 1)).
    { unfold process_byte. unfold line_char in Hc.
      destruct (c =? LF); [rewrite orb_true_r in Hc; discriminate |].
      destruct (c =? CR); [rewrite orb_true_r in Hc; discriminate |].
      cbn [orb].
      destruct (Z.ltb_spec (command_index s) (CMD_BUFFER_SIZE - 1)); [| lia].
      unfold CMD_BUFFER_SIZE in *. rewrite uint8_small by (unfold is_uint8; lia).
      reflexivity. }
    rewrite Hstep, IH; try assumption;
      cbn [with_line command_index command_buffer];
      [| lia | lia | rewrite length_insert; lia].
    unfold with_line. cbn [acquisition_state integration_time_us usb htim5].
    f_equal; [| cbn [length]; lia].
    replace (Z.to_nat (command_index s + 1)) with (S (Z.to_nat (command_index s)))
      by lia.
    rewrite (take_S_r _ _ c) by (apply list_lookup_insert_eq; lia).
    rewrite take_insert_ge by lia.
    rewrite drop_insert_lt by lia.
    rewrite <- app_assoc. cbn [app length].
    replace (S (Z.to_nat (command_index s)) + length w)%nat
      with (Z.to_nat (command_index s) + S (length w))%nat by lia.
    reflexivity.
Qed.

Lemma set_integration_time_with_line (s : command_layer_t) (buf : list Z)
    (idx us : Z) :
  command_handle_set_integration_time (with_line s buf idx) us
  = (fst (command_handle_set_integration_time s us),
     with_line (snd (command_handle_set_integration_time s us)) buf idx).
Proof.
  unfold command_handle_set_integration_time.
  change (command_layer_is_acquiring (with_line s buf idx))
    with (command_layer_is_acquiring s).
  destruct (command_layer_is_acquiring s); [reflexivity |].
  destruct (_ || _); reflexivity.
Qed.

Lemma parse_and_execute_with_line (s : command_layer_t) (buf : list Z) (idx : Z)
    (cmd : list Z) :
  parse_and_execute_command (with_line s buf idx) cmd
  = with_line (parse_and_execute_command s cmd) buf idx.
Proof.
  unfold parse_and_execute_command. cbv zeta.
  repeat (destruct (bool_decide _)); try reflexivity.
  rewrite set_integration_time_with_line.
  destruct (command_handle_set_integration_time s _) as [status s1].
  cbn [fst snd]. destruct status; reflexivity.
Qed.

(** *** The timer *)

Lemma set_integration_time_consistent (s : command_layer_t) (us : Z) :
  timer_consistent s ->
  timer_consistent (snd (command_handle_set_integration_time s us)).
Proof.
  intros Hs. unfold command_handle_set_integration_time.
  destruct (command_layer_is_acquiring s); [exact Hs |].
  destruct (Z.ltb_spec us 10); [exact Hs |].
  destruct (Z.gtb_spec us 100000); [exact Hs |].
  cbn [orb snd]. unfold timer_consistent.
  cbn [send_response with_usb with_time integration_time_us htim5
       HAL_TIM_PWM_Start HAL_TIM_SET_COUNTER HAL_TIM_SET_COMPARE
       HAL_TIM_SET_AUTORELOAD HAL_TIM_PWM_Stop autoreload pwm_running].
  split; [lia |]. split; [| reflexivity].
  unfold uint32. apply Z.mod_small. lia.
Qed.

Lemma parse_and_execute_consistent (s : command_layer_t) (cmd : list Z) :
  timer_consistent s -> timer_consistent (parse_and_execute_command s cmd).
Proof.
  intros Hs. unfold parse_and_execute_command. cbv zeta.
  repeat (destruct (bool_decide _)); try exact Hs.
  pose proof (set_integration_time_consistent s
                (uint32 (atoi (drop 13 (trim_trailing
                   (take (Z.to_nat (CMD_BUFFER_SIZE - 1)) cmd))))) Hs) as H.
  destruct (command_handle_set_integration_time s _) as [status s1].
  cbn [snd] in H. destruct status; exact H.
Qed.

Lemma process_byte_consistent (s : command_layer_t) (byte : Z) :
  timer_consistent s -> timer_consistent (process_byte s byte).
Proof.
  intros Hs. unfold process_byte.
  destruct (_ || _).
  - destruct (command_index s >? 0); [| exact Hs]. cbv zeta.
    rewrite parse_and_execute_with_line.
    apply (parse_and_execute_consistent s _ Hs).
  - destruct (command_index s <? CMD_BUFFER_SIZE - 1); exact Hs.
Qed.

Lemma feed_consistent (bytes : list Z) (s : command_layer_t) :
  timer_consistent s -> timer_consistent (feed s bytes).
Proof.
  revert s. induction bytes as [| b bytes IH]; intros s Hs; [exact Hs |].
  cbn [feed fold_left]. apply IH, process_byte_consistent, Hs.
Qed.

(** While acquiring, no command reaches the timer. *)
Lemma parse_and_execute_running (s : command_layer_t) (cmd : list Z) :
  acquisition_state s = ACQ_STATE_RUNNING ->
  htim5 (parse_and_execute_command s cmd) = htim5 s
  /\ integration_time_us (parse_and_execute_command s cmd)
     = integration_time_us s.
Proof.
  intros Hrun. unfold parse_and_execute_command. cbv zeta.
  repeat (destruct (bool_decide _)); try (split; reflexivity).
  unfold command_handle_set_integration_time, command_layer_is_acquiring.
  rewrite Hrun. split; reflexivity.
Qed.

End CommandFlow.

Import QueueModel TransportIO ReadoutRun CommandRun.

(** ** Ring buffer *)

(** X1.  [ring_buffer_write] fails exactly when the buffer is full, which
    is when no free space is left; a failed write changes nothing, a
    successful one appends the byte to the waiting bytes and takes one unit
    of free space. *)
Theorem ring_write_full_or_appends (rb : ring_buffer_t) (d : Z) :
  rb_wf rb ->
  (ring_buffer_is_full rb = true <-> ring_buffer_free_space rb = 0)
  /\ (fst (ring_buffer_write rb d) = false <-> ring_buffer_is_full rb = true)
  /\ (fst (ring_buffer_write rb d) = false -> snd (ring_buffer_write rb d) = rb)
  /\ (fst (ring_buffer_write rb d) = true ->
      rb_wf (snd (ring_buffer_write rb d))
      /\ ring_contents (snd (ring_buffer_write rb d)) = ring_contents rb ++ [d]
      /\ ring_buffer_free_space (snd (ring_buffer_write rb d))
         = ring_buffer_free_space rb - 1).
Proof.
  intros Hwf. pose proof (RingQueue.rb_wf_inv rb Hwf) as Hinv.
  pose proof (RingEdges.full_iff rb Hinv) as Hfull.
  pose proof (RingFacts.free_space_value rb Hinv) as Hfree.
  destruct (RingFacts.available_value rb Hinv) as [_ Ha].
  split; [rewrite Hfull; lia |].
  destruct (Z.eq_dec (ring_buffer_available rb) (size rb - 1)) as [Hf | Hroom].
  - rewrite (RingEdges.write_full rb d Hinv Hf). cbn [fst snd].
    split; [tauto |]. split; [reflexivity | discriminate].
  - destruct (RingQueue.write_appends rb d Hwf)
      as (rb1 & Hw & Hwf1 & Hs1 & Ha1 & Hc1); [lia |].
    rewrite Hw. cbn [fst snd].
    split; [split; [discriminate | intros H; apply Hfull in H; lia] |].
    split; [discriminate |]. intros _.
    split; [exact Hwf1 |]. split; [exact Hc1 |].
    rewrite (RingFacts.free_space_value rb1 (RingQueue.rb_wf_inv rb1 Hwf1)). lia.
Qed.

Lemma ring_write_full_or_appends_witness :
  let rb := {| buffer := [7; 8; 9; 0]; head := 3; tail := 0; size := 4 |} in
  (ring_buffer_is_full rb = true <-> ring_buffer_free_space rb = 0)
  /\ (fst (ring_buffer_write rb 5) = false <-> ring_buffer_is_full rb = true)
  /\ (fst (ring_buffer_write rb 5) = false -> snd (ring_buffer_write rb 5) = rb)
  /\ (fst (ring_buffer_write rb 5) = true ->
      rb_wf (snd (ring_buffer_write rb 5))
      /\ ring_contents (snd (ring_buffer_write rb 5)) = ring_contents rb ++ [5]
      /\ ring_buffer_free_space (snd (ring_buffer_write rb 5))
         = ring_buffer_free_space rb - 1).
Proof.
  apply (ring_write_full_or_appends
           {| buffer := [7; 8; 9; 0]; head := 3; tail := 0; size := 4 |} 5).
  unfold rb_wf. cbn. lia.
Defined.

(** X2.  [ring_buffer_read] and [ring_buffer_peek] fail exactly when the
    buffer is empty, and a failed read changes nothing; otherwise both
    return the oldest waiting byte, and the read removes it and gives one
    unit of free space back. *)
Theorem ring_read_empty_or_oldest (rb : ring_buffer_t) :
  rb_wf rb ->
  (ring_buffer_is_empty rb = true <-> ring_buffer_available rb = 0)
  /\ (fst (ring_buffer_read rb) = None <-> ring_buffer_is_empty rb = true)
  /\ ring_buffer_peek rb = fst (ring_buffer_read rb)
  /\ (fst (ring_buffer_read rb) = None -> snd (ring_buffer_read rb) = rb)
  /\ (forall x, fst (ring_buffer_read rb) = Some x ->
        rb_wf (snd (ring_buffer_read rb))
        /\ ring_contents rb = x :: ring_contents (snd (ring_buffer_read rb))
        /\ ring_buffer_free_space (snd (ring_buffer_read rb))
           = ring_buffer_free_space rb + 1).
Proof.
  intros Hwf. pose proof (RingQueue.rb_wf_inv rb Hwf) as Hinv.
  pose proof (RingEdges.empty_iff rb Hinv) as Hempty.
  destruct (RingFacts.available_value rb Hinv) as [_ Ha].
  split; [exact Hempty |].
  split; [| split; [apply RingEdges.peek_is_oldest |]].
  - destruct (Z.eq_dec (ring_buffer_available rb) 0) as [He | Hsome].
    + destruct (RingEdges.read_empty rb Hinv He) as [Hr _]. rewrite Hr.
      cbn [fst]. tauto.
    + destruct (RingQueue.read_takes rb Hwf) as (x & rb1 & Hr & _); [lia |].
      rewrite Hr. cbn [fst].
      split; [discriminate | intros H; apply Hempty in H; lia].
  - destruct (Z.eq_dec (ring_buffer_available rb) 0) as [He | Hsome].
    + destruct (RingEdges.read_empty rb Hinv He) as [Hr _]. rewrite Hr.
      cbn [fst snd]. split; [reflexivity | discriminate].
    + destruct (RingQueue.read_takes rb Hwf)
        as (x & rb1 & Hr & Hwf1 & Hs1 & Ha1 & Hc1); [lia |].
      rewrite Hr. cbn [fst snd]. split; [discriminate |].
      intros y Hy. injection Hy as <-.
      split; [exact Hwf1 |]. split; [exact Hc1 |].
      rewrite (RingFacts.free_space_value rb1 (RingQueue.rb_wf_inv rb1 Hwf1)).
      rewrite (RingFacts.free_space_value rb Hinv). lia.
Qed.

Lemma ring_read_empty_or_oldest_witness :
  let rb := {| buffer := [7; 8; 9; 0]; head := 1; tail := 3; size := 4 |} in
  ring_buffer_peek rb = Some 0
  /\ ring_contents rb = 0 :: ring_contents (snd (ring_buffer_read rb))
  /\ ring_buffer_free_space (snd (ring_buffer_read rb))
     = ring_buffer_free_space rb + 1.
Proof.
  assert (Hwf : rb_wf {| buffer := [7; 8; 9; 0]; head := 1; tail := 3; size := 4 |})
    by (unfold rb_wf; cbn; lia).
  destruct (ring_read_empty_or_oldest _ Hwf) as (_ & _ & Hp & _ & Hx).
  split; [reflexivity |].
  destruct (Hx 0 eq_refl) as (_ & Hc & Hf). split; [exact Hc | exact Hf].
Defined.

(** X3.  [ring_buffer_write_multiple] writes as many bytes as there is
    free space for and no more: it returns the smaller of the length and
    the free space, and the waiting bytes grow by that prefix of the data,
    in order. *)
Theorem ring_write_multiple_partial (rb : ring_buffer_t) (data : list Z) :
  rb_wf rb ->
  let written := fst (ring_buffer_write_multiple rb data) in
  let rb' := snd (ring_buffer_write_multiple rb data) in
  written = Z.min (Z.of_nat (length data)) (ring_buffer_free_space rb)
  /\ ring_contents rb' = ring_contents rb ++ take (Z.to_nat written) data
  /\ ring_buffer_free_space rb' = ring_buffer_free_space rb - written
  /\ rb_wf rb'.
Proof.
  intros Hwf. pose proof (RingQueue.rb_wf_inv rb Hwf) as Hinv.
  pose proof (RingFacts.free_space_value rb Hinv) as Hfree.
  destruct (RingFacts.available_value rb Hinv) as [_ Ha].
  assert (Hsz : size rb < 2 ^ 16) by (destruct Hinv as ((_ & ?) & _); assumption).
  unfold ring_buffer_write_multiple.
  destruct (RingEdges.write_loop_room data rb 0 Hwf)
    as (rb1 & Hw & Hwf1 & Hs1 & Hc1); try lia.
  rewrite Hw. cbn [fst snd]. cbv zeta.
  pose proof (RingQueue.rb_wf_inv rb1 Hwf1) as Hinv1.
  pose proof (RingQueue.contents_length rb1 Hinv1) as Hl1.
  pose proof (RingQueue.contents_length rb Hinv) as Hl.
  rewrite Hc1, length_app, length_take in Hl1.
  rewrite Hfree. split; [f_equal; lia |].
  split.
  - rewrite Hc1. f_equal.
    destruct (Z.le_ge_cases (Z.of_nat (length data))
                (size rb - 1 - ring_buffer_available rb)) as [Hle | Hge].
    + rewrite !take_ge by lia. reflexivity.
    + f_equal. lia.
  - split; [| exact Hwf1].
    rewrite (RingFacts.free_space_value rb1 Hinv1). lia.
Qed.

Lemma ring_write_multiple_partial_witness :
  let rb := {| buffer := [7; 8; 9; 0]; head := 0; tail := 3; size := 4 |} in
  fst (ring_buffer_write_multiple rb [1; 2; 3; 4; 5]) = 2
  /\ ring_contents (snd (ring_buffer_write_multiple rb [1; 2; 3; 4; 5]))
     = [0; 1; 2].
Proof.
  assert (Hwf : rb_wf {| buffer := [7; 8; 9; 0]; head := 0; tail := 3; size := 4 |})
    by (unfold rb_wf; cbn; lia).
  destruct (ring_write_multiple_partial _ [1; 2; 3; 4; 5] Hwf) as (Hn & Hc & _).
  split; [exact Hn | exact Hc].
Defined.

(** X4.  [ring_buffer_read_multiple] reads as many bytes as are waiting,
    up to the length asked for: it returns the smaller of the two, delivers
    that prefix of the waiting bytes in order and leaves the rest. *)
Theorem ring_read_multiple_partial (rb : ring_buffer_t) (length : Z) :
  rb_wf rb -> 0 <= length ->
  let read_count := fst (fst (ring_buffer_read_multiple rb length)) in
  let data := snd (fst (ring_buffer_read_multiple rb length)) in
  let rb' := snd (ring_buffer_read_multiple rb length) in
  read_count = Z.min length (ring_buffer_available rb)
  /\ data = take (Z.to_nat read_count) (ring_contents rb)
  /\ ring_contents rb' = drop (Z.to_nat read_count) (ring_contents rb)
  /\ rb_wf rb'.
Proof.
  intros Hwf Hn. pose proof (RingQueue.rb_wf_inv rb Hwf) as Hinv.
  destruct (RingFacts.available_value rb Hinv) as [_ Ha].
  pose proof (RingQueue.contents_length rb Hinv) as Hl.
  assert (Hsz : size rb < 2 ^ 16) by (destruct Hinv as ((_ & ?) & _); assumption).
  unfold ring_buffer_read_multiple.
  destruct (RingEdges.read_loop_some (Z.to_nat length) rb [] 0 Hwf)
    as (rb1 & Hr & Hwf1 & Hs1 & Hc1); try lia.
  rewrite Hr. rewrite Z2Nat.id by lia. cbn [app fst snd]. cbv zeta.
  split; [lia |].
  destruct (Z.le_ge_cases length (ring_buffer_available rb)) as [Hle | Hge].
  - rewrite Z.add_0_l, Z.min_l by lia. auto.
  - rewrite Z.add_0_l, Z.min_r by lia.
    rewrite Hc1, !take_ge, !drop_ge by lia. auto.
Qed.

Lemma ring_read_multiple_partial_witness :
  let rb := {| buffer := [7; 8; 9; 0]; head := 1; tail := 2; size := 4 |} in
  fst (fst (ring_buffer_read_multiple rb 5)) = 3
  /\ snd (fst (ring_buffer_read_multiple rb 5)) = [9; 0; 7]
  /\ ring_contents (snd (ring_buffer_read_multiple rb 5)) = [].
Proof.
  assert (Hwf : rb_wf {| buffer := [7; 8; 9; 0]; head := 1; tail := 2; size := 4 |})
    by (unfold rb_wf; cbn; lia).
  destruct (ring_read_multiple_partial _ 5 Hwf ltac:(lia)) as (Hn & Hd & Hc & _).
  split; [exact Hn |]. split; [exact Hd | exact Hc].
Defined.

(** X5.  Over any sequence of operations the ring buffer behaves as a
    first-in first-out queue of at most [size - 1] bytes: the waiting bytes
    after the sequence are those of the queue after the same sequence. *)
Theorem ring_refines_queue (rb : ring_buffer_t) (ops : list rb_op) :
  rb_wf rb ->
  rb_wf (rb_run rb ops)
  /\ ring_contents (rb_run rb ops)
     = q_run (Z.to_nat (size rb - 1)) (ring_contents rb) ops
  /\ (length (ring_contents (rb_run rb ops)) <= Z.to_nat (size rb - 1))%nat.
Proof.
  intros Hwf.
  assert (H : rb_wf (rb_run rb ops)
              /\ size (rb_run rb ops) = size rb
              /\ ring_contents (rb_run rb ops)
                 = q_run (Z.to_nat (size rb - 1)) (ring_contents rb) ops).
  { unfold rb_run, q_run. revert rb Hwf.
    induction ops as [| op ops IH]; intros rb Hwf; cbn [fold_left].
    - auto.
    - destruct (RingEdges.apply_refines rb op Hwf) as (Hwf1 & Hs1 & Hc1).
      destruct (IH _ Hwf1) as (Hwf2 & Hs2 & Hc2).
      split; [exact Hwf2 |]. split; [congruence |].
      rewrite Hc2, Hs1, Hc1. reflexivity. }
  destruct H as (Hwf' & Hs' & Hc').
  split; [exact Hwf' |]. split; [exact Hc' |].
  pose proof (RingQueue.rb_wf_inv _ Hwf') as Hinv'.
  pose proof (RingQueue.contents_length _ Hinv') as Hl.
  destruct (RingFacts.available_value _ Hinv') as [_ Ha].
  rewrite Hs' in Ha. lia.
Qed.

Lemma ring_refines_queue_witness :
  let rb := ring_buffer_init (repeat 0 4) 4 in
  let ops := [OpWriteMultiple [1; 2; 3; 4; 5]; OpRead; OpWrite 6; OpWrite 7;
              OpReadMultiple 2; OpPeek; OpWrite 8] in
  ring_contents (rb_run rb ops) = [6; 8]
  /\ q_run 3 [] ops = [6; 8].
Proof.
  assert (Hwf : rb_wf (ring_buffer_init (repeat 0 4) 4))
    by (unfold rb_wf; cbn; lia).
  destruct (ring_refines_queue _
              [OpWriteMultiple [1; 2; 3; 4; 5]; OpRead; OpWrite 6; OpWrite 7;
               OpReadMultiple 2; OpPeek; OpWrite 8] Hwf) as (_ & Hc & _).
  split; [exact Hc | reflexivity].
Defined.

(** ** USB transport *)

(** X6.  [usb_transport_write] (and [usb_transport_write_string], which
    is the same call on the characters of the string) queues as many bytes
    as the transmit buffer has free space for and reports that count; the
    total grows by the count, and the overflow counter grows by one exactly
    when some bytes did not fit.  The dropped bytes are not kept anywhere. *)
Theorem usb_write_accounting (u : usb_transport_t) (data : list Z) :
  rb_wf (tx_ring_buffer u) -> Z.of_nat (length data) < 2 ^ 16 ->
  let free := ring_buffer_free_space (tx_ring_buffer u) in
  let written := fst (usb_transport_write u data) in
  let u' := snd (usb_transport_write u data) in
  written = Z.min (Z.of_nat (length data)) free
  /\ ring_contents (tx_ring_buffer u')
     = ring_contents (tx_ring_buffer u) ++ take (Z.to_nat written) data
  /\ tx_bytes_total (stats u') = uint32 (tx_bytes_total (stats u) + written)
  /\ tx_overflow_count (stats u')
     = (if free <? Z.of_nat (length data)
        then uint32 (tx_overflow_count (stats u) + 1)
        else tx_overflow_count (stats u))
  /\ rx_ring_buffer u' = rx_ring_buffer u
  /\ tx_in_progress u' = tx_in_progress u
  /\ rb_wf (tx_ring_buffer u')
  /\ usb_transport_write_string u data = usb_transport_write u data.
Proof.
  intros Hwf Hlen. cbv zeta.
  assert (Hstr : usb_transport_write_string u data = usb_transport_write u data).
  { unfold usb_transport_write_string.
    rewrite uint16_id by lia. rewrite Nat2Z.id, firstn_all. reflexivity. }
  unfold usb_transport_write.
  destruct (TransportFacts.write_multiple_room (tx_ring_buffer u) data Hwf)
    as (tx' & Hw & Hwf' & _ & Hc).
  rewrite Hw. cbn [fst snd tx_ring_buffer rx_ring_buffer tx_in_progress stats
                   tx_bytes_total tx_overflow_count].
  pose proof (RingFacts.free_space_value _ (RingQueue.rb_wf_inv _ Hwf)) as Hf.
  destruct (RingFacts.available_value _ (RingQueue.rb_wf_inv _ Hwf)) as [_ Ha].
  split; [reflexivity |]. split.
  { rewrite Hc. f_equal.
    destruct (Z.le_ge_cases (Z.of_nat (length data))
                (ring_buffer_free_space (tx_ring_buffer u))) as [Hle | Hge].
    - rewrite !take_ge by lia. reflexivity.
    - f_equal. lia. }
  split; [reflexivity |]. split.
  { destruct (Z.ltb_spec (ring_buffer_free_space (tx_ring_buffer u))
                (Z.of_nat (length data)));
      destruct (Z.ltb_spec (Z.min (Z.of_nat (length data))
                              (ring_buffer_free_space (tx_ring_buffer u)))
                  (Z.of_nat (length data))); try reflexivity; lia. }
  split; [reflexivity |]. split; [reflexivity |]. split; [exact Hwf' |].
  rewrite Hstr. unfold usb_transport_write. rewrite Hw. reflexivity.
Qed.

Lemma usb_write_accounting_witness :
  let u := usb_transport_init (repeat 0 256) (repeat 0 512) in
  let data := repeat 65 600 in
  fst (usb_transport_write u data) = 511
  /\ ring_contents (tx_ring_buffer (snd (usb_transport_write u data)))
     = repeat 65 511
  /\ tx_bytes_total (stats (snd (usb_transport_write u data))) = 511
  /\ tx_overflow_count (stats (snd (usb_transport_write u data))) = 1.
Proof.
  assert (Hwf : rb_wf (tx_ring_buffer
                         (usb_transport_init (repeat 0 256) (repeat 0 512))))
    by (vm_compute; repeat split; reflexivity || discriminate).
  assert (Hlen : Z.of_nat (length (repeat 65 600)) < 2 ^ 16)
    by (vm_compute; reflexivity).
  destruct (usb_write_accounting _ (repeat 65 600) Hwf Hlen)
    as (Hn & Hc & Ht & Ho & _).
  split; [exact Hn |]. split; [exact Hc |]. split; [exact Ht | exact Ho].
Defined.

(** X7.  [usb_transport_rx_callback] stores as many received bytes as the
    receive buffer has free space for, in arrival order, adds that count to
    the total, and counts one overflow exactly when some bytes were
    dropped; the transmit side is not touched. *)
Theorem usb_rx_callback_accounting (u : usb_transport_t) (data : list Z) :
  rb_wf (rx_ring_buffer u) -> Z.of_nat (length data) < 2 ^ 16 ->
  let free := ring_buffer_free_space (rx_ring_buffer u) in
  let stored := Z.min (Z.of_nat (length data)) free in
  let u' := usb_transport_rx_callback u data in
  ring_contents (rx_ring_buffer u')
  = ring_contents (rx_ring_buffer u) ++ take (Z.to_nat stored) data
  /\ usb_transport_available u' = usb_transport_available u + stored
  /\ rx_bytes_total (stats u') = uint32 (rx_bytes_total (stats u) + stored)
  /\ rx_overflow_count (stats u')
     = (if free <? Z.of_nat (length data)
        then uint32 (rx_overflow_count (stats u) + 1)
        else rx_overflow_count (stats u))
  /\ tx_ring_buffer u' = tx_ring_buffer u
  /\ tx_in_progress u' = tx_in_progress u
  /\ rb_wf (rx_ring_buffer u').
Proof.
  intros Hwf Hlen. cbv zeta. unfold usb_transport_rx_callback. cbv zeta.
  assert (Hlen32 : uint32 (Z.of_nat (length data)) = Z.of_nat (length data))
    by (unfold uint32; apply Z.mod_small; lia).
  rewrite Hlen32, uint16_id by lia. rewrite Nat2Z.id, firstn_all.
  destruct (TransportFacts.write_multiple_room (rx_ring_buffer u) data Hwf)
    as (rx' & Hw & Hwf' & Hs' & Hc).
  rewrite Hw. cbn [tx_ring_buffer rx_ring_buffer tx_in_progress stats
                   rx_bytes_total rx_overflow_count].
  pose proof (RingFacts.free_space_value _ (RingQueue.rb_wf_inv _ Hwf)) as Hf.
  destruct (RingFacts.available_value _ (RingQueue.rb_wf_inv _ Hwf)) as [_ Ha].
  pose proof (RingQueue.contents_length _ (RingQueue.rb_wf_inv _ Hwf)) as Hl.
  pose proof (RingQueue.contents_length _ (RingQueue.rb_wf_inv _ Hwf')) as Hl'.
  assert (Htake : take (Z.to_nat (ring_buffer_free_space (rx_ring_buffer u))) data
                  = take (Z.to_nat (Z.min (Z.of_nat (length data))
                                      (ring_buffer_free_space (rx_ring_buffer u))))
                      data).
  { destruct (Z.le_ge_cases (Z.of_nat (length data))
                (ring_buffer_free_space (rx_ring_buffer u))) as [Hle | Hge].
    - rewrite !take_ge by lia. reflexivity.
    - f_equal. lia. }
  split; [rewrite Hc, Htake; reflexivity |]. split.
  { unfold usb_transport_available. cbn [rx_ring_buffer].
    rewrite Hc, length_app, length_take in Hl'. lia. }
  split; [reflexivity |]. split.
  { destruct (Z.ltb_spec (ring_buffer_free_space (rx_ring_buffer u))
                (Z.of_nat (length data)));
      destruct (Z.ltb_spec (Z.min (Z.of_nat (length data))
                              (ring_buffer_free_space (rx_ring_buffer u)))
                  (Z.of_nat (length data))); try reflexivity; lia. }
  split; [reflexivity |]. split; [reflexivity |]. exact Hwf'.
Qed.

Lemma usb_rx_callback_accounting_witness :
  let u := usb_transport_init (repeat 0 256) (repeat 0 512) in
  let u' := usb_transport_rx_callback u (repeat 66 300) in
  ring_contents (rx_ring_buffer u') = repeat 66 255
  /\ usb_transport_available u' = 255
  /\ rx_overflow_count (stats u') = 1.
Proof.
  assert (Hwf : rb_wf (rx_ring_buffer
                         (usb_transport_init (repeat 0 256) (repeat 0 512))))
    by (vm_compute; repeat split; reflexivity || discriminate).
  assert (Hlen : Z.of_nat (length (repeat 66 300)) < 2 ^ 16)
    by (vm_compute; reflexivity).
  destruct (usb_rx_callback_accounting _ (repeat 66 300) Hwf Hlen)
    as (Hc & Ha & _ & Ho & _).
  split; [exact Hc |]. split; [exact Ha | exact Ho].
Defined.

(** X8.  Whatever sequence of transport calls is made and whatever the USB
    stack answers, [CDC_Transmit_FS] is never called while a transfer is
    in flight: between two calls the stack accepted there is a completion
    callback, and [tx_in_progress] at the end is the state the calls and
    completions leave. *)
Theorem usb_one_transfer_in_flight (u : usb_transport_t) (ops : list usb_op) :
  gated (tx_in_progress u) (snd (usb_run u ops))
  = Some (tx_in_progress (fst (usb_run u ops))).
Proof. apply TransportFlow.run_gated. Qed.

(** X9.  [usb_transport_process] on an idle transport with bytes waiting
    hands the first 64 of them (all, when fewer wait) to the USB stack.
    Accepted, they leave the buffer and the transport is busy.  Refused,
    they are written back behind the bytes still waiting: nothing is lost,
    the transport stays idle, and the order is kept only when at most 64
    bytes waited.  The counters do not move. *)
Theorem usb_process_chunk (u : usb_transport_t) (cdc_ok : bool) :
  rb_wf (tx_ring_buffer u) -> tx_in_progress u = false ->
  ring_contents (tx_ring_buffer u) <> [] ->
  let waiting := ring_contents (tx_ring_buffer u) in
  let u' := fst (usb_transport_process u cdc_ok) in
  snd (usb_transport_process u cdc_ok) = Some (CdcCall (take 64 waiting) cdc_ok)
  /\ tx_in_progress u' = cdc_ok
  /\ ring_contents (tx_ring_buffer u')
     = (if cdc_ok then drop 64 waiting else drop 64 waiting ++ take 64 waiting)
  /\ ((length waiting <= 64)%nat -> cdc_ok = false ->
      ring_contents (tx_ring_buffer u') = waiting)
  /\ rx_ring_buffer u' = rx_ring_buffer u
  /\ stats u' = stats u
  /\ rb_wf (tx_ring_buffer u').
Proof.
  intros Hwf Hidle Hne. cbv zeta.
  destruct (TransportFlow.flush_chunk u cdc_ok Hwf Hidle Hne) as (tx' & Hf & Hwf' & Hc).
  assert (Hempty : ring_buffer_is_empty (tx_ring_buffer u) = false).
  { destruct (ring_buffer_is_empty (tx_ring_buffer u)) eqn:He; [| reflexivity].
    apply (RingEdges.empty_iff _ (RingQueue.rb_wf_inv _ Hwf)) in He.
    pose proof (RingQueue.contents_length _ (RingQueue.rb_wf_inv _ Hwf)) as Hl.
    destruct (ring_contents (tx_ring_buffer u)); [congruence |].
    cbn [length] in Hl. lia. }
  unfold usb_transport_process. rewrite Hidle, Hempty. cbn [negb andb].
  rewrite Hf. cbn [fst snd with_tx tx_ring_buffer tx_in_progress rx_ring_buffer stats].
  split; [reflexivity |]. split; [reflexivity |]. split; [exact Hc |].
  split.
  { intros Hshort ->. rewrite Hc, drop_ge, take_ge by lia. reflexivity. }
  split; [reflexivity |]. split; [reflexivity | exact Hwf'].
Qed.

Lemma usb_process_chunk_witness :
  let u := snd (usb_transport_write
                  (usb_transport_init (repeat 0 256) (repeat 0 512))
                  (repeat 65 64 ++ [66; 67])) in
  snd (usb_transport_process u false) = Some (CdcCall (repeat 65 64) false)
  /\ ring_contents (tx_ring_buffer (fst (usb_transport_process u false)))
     = [66; 67] ++ repeat 65 64.
Proof.
  set (u := snd (usb_transport_write
                   (usb_transport_init (repeat 0 256) (repeat 0 512))
                   (repeat 65 64 ++ [66; 67]))).
  assert (Hwf : rb_wf (tx_ring_buffer u))
    by (vm_compute; repeat split; reflexivity || discriminate).
  assert (Hidle : tx_in_progress u = false) by reflexivity.
  assert (Hne : ring_contents (tx_ring_buffer u) <> [])
    by (vm_compute; discriminate).
  destruct (usb_process_chunk u false Hwf Hidle Hne) as (Hcall & _ & Hc & _).
  split; [exact Hcall | exact Hc].
Defined.

(** X10.  On the buffered path (writes, receive callbacks, reads, and
    [usb_transport_process] calls the stack accepts, with completions in
    between) the transmit buffer loses and reorders nothing: the bytes
    handed to the stack followed by the bytes still waiting are the bytes
    that waited at the start followed by a prefix of each write, in order.
    What a write drops is the end of its data, and only that. *)
Theorem usb_buffered_stream_conserved (u : usb_transport_t) (ops : list usb_op) :
  rb_wf (tx_ring_buffer u) -> forallb buffered ops = true ->
  exists taken,
    Forall2 prefix taken (offered ops)
    /\ accepted_bytes (snd (usb_run u ops))
         ++ ring_contents (tx_ring_buffer (fst (usb_run u ops)))
       = ring_contents (tx_ring_buffer u) ++ concat taken.
Proof.
  intros Hwf Hb. exact (proj2 (TransportFlow.run_buffered ops u Hwf Hb)).
Qed.

Lemma usb_buffered_stream_conserved_witness :
  let u := usb_transport_init (repeat 0 256) (repeat 0 512) in
  let ops := [UWrite [79; 75]; UProcess true; UWriteByte 10; UTxComplete;
              UProcess true] in
  exists taken,
    Forall2 prefix taken [[79; 75]; [10]]
    /\ accepted_bytes (snd (usb_run u ops))
         ++ ring_contents (tx_ring_buffer (fst (usb_run u ops)))
       = concat taken.
Proof.
  assert (Hwf : rb_wf (tx_ring_buffer
                         (usb_transport_init (repeat 0 256) (repeat 0 512))))
    by (vm_compute; repeat split; reflexivity || discriminate).
  exact (usb_buffered_stream_conserved
           (usb_transport_init (repeat 0 256) (repeat 0 512))
           [UWrite [79; 75]; UProcess true; UWriteByte 10; UTxComplete;
            UProcess true] Hwf eq_refl).
Defined.

(** X11.  [usb_transport_read_line] on a complete line: when the receive
    buffer holds a line of fewer than [max_length - 1] characters followed
    by a line feed or a carriage return, the call returns the length of the
    line, leaves the characters and a terminating NUL at the start of the
    caller's buffer, and consumes the line with its terminator, a line feed
    right after a carriage return included.  An empty line therefore
    returns 0, as a missing line does. *)
Theorem usb_read_line_complete
    (u : usb_transport_t) (buffer line : list Z) (t : Z) (rest : list Z)
    (max_length : Z) :
  rb_wf (rx_ring_buffer u) ->
  ring_contents (rx_ring_buffer u) = line ++ t :: rest ->
  Forall (fun c => is_terminator c = false) line ->
  is_terminator t = true ->
  Z.of_nat (length line) < max_length - 1 ->
  max_length < 2 ^ 16 ->
  max_length <= Z.of_nat (length buffer) ->
  let r := usb_transport_read_line u buffer max_length in
  fst (fst r) = Z.of_nat (length line)
  /\ snd (fst r) = line ++ 0 :: drop (length line + 1) buffer
  /\ ring_contents (rx_ring_buffer (snd r)) = after_terminator t rest
  /\ tx_ring_buffer (snd r) = tx_ring_buffer u
  /\ tx_in_progress (snd r) = tx_in_progress u
  /\ rb_wf (rx_ring_buffer (snd r)).
Proof.
  intros Hwf Hc Hline Ht Hlen Hmax Hbuf. cbv zeta.
  destruct (ReadLine.read_line_loop_line line (Z.to_nat (max_length - 1))
              (rx_ring_buffer u) buffer 0 max_length t rest Hwf Hc Hline Ht)
    as (rx' & Hloop & Hwf' & Hc'); [lia | lia | lia | lia |].
  unfold usb_transport_read_line. rewrite Hloop.
  cbn [fst snd with_rx rx_ring_buffer tx_ring_buffer tx_in_progress].
  change (Z.to_nat 0) with 0%nat. rewrite take_0. cbn [app Nat.add].
  auto 10.
Qed.

Lemma usb_read_line_complete_witness :
  let u := usb_transport_rx_callback
             (usb_transport_init (repeat 0 256) (repeat 0 512))
             [83; 84; 79; 80; 13; 10; 83] in
  let r := usb_transport_read_line u (repeat 255 64) 64 in
  fst (fst r) = 4
  /\ snd (fst r) = [83; 84; 79; 80; 0] ++ repeat 255 59
  /\ ring_contents (rx_ring_buffer (snd r)) = [83].
Proof.
  set (u := usb_transport_rx_callback
              (usb_transport_init (repeat 0 256) (repeat 0 512))
              [83; 84; 79; 80; 13; 10; 83]).
  assert (Hwf : rb_wf (rx_ring_buffer u))
    by (vm_compute; repeat split; reflexivity || discriminate).
  assert (Hc : ring_contents (rx_ring_buffer u) = [83; 84; 79; 80] ++ 13 :: [10; 83])
    by reflexivity.
  assert (Hline : Forall (fun c => is_terminator c = false) [83; 84; 79; 80])
    by (repeat constructor).
  assert (Hlen : Z.of_nat (length [83; 84; 79; 80]) < 64 - 1) by (cbn; lia).
  assert (Hmax : 64 < 2 ^ 16) by lia.
  assert (Hbuf : 64 <= Z.of_nat (length (repeat 255 64))) by (cbn; lia).
  destruct (usb_read_line_complete u (repeat 255 64) [83; 84; 79; 80] 13 [10; 83]
              64 Hwf Hc Hline eq_refl Hlen Hmax Hbuf) as (Hn & Hb & Hr & _).
  split; [exact Hn |]. split; [exact Hb | exact Hr].
Defined.

(** X12.  [usb_transport_read_line] without a complete line: when the
    waiting bytes hold no terminator and are fewer than [max_length - 1],
    or the first [max_length - 1] of them hold none, the call returns 0 and
    has nevertheless consumed those bytes: they are in the caller's buffer
    and no longer in the receive buffer, so a later call starts after
    them. *)
Theorem usb_read_line_incomplete
    (u : usb_transport_t) (buffer line more : list Z) (max_length : Z) :
  rb_wf (rx_ring_buffer u) ->
  ring_contents (rx_ring_buffer u) = line ++ more ->
  Forall (fun c => is_terminator c = false) line ->
  Z.of_nat (length line) = max_length - 1
  \/ (Z.of_nat (length line) < max_length - 1 /\ more = []) ->
  1 <= max_length < 2 ^ 16 ->
  max_length <= Z.of_nat (length buffer) ->
  let r := usb_transport_read_line u buffer max_length in
  fst (fst r) = 0
  /\ take (length line) (snd (fst r)) = line
  /\ ring_contents (rx_ring_buffer (snd r)) = more
  /\ tx_ring_buffer (snd r) = tx_ring_buffer u
  /\ rb_wf (rx_ring_buffer (snd r)).
Proof.
  intros Hwf Hc Hline Hcase Hmax Hbuf. cbv zeta.
  destruct (ReadLine.read_line_loop_none line (Z.to_nat (max_length - 1))
              (rx_ring_buffer u) buffer 0 max_length more Hwf Hc Hline)
    as (buffer' & rx' & Hloop & Hwf' & Hc' & Hb');
    [destruct Hcase as [? | [? ?]]; [left | right; split]; (lia || assumption)
    | lia | lia | lia | lia |].
  unfold usb_transport_read_line. rewrite Hloop.
  cbn [fst snd with_rx rx_ring_buffer tx_ring_buffer].
  change (Z.to_nat 0) with 0%nat in Hb'. rewrite take_0 in Hb'.
  cbn [app Nat.add] in Hb'. auto 10.
Qed.

Lemma usb_read_line_incomplete_witness :
  let u := usb_transport_rx_callback
             (usb_transport_init (repeat 0 256) (repeat 0 512))
             [83; 84; 65] in
  let r := usb_transport_read_line u (repeat 255 64) 64 in
  fst (fst r) = 0
  /\ take 3 (snd (fst r)) = [83; 84; 65]
  /\ ring_contents (rx_ring_buffer (snd r)) = [].
Proof.
  set (u := usb_transport_rx_callback
              (usb_transport_init (repeat 0 256) (repeat 0 512))
              [83; 84; 65]).
  assert (Hwf : rb_wf (rx_ring_buffer u))
    by (vm_compute; repeat split; reflexivity || discriminate).
  assert (Hc : ring_contents (rx_ring_buffer u) = [83; 84; 65] ++ [])
    by reflexivity.
  assert (Hline : Forall (fun c => is_terminator c = false) [83; 84; 65])
    by (repeat constructor).
  assert (Hcase : Z.of_nat (length [83; 84; 65]) = 64 - 1
                  \/ (Z.of_nat (length [83; 84; 65]) < 64 - 1 /\ @nil Z = []))
    by (right; split; [cbn; lia | reflexivity]).
  assert (Hmax : 1 <= 64 < 2 ^ 16) by lia.
  assert (Hbuf : 64 <= Z.of_nat (length (repeat 255 64))) by (cbn; lia).
  destruct (usb_read_line_incomplete u (repeat 255 64) [83; 84; 65] [] 64
              Hwf Hc Hline Hcase Hmax Hbuf) as (Hn & Hb & Hr & _).
  split; [exact Hn |]. split; [exact Hb | exact Hr].
Defined.

(** X13.  [usb_transport_write_byte] succeeds exactly when the transmit
    buffer is not full.  On success the byte is queued last and the total
    grows by one; on failure the buffer is unchanged and the overflow
    counter grows by one.  The receive side and the transfer flag are not
    touched. *)
Theorem usb_write_byte_accounting (u : usb_transport_t) (d : Z) :
  rb_wf (tx_ring_buffer u) ->
  let ok := fst (usb_transport_write_byte u d) in
  let u' := snd (usb_transport_write_byte u d) in
  ok = negb (ring_buffer_is_full (tx_ring_buffer u))
  /\ ring_contents (tx_ring_buffer u')
     = (if ok then ring_contents (tx_ring_buffer u) ++ [d]
        else ring_contents (tx_ring_buffer u))
  /\ tx_bytes_total (stats u')
     = (if ok then uint32 (tx_bytes_total (stats u) + 1)
        else tx_bytes_total (stats u))
  /\ tx_overflow_count (stats u')
     = (if ok then tx_overflow_count (stats u)
        else uint32 (tx_overflow_count (stats u) + 1))
  /\ rx_ring_buffer u' = rx_ring_buffer u
  /\ tx_in_progress u' = tx_in_progress u
  /\ rb_wf (tx_ring_buffer u').
Proof.
  intros Hwf. cbv zeta. pose proof (RingQueue.rb_wf_inv _ Hwf) as Hinv.
  destruct (RingFacts.available_value _ Hinv) as [_ Ha].
  unfold usb_transport_write_byte.
  destruct (ring_buffer_is_full (tx_ring_buffer u)) eqn:Hfull.
  - apply (RingEdges.full_iff _ Hinv) in Hfull.
    rewrite (RingEdges.write_full _ d Hinv Hfull).
    cbn [fst snd negb tx_ring_buffer rx_ring_buffer tx_in_progress stats
         tx_bytes_total tx_overflow_count]. auto 10.
  - assert (Hroom : ring_buffer_available (tx_ring_buffer u)
                    < size (tx_ring_buffer u) - 1).
    { destruct (Z.eq_dec (ring_buffer_available (tx_ring_buffer u))
                  (size (tx_ring_buffer u) - 1)) as [He | Hn]; [| lia].
      apply (RingEdges.full_iff _ Hinv) in He. congruence. }
    destruct (RingQueue.write_appends _ d Hwf Hroom)
      as (tx1 & Hw & Hwf1 & _ & _ & Hc1).
    rewrite Hw.
    cbn [fst snd negb tx_ring_buffer rx_ring_buffer tx_in_progress stats
         tx_bytes_total tx_overflow_count]. auto 10.
Qed.

Lemma usb_write_byte_accounting_witness :
  let u := snd (usb_transport_write
                  (usb_transport_init (repeat 0 256) (repeat 0 512))
                  (repeat 65 511)) in
  fst (usb_transport_write_byte u 66) = false
  /\ tx_overflow_count (stats (snd (usb_transport_write_byte u 66))) = 1.
Proof.
  set (u := snd (usb_transport_write
                   (usb_transport_init (repeat 0 256) (repeat 0 512))
                   (repeat 65 511))).
  assert (Hwf : rb_wf (tx_ring_buffer u))
    by (vm_compute; repeat split; reflexivity || discriminate).
  destruct (usb_write_byte_accounting u 66 Hwf) as (Hok & _ & _ & Ho & _).
  split; [exact Hok |].
  rewrite Ho, Hok. reflexivity.
Defined.

(** ** Frame codec and counter *)

(** X14.  Frames are numbered without gaps.  Over any sequence of calls
    of [ccd_data_layer_process_readout] on an initialised layer, the frames
    built carry the counters c, c+1, c+2, ... modulo 65536, where c is the
    counter at the start; the calls refused for a null pointer use up no
    number, and the counter at the end is c plus the number of frames
    built, modulo 65536. *)
Theorem readout_sequence_numbers (st : data_layer_t)
    (calls : list (option (list Z) * option CCD_Frame_t)) :
  st_initialized st = true -> is_uint16 (st_frame_counter st) ->
  let n := length (List.filter complete calls) in
  let r := readouts st calls in
  map frame_counter (built (snd r))
  = map (fun k => (st_frame_counter st + Z.of_nat k) mod 65536) (seq 0 n)
  /\ length (built (snd r)) = n
  /\ ccd_data_layer_get_frame_count (fst r)
     = (st_frame_counter st + Z.of_nat n) mod 65536.
Proof.
  intros Hinit Hc. cbv zeta.
  destruct (ReadoutFacts.readouts_numbers calls st Hinit Hc) as (Hn & Hlast & _).
  split; [exact Hn |]. split; [| exact Hlast].
  rewrite <- (length_map frame_counter), Hn, length_map, length_seq. reflexivity.
Qed.

Lemma readout_sequence_numbers_witness :
  let st := {| st_frame_counter := 65534; st_initialized := true |} in
  let calls := [(Some dark_samples, Some blank_frame); (None, Some blank_frame);
                (Some dark_samples, Some blank_frame);
                (Some dark_samples, Some blank_frame)] in
  map frame_counter (built (snd (readouts st calls))) = [65534; 65535; 0]
  /\ length (built (snd (readouts st calls))) = 3%nat
  /\ ccd_data_layer_get_frame_count (fst (readouts st calls)) = 1.
Proof.
  apply (readout_sequence_numbers
           {| st_frame_counter := 65534; st_initialized := true |}
           [(Some dark_samples, Some blank_frame); (None, Some blank_frame);
            (Some dark_samples, Some blank_frame);
            (Some dark_samples, Some blank_frame)]).
  - reflexivity.
  - unfold is_uint16. cbn. lia.
Defined.

(** X15.  [ccd_data_layer_calculate_crc16] returns a 16-bit value for
    data of any length, and replacing any one byte of the data by a
    different byte changes the value: no single corrupted byte goes
    unnoticed, wherever it lies and however long the data is. *)
Theorem crc16_detects_single_byte_error (data : list Z) (i : nat) (b v : Z) :
  Forall is_uint8 data -> data !! i = Some b -> is_uint8 v -> v <> b ->
  ccd_data_layer_calculate_crc16 (<[i := v]> data)
    <> ccd_data_layer_calculate_crc16 data
  /\ is_uint16 (ccd_data_layer_calculate_crc16 data).
Proof.
  intros Hdata Hi Hv Hne. split.
  - pose proof (lookup_lt_Some _ _ _ Hi) as Hlt.
    rewrite (insert_take_drop data i v Hlt).
    rewrite <- (take_drop_middle data i b Hi) at 3.
    apply crc16_detects_byte; try assumption.
    + apply Forall_drop, Hdata.
    + apply (proj1 (Forall_lookup _ _) Hdata i b Hi).
  - apply crc16_fold_range. unfold is_uint16. lia.
Qed.

Lemma crc16_detects_single_byte_error_witness :
  ccd_data_layer_calculate_crc16 (<[2%nat := 255]> [83; 84; 79; 80])
    <> ccd_data_layer_calculate_crc16 [83; 84; 79; 80]
  /\ is_uint16 (ccd_data_layer_calculate_crc16 [83; 84; 79; 80]).
Proof.
  apply (crc16_detects_single_byte_error [83; 84; 79; 80] 2 79 255).
  - repeat constructor; unfold is_uint8; lia.
  - reflexivity.
  - unfold is_uint8. lia.
  - discriminate.
Defined.

(** X16.  The memory image of a built frame, as a host reads it off the
    wire: 7402 bytes; the four characters FRME; the counter, low byte
    first; the pixel count 3694 as the bytes 0x6E 0x0E; sample k at the
    bytes 8+2k (low) and 9+2k (high); the four characters ENDF at offset
    7396; and last, after the end marker, the checksum of the 7400 bytes
    before it, low byte first. *)
Theorem built_frame_wire_image (st st' : data_layer_t) (adc : list Z)
    (old frame : CCD_Frame_t) :
  ccd_data_layer_process_readout st (Some adc) (Some old)
    = (CCD_FRAME_OK, st', Some frame) ->
  (Z.to_nat CCD_PIXEL_COUNT <= length adc)%nat ->
  let m := frame_bytes frame in
  Z.of_nat (length m) = 7402
  /\ take 4 m = cstr "FRME"
  /\ take 2 (drop 4 m) = le16 (st_frame_counter st)
  /\ take 2 (drop 6 m) = [0x6E; 0x0E]
  /\ (forall (k : nat) (x : Z),
        (k < Z.to_nat CCD_PIXEL_COUNT)%nat -> adc !! k = Some x ->
        m !! (8 + 2 * k)%nat = Some (x mod 256)
        /\ m !! (9 + 2 * k)%nat = Some ((x / 256) mod 256))
  /\ take 4 (drop (Z.to_nat 7396) m) = cstr "ENDF"
  /\ drop (Z.to_nat 7400) m
     = le16 (ccd_data_layer_calculate_crc16 (take (Z.to_nat 7400) m)).
Proof.
  intros Hrun Hlen. cbv zeta.
  pose proof (built_frame_shape _ _ _ _ _ Hrun Hlen) as Hshape.
  pose proof (built_frame_checksum _ _ _ _ _ Hrun Hlen) as Hck.
  destruct (process_readout_fields _ _ _ _ _ Hrun)
    as (_ & _ & _ & Hs & He & Hf & Hp & Hd).
  pose proof (frame_bytes_length frame Hshape) as Hl.
  pose proof (frame_prefix_length frame Hshape) as Hpl.
  assert (Hpix : length (flat_map le16 (pixel_data frame))
                 = Z.to_nat FRAME_PIXEL_SIZE).
  { rewrite le16s_length. destruct Hshape as (_ & _ & ->).
    frame_sizes. lia. }
  assert (Hm : frame_bytes frame
               = [70; 82; 77; 69] ++ le16 (st_frame_counter st) ++ [110; 14]
                   ++ flat_map le16 (pixel_data frame)
                   ++ cstr "ENDF" ++ le16 (checksum frame)).
  { unfold frame_bytes. rewrite Hs, He, Hf, Hp. reflexivity. }
  split; [rewrite Hl; frame_sizes; lia |].
  split; [rewrite Hm; reflexivity |].
  split; [rewrite Hm; reflexivity |].
  split; [rewrite Hm; reflexivity |].
  split.
  { intros k x Hk Hx.
    assert (Hpk : pixel_data frame !! k = Some x).
    { rewrite Hd, lookup_take_lt by exact Hk. exact Hx. }
    destruct (ReadoutFacts.le16s_lookup _ _ _ Hpk) as [Hlo Hhi].
    pose proof (lookup_lt_Some _ _ _ Hlo) as Hlt1.
    pose proof (lookup_lt_Some _ _ _ Hhi) as Hlt2.
    assert (Hm8 : frame_bytes frame
                  = [70; 82; 77; 69; st_frame_counter st mod 256;
                     (st_frame_counter st / 256) mod 256; 110; 14]
                      ++ flat_map le16 (pixel_data frame)
                      ++ cstr "ENDF" ++ le16 (checksum frame))
      by (rewrite Hm; reflexivity).
    rewrite Hm8. split.
    - rewrite lookup_app_r by (cbn [length]; lia). cbn [length].
      replace (8 + 2 * k - 8)%nat with (2 * k)%nat by lia.
      rewrite lookup_app_l by assumption. exact Hlo.
    - rewrite lookup_app_r by (cbn [length]; lia). cbn [length].
      replace (9 + 2 * k - 8)%nat with (2 * k + 1)%nat by lia.
      rewrite lookup_app_l by assumption. exact Hhi. }
  split.
  { rewrite Hm. unfold le16 at 1.
    change ([70; 82; 77; 69] ++ [st_frame_counter st mod 256;
                                 (st_frame_counter st / 256) mod 256]
              ++ [110; 14] ++ flat_map le16 (pixel_data frame)
              ++ cstr "ENDF" ++ le16 (checksum frame))
      with (([70; 82; 77; 69; st_frame_counter st mod 256;
              (st_frame_counter st / 256) mod 256; 110; 14]
               ++ flat_map le16 (pixel_data frame))
              ++ cstr "ENDF" ++ le16 (checksum frame)).
    rewrite drop_app_length'
      by (rewrite length_app, Hpix; frame_sizes; cbn [length]; lia).
    reflexivity. }
  replace (Z.to_nat 7400) with (Z.to_nat (FRAME_TOTAL_SIZE - 2))
    by (frame_sizes; reflexivity).
  rewrite <- Hck. rewrite frame_bytes_prefix.
  apply drop_app_length'. symmetry. exact Hpl.
Qed.

Lemma built_frame_wire_image_witness :
  let m := frame_bytes dark_frame in
  Z.of_nat (length m) = 7402
  /\ take 4 m = cstr "FRME"
  /\ take 4 (drop (Z.to_nat 7396) m) = cstr "ENDF"
  /\ drop (Z.to_nat 7400) m
     = le16 (ccd_data_layer_calculate_crc16 (take (Z.to_nat 7400) m)).
Proof.
  assert (Hrun : ccd_data_layer_process_readout st_fresh (Some dark_samples)
                   (Some blank_frame)
                 = (CCD_FRAME_OK,
                    {| st_frame_counter := 1; st_initialized := true |},
                    Some dark_frame)) by reflexivity.
  assert (Hlen : (Z.to_nat CCD_PIXEL_COUNT <= length dark_samples)%nat)
    by (unfold dark_samples; rewrite repeat_length; lia).
  destruct (built_frame_wire_image _ _ _ _ _ Hrun Hlen)
    as (H1 & H2 & _ & _ & _ & H3 & H4).
  split; [exact H1 |]. split; [exact H2 |]. split; [exact H3 | exact H4].
Defined.

(** ** Command layer *)

(** X17.  Line assembly.  With the line buffer empty, the bytes of a
    command of 1 to 63 characters (none of them NUL, LF or CR) followed by
    a line feed or a carriage return make the layer dispatch exactly that
    text: the state afterwards is the one [parse_and_execute_command]
    gives on the text, with the text left NUL-terminated in the line buffer
    and the index back at 0. *)
Theorem command_line_dispatched (s : command_layer_t) (w : list Z) (t : Z) :
  command_index s = 0 ->
  length (command_buffer s) = Z.to_nat CMD_BUFFER_SIZE ->
  Forall (fun c => line_char c = true) w ->
  (1 <= length w <= 63)%nat ->
  t = LF \/ t = CR ->
  feed s (w ++ [t])
  = with_line (parse_and_execute_command s w)
      (w ++ 0 :: drop (length w + 1) (command_buffer s)) 0.
Proof.
  intros Hidx Hbuf Hw Hlen Ht. unfold CMD_BUFFER_SIZE in Hbuf.
  unfold feed. rewrite fold_left_app. cbn [fold_left]. fold (feed s w).
  rewrite (CommandFlow.feed_stores w s Hw);
    [| lia | unfold CMD_BUFFER_SIZE; lia | lia].
  rewrite Hidx. change (Z.to_nat 0) with 0%nat.
  rewrite take_0. cbn [app Nat.add]. rewrite Z.add_0_l.
  unfold process_byte.
  replace ((t =? LF) || (t =? CR)) with true
    by (destruct Ht as [-> | ->]; reflexivity).
  cbn [with_line command_index command_buffer].
  destruct (Z.gtb_spec (Z.of_nat (length w)) 0) as [_ | ?]; [| lia].
  cbv zeta. rewrite Nat2Z.id.
  assert (Hins : <[length w := 0]> (w ++ drop (length w) (command_buffer s))
                 = w ++ 0 :: drop (length w + 1) (command_buffer s)).
  { rewrite insert_app_r_alt by lia. rewrite Nat.sub_diag. f_equal.
    destruct (drop (length w) (command_buffer s)) as [| x rest] eqn:Hd.
    - apply (f_equal length) in Hd. rewrite length_drop in Hd.
      cbn [length] in Hd. lia.
    - cbn [insert list_insert]. f_equal.
      rewrite <- (drop_drop _ 1 (length w)), Hd. reflexivity. }
  rewrite Hins, (CommandFlow.c_string_line w _ Hw).
  rewrite !CommandFlow.parse_and_execute_with_line. reflexivity.
Qed.

Lemma command_line_dispatched_witness :
  feed booted (cline "START")
  = with_line (parse_and_execute_command booted (cstr "START"))
      (cstr "START" ++ 0 :: drop (5 + 1) (command_buffer booted)) 0.
Proof.
  apply (command_line_dispatched booted (cstr "START") LF).
  - reflexivity.
  - reflexivity.
  - repeat constructor.
  - cbn [cstr length]. vm_compute. split; lia.
  - left. reflexivity.
Defined.

(** X18.  [command_layer_process] handles exactly the bytes waiting in
    the receive buffer, oldest first, one loop body per byte, and returns
    with the receive buffer empty. *)
Theorem command_layer_process_feeds (s : command_layer_t) :
  rb_wf (rx_ring_buffer (usb s)) ->
  exists rx',
    command_layer_process s
    = set_rx (feed s (ring_contents (rx_ring_buffer (usb s)))) rx'
    /\ ring_contents rx' = [] /\ rb_wf rx'.
Proof.
  intros Hwf. unfold command_layer_process.
  destruct (CommandFlow.process_loop_feeds
              (ring_contents (rx_ring_buffer (usb s)))
              (Z.to_nat (usb_transport_available (usb s))) s Hwf eq_refl)
    as (rx' & Hloop & Hwf' & Hc').
  { pose proof (RingQueue.contents_length _ (RingQueue.rb_wf_inv _ Hwf)) as Hl.
    unfold usb_transport_available. lia. }
  exists rx'. auto.
Qed.

Lemma command_layer_process_feeds_witness :
  let s := with_usb booted
             (usb_transport_rx_callback (usb booted) (cline "START")) in
  exists rx',
    command_layer_process s = set_rx (feed s (cline "START")) rx'
    /\ ring_contents rx' = [] /\ rb_wf rx'.
Proof.
  apply (command_layer_process_feeds
           (with_usb booted
              (usb_transport_rx_callback (usb booted) (cline "START")))).
  vm_compute. repeat split; reflexivity || discriminate.
Defined.

(** X19.  Spaces and carriage returns at the end of a command are not
    part of it: within the 63 characters the dispatcher copies, a command
    followed by any run of them is dispatched as the command alone. *)
Theorem trailing_blanks_ignored (s : command_layer_t) (w pad : list Z) :
  Forall (fun c => blank c = true) pad ->
  (length (w ++ pad) <= 63)%nat ->
  parse_and_execute_command s (w ++ pad) = parse_and_execute_command s w.
Proof.
  intros Hpad Hlen. rewrite length_app in Hlen.
  unfold parse_and_execute_command. cbv zeta.
  change (Z.to_nat (CMD_BUFFER_SIZE - 1)) with 63%nat.
  rewrite (take_ge (w ++ pad)) by (rewrite length_app; lia).
  rewrite (take_ge w) by lia.
  rewrite (CommandFlow.trim_trailing_app_blanks w pad Hpad). reflexivity.
Qed.

Lemma trailing_blanks_ignored_witness :
  parse_and_execute_command booted (cstr "START" ++ [SP; SP; CR])
  = parse_and_execute_command booted (cstr "START").
Proof.
  apply (trailing_blanks_ignored booted (cstr "START") [SP; SP; CR]).
  - repeat constructor.
  - vm_compute. lia.
Defined.

(** X20.  SET_INT_TIME accepted.  While not acquiring, the command
    SET_INT_TIME:n with n in decimal and 10 <= n <= 100000 stores n as the
    integration time and leaves TIM5 running with the period 84 n - 1, the
    compare value 335 and the counter at 0; the acquisition state is not
    changed, and, the transmit buffer having room for 43 bytes, the replies
    queued are OK:INT_TIME_SET:n and then OK:INT_TIME_SET.  The decimal
    text [%lu] prints is read back by [atoi] as the same number. *)
Theorem set_int_time_accepted (s : command_layer_t) (n : Z) :
  command_layer_is_acquiring s = false ->
  10 <= n <= 100000 ->
  rb_wf (tx_ring_buffer (usb s)) ->
  43 <= ring_buffer_free_space (tx_ring_buffer (usb s)) ->
  let s' := parse_and_execute_command s (cstr "SET_INT_TIME:" ++ fmt_lu n) in
  command_layer_get_integration_time s' = n
  /\ htim5 s' = {| pwm_running := true; autoreload := 84 * n - 1;
                   compare3 := 335; counter := 0 |}
  /\ acquisition_state s' = acquisition_state s
  /\ replies s'
     = replies s ++ (cstr "OK:INT_TIME_SET:" ++ fmt_lu n ++ [LF])
         ++ cline "OK:INT_TIME_SET"
  /\ atoi (fmt_lu n) = n.
Proof.
  intros Hidle Hn Hwf Hroom. cbv zeta.
  assert (Hn32 : 0 <= n < 2 ^ 32) by lia.
  destruct (CommandFlow.fmt_lu_digits n Hn32) as (_ & Hlen & Hds & Hread).
  rewrite CommandFacts.dispatch_set_int_time.
  rewrite (CommandFlow.atoi_fmt_lu n Hn32).
  assert (Hu : uint32 n = n) by (unfold uint32; apply Z.mod_small; lia).
  rewrite Hu. unfold command_handle_set_integration_time. rewrite Hidle.
  destruct (Z.ltb_spec n 10) as [? | _]; [lia |].
  destruct (Z.gtb_spec n 100000) as [? | _]; [lia |].
  cbn [orb]. cbv zeta.
  assert (Harr : uint32 (84 * n - 1) = 84 * n - 1)
    by (unfold uint32; apply Z.mod_small; lia).
  rewrite Harr.
  assert (Hfirst : snprintf 64 (cstr "OK:INT_TIME_SET:" ++ fmt_lu n ++ [LF])
                   = cstr "OK:INT_TIME_SET:" ++ fmt_lu n ++ [LF]).
  { unfold snprintf. apply take_ge. rewrite !length_app.
    change (length (cstr "OK:INT_TIME_SET:")) with 16%nat. cbn [length]. lia. }
  rewrite Hfirst.
  set (s1 := with_time s n _).
  set (r1 := cstr "OK:INT_TIME_SET:" ++ fmt_lu n ++ [LF]).
  assert (Hr1 : (length r1 <= 27)%nat).
  { unfold r1. rewrite !length_app.
    change (length (cstr "OK:INT_TIME_SET:")) with 16%nat. cbn [length]. lia. }
  destruct (CommandFacts.write_string_queued (usb s1) r1) as (_ & Hc1 & Hwf1 & _).
  { exact Hwf. }
  { change (usb s1) with (usb s). lia. }
  assert (Hfree1 : 16 <= ring_buffer_free_space
                           (tx_ring_buffer (usb (send_response s1 r1)))).
  { unfold send_response, with_usb. cbn [usb].
    pose proof (RingFacts.free_space_value _ (RingQueue.rb_wf_inv _ Hwf1)) as Hf1.
    pose proof (RingFacts.free_space_value _ (RingQueue.rb_wf_inv _ Hwf)) as Hf.
    pose proof (RingQueue.contents_length _ (RingQueue.rb_wf_inv _ Hwf1)) as Hl1.
    pose proof (RingQueue.contents_length _ (RingQueue.rb_wf_inv _ Hwf)) as Hl.
    rewrite Hc1, length_app in Hl1.
    change (usb s1) with (usb s) in *.
    assert (size (tx_ring_buffer (snd (usb_transport_write_string (usb s) r1)))
            = size (tx_ring_buffer (usb s))) as Hsz.
    { unfold usb_transport_write_string, usb_transport_write.
      destruct (TransportFacts.write_multiple_room (tx_ring_buffer (usb s))
                  (take (Z.to_nat (uint16 (Z.of_nat (length r1)))) r1) Hwf)
        as (tx' & Hw & _ & Hs' & _).
      rewrite Hw. exact Hs'. }
    lia. }
  split; [reflexivity |]. split; [reflexivity |]. split; [reflexivity |].
  split; [| rewrite CommandFlow.atoi_digits_only by exact Hds; exact Hread].
  rewrite CommandFacts.send_response_queued.
  - rewrite CommandFacts.send_response_queued; [| exact Hwf |].
    + change (replies s1) with (replies s). rewrite <- app_assoc. reflexivity.
    + change (usb s1) with (usb s). lia.
  - exact Hwf1.
  - change (length (cline "OK:INT_TIME_SET")) with 16%nat. exact Hfree1.
Qed.

Lemma set_int_time_accepted_witness :
  let s' := parse_and_execute_command booted (cstr "SET_INT_TIME:" ++ fmt_lu 2500) in
  command_layer_get_integration_time s' = 2500
  /\ htim5 s' = {| pwm_running := true; autoreload := 209999;
                   compare3 := 335; counter := 0 |}
  /\ replies s'
     = replies booted ++ (cstr "OK:INT_TIME_SET:" ++ fmt_lu 2500 ++ [LF])
         ++ cline "OK:INT_TIME_SET".
Proof.
  assert (Hidle : command_layer_is_acquiring booted = false) by reflexivity.
  assert (Hn : 10 <= 2500 <= 100000) by lia.
  assert (Hwf : rb_wf (tx_ring_buffer (usb booted)))
    by (vm_compute; repeat split; reflexivity || discriminate).
  assert (Hroom : 43 <= ring_buffer_free_space (tx_ring_buffer (usb booted)))
    by (vm_compute; discriminate).
  destruct (set_int_time_accepted booted 2500 Hidle Hn Hwf Hroom)
    as (Ht & Htim & _ & Hr & _).
  split; [exact Ht |]. split; [exact Htim | exact Hr].
Defined.

(** X21.  Once the stored integration time is within 10..100000
    microseconds and TIM5 runs with the period 84 * integration_time - 1
    that belongs to it, this stays so whatever bytes the host sends: no
    sequence of commands, well formed or not, leaves the timer stopped, or
    out of step with the stored value, or the value out of range. *)
Theorem timer_stays_consistent (s : command_layer_t) (bytes : list Z) :
  timer_consistent s ->
  rb_wf (rx_ring_buffer (usb s)) ->
  timer_consistent (receive s bytes) /\ timer_consistent (feed s bytes).
Proof.
  intros Hs Hwf. split; [| apply CommandFlow.feed_consistent, Hs].
  unfold receive.
  set (s0 := with_usb s (usb_transport_rx_callback (usb s) bytes)).
  assert (Hwf0 : rb_wf (rx_ring_buffer (usb s0))).
  { unfold s0, with_usb. cbn [usb]. unfold usb_transport_rx_callback. cbv zeta.
    destruct (TransportFacts.write_multiple_room (rx_ring_buffer (usb s))
                (take (Z.to_nat (uint16 (uint32 (Z.of_nat (length bytes))))) bytes)
                Hwf) as (rx' & Hw & Hwf' & _).
    rewrite Hw. exact Hwf'. }
  unfold command_layer_process.
  destruct (CommandFlow.process_loop_feeds
              (ring_contents (rx_ring_buffer (usb s0)))
              (Z.to_nat (usb_transport_available (usb s0))) s0 Hwf0 eq_refl)
    as (rx' & Hloop & _).
  { pose proof (RingQueue.contents_length _ (RingQueue.rb_wf_inv _ Hwf0)) as Hl.
    unfold usb_transport_available. lia. }
  rewrite Hloop.
  change (timer_consistent
            (feed s0 (ring_contents (rx_ring_buffer (usb s0))))).
  apply CommandFlow.feed_consistent. exact Hs.
Qed.

Lemma timer_stays_consistent_witness :
  let s := snd (command_handle_set_integration_time booted 20) in
  timer_consistent (receive s (cline "SET_INT_TIME:5" ++ cline "SET_INT_TIME:700"))
  /\ timer_consistent (feed s (cline "SET_INT_TIME:5" ++ cline "SET_INT_TIME:700")).
Proof.
  apply (timer_stays_consistent
           (snd (command_handle_set_integration_time booted 20))
           (cline "SET_INT_TIME:5" ++ cline "SET_INT_TIME:700")).
  - unfold timer_consistent. vm_compute.
    split; [split; discriminate |]. split; reflexivity.
  - vm_compute. repeat split; reflexivity || discriminate.
Defined.

(** X22.  While the acquisition is running no received byte reaches the
    timer: whatever command the byte completes, TIM5 and the stored
    integration time are as before. *)
Theorem timer_untouched_while_running (s : command_layer_t) (byte : Z) :
  acquisition_state s = ACQ_STATE_RUNNING ->
  htim5 (process_byte s byte) = htim5 s
  /\ command_layer_get_integration_time (process_byte s byte)
     = command_layer_get_integration_time s.
Proof.
  intros Hrun. unfold process_byte, command_layer_get_integration_time.
  destruct (_ || _).
  - destruct (command_index s >? 0); [| split; reflexivity]. cbv zeta.
    rewrite CommandFlow.parse_and_execute_with_line.
    apply (CommandFlow.parse_and_execute_running s _ Hrun).
  - destruct (command_index s <? CMD_BUFFER_SIZE - 1); split; reflexivity.
Qed.

Lemma timer_untouched_while_running_witness :
  htim5 (process_byte (feed running (cstr "SET_INT_TIME:50")) LF)
  = htim5 (feed running (cstr "SET_INT_TIME:50"))
  /\ command_layer_get_integration_time
       (process_byte (feed running (cstr "SET_INT_TIME:50")) LF)
     = command_layer_get_integration_time
         (feed running (cstr "SET_INT_TIME:50")).
Proof.
  apply (timer_untouched_while_running
           (feed running (cstr "SET_INT_TIME:50")) LF).
  vm_compute. reflexivity.
Defined.

(** X23.  STATUS changes nothing but the transmit buffer, and its reply
    (the transmit buffer having room for 35 bytes) is one line, never cut
    short by the 128-character buffer: the word STATUS, the state as IDLE
    or RUNNING, and the stored integration time in decimal. *)
Theorem status_reply (s : command_layer_t) :
  0 <= integration_time_us s < 2 ^ 32 ->
  rb_wf (tx_ring_buffer (usb s)) ->
  35 <= ring_buffer_free_space (tx_ring_buffer (usb s)) ->
  let s' := parse_and_execute_command s (cstr "STATUS") in
  replies s'
  = replies s ++ cstr "STATUS:"
      ++ (if command_layer_is_acquiring s then cstr "RUNNING" else cstr "IDLE")
      ++ cstr ",INT_TIME:" ++ fmt_lu (integration_time_us s) ++ [LF]
  /\ acquisition_state s' = acquisition_state s
  /\ integration_time_us s' = integration_time_us s
  /\ htim5 s' = htim5 s
  /\ command_buffer s' = command_buffer s
  /\ command_index s' = command_index s.
Proof.
  intros Ht Hwf Hroom. cbv zeta.
  destruct (CommandFlow.fmt_lu_digits _ Ht) as (_ & Hlen & _ & _).
  assert (Hdispatch : parse_and_execute_command s (cstr "STATUS")
                      = command_handle_get_status s) by reflexivity.
  rewrite Hdispatch. unfold command_handle_get_status. cbv zeta.
  set (state_str := if command_layer_is_acquiring s then cstr "RUNNING"
                    else cstr "IDLE").
  assert (Hstate : (length state_str <= 7)%nat)
    by (unfold state_str; destruct (command_layer_is_acquiring s); cbn; lia).
  set (text := cstr "STATUS:" ++ state_str ++ cstr ",INT_TIME:"
                 ++ fmt_lu (integration_time_us s) ++ [LF]).
  assert (Htext : (length text <= 35)%nat).
  { unfold text. rewrite !length_app.
    change (length (cstr "STATUS:")) with 7%nat.
    change (length (cstr ",INT_TIME:")) with 10%nat. cbn [length]. lia. }
  assert (Hfit : snprintf 128 text = text)
    by (unfold snprintf; apply take_ge; lia).
  rewrite Hfit.
  split; [apply CommandFacts.send_response_queued; [exact Hwf | lia] |].
  repeat split.
Qed.

Lemma status_reply_witness :
  replies (parse_and_execute_command running (cstr "STATUS"))
  = replies running ++ cstr "STATUS:RUNNING,INT_TIME:20" ++ [LF].
Proof.
  assert (Ht : 0 <= integration_time_us running < 2 ^ 32)
    by (vm_compute; split; [discriminate | reflexivity]).
  assert (Hwf : rb_wf (tx_ring_buffer (usb running)))
    by (vm_compute; repeat split; reflexivity || discriminate).
  assert (Hroom : 35 <= ring_buffer_free_space (tx_ring_buffer (usb running)))
    by (vm_compute; discriminate).
  exact (proj1 (status_reply running Ht Hwf Hroom)).
Defined.

(** X24.  A line that is none of the commands changes nothing but the
    transmit buffer.  Its reply (the transmit buffer having room for 63
    bytes) is ERROR:UNKNOWN_CMD: followed by the line and a newline when
    the line has at most 44 characters; a longer line is echoed up to its
    45th character and the reply then has no newline, the 64-character
    reply buffer being full. *)
Theorem unknown_command_reply (s : command_layer_t) (w : list Z) :
  trim_trailing w = w ->
  (length w <= 63)%nat ->
  w <> cstr "START" -> w <> cstr "STOP" -> w <> cstr "STATUS" ->
  take 13 w <> cstr "SET_INT_TIME:" ->
  rb_wf (tx_ring_buffer (usb s)) ->
  63 <= ring_buffer_free_space (tx_ring_buffer (usb s)) ->
  let s' := parse_and_execute_command s w in
  replies s'
  = replies s
      ++ (if (length w <=? 44)%nat then cstr "ERROR:UNKNOWN_CMD:" ++ w ++ [LF]
          else cstr "ERROR:UNKNOWN_CMD:" ++ take 45 w)
  /\ acquisition_state s' = acquisition_state s
  /\ integration_time_us s' = integration_time_us s
  /\ htim5 s' = htim5 s.
Proof.
  intros Htrim Hlen Hstart Hstop Hstatus Hset Hwf Hroom. cbv zeta.
  unfold parse_and_execute_command. cbv zeta.
  change (Z.to_nat (CMD_BUFFER_SIZE - 1)) with 63%nat.
  rewrite (take_ge w) by lia. rewrite Htrim.
  rewrite !bool_decide_eq_false_2 by assumption.
  set (text := cstr "ERROR:UNKNOWN_CMD:" ++ w ++ [LF]).
  assert (Hreply : snprintf 64 text
                   = if (length w <=? 44)%nat
                     then cstr "ERROR:UNKNOWN_CMD:" ++ w ++ [LF]
                     else cstr "ERROR:UNKNOWN_CMD:" ++ take 45 w).
  { unfold snprintf, text. change (Z.to_nat (64 - 1)) with (18 + 45)%nat.
    rewrite take_app_add' by reflexivity.
    destruct (Nat.leb_spec (length w) 44) as [Hshort | Hlong].
    - rewrite take_ge by (rewrite length_app; cbn [length]; lia). reflexivity.
    - rewrite take_app_le by lia. reflexivity. }
  rewrite Hreply.
  split; [| repeat split].
  apply CommandFacts.send_response_queued; [exact Hwf |].
  destruct (Nat.leb_spec (length w) 44) as [Hshort | Hlong]; cbv beta iota; unfold text;
    rewrite !length_app; change (length (cstr "ERROR:UNKNOWN_CMD:")) with 18%nat;
    [cbn [length] | rewrite length_take]; lia.
Qed.

Lemma unknown_command_reply_witness :
  replies (parse_and_execute_command booted (repeat 88 50))
  = replies booted ++ cstr "ERROR:UNKNOWN_CMD:" ++ repeat 88 45.
Proof.
  assert (Htrim : trim_trailing (repeat 88 50) = repeat 88 50) by reflexivity.
  assert (Hlen : (length (repeat 88 50) <= 63)%nat) by (vm_compute; lia).
  assert (H1 : repeat 88 50 <> cstr "START") by discriminate.
  assert (H2 : repeat 88 50 <> cstr "STOP") by discriminate.
  assert (H3 : repeat 88 50 <> cstr "STATUS") by discriminate.
  assert (H4 : take 13 (repeat 88 50) <> cstr "SET_INT_TIME:") by discriminate.
  assert (Hwf : rb_wf (tx_ring_buffer (usb booted)))
    by (vm_compute; repeat split; reflexivity || discriminate).
  assert (Hroom : 63 <= ring_buffer_free_space (tx_ring_buffer (usb booted)))
    by (vm_compute; discriminate).
  exact (proj1 (unknown_command_reply booted (repeat 88 50)
                  Htrim Hlen H1 H2 H3 H4 Hwf Hroom)).
Defined.
